(** * local-repo-search: a shallow embedding of utils.py, clone_orgs.py
      and search.py, and the properties of the specification checked
      against it.

    Conventions of the embedding.
    - A Python [str] is a [string]; a character is a code point below 256,
      which covers ASCII and Latin-1 text.  [lower], [strip] and string
      comparison follow Python on that range.
    - A Python [dict] with string keys is a [gmap string pyval]; the
      values the scripts store are [None], integers and strings.
    - A Python exception is the [Raise] alternative of [result].
    - The file system, the HTTP server and config.json are inputs of the
      functions that read them. *)

From Stdlib Require Import ZArith Lia Bool Sorting.Sorted Sorting.Permutation.
From Stdlib Require Import Strings.String Strings.Ascii Numbers.DecimalString.
From stdpp Require Import gmap strings list fin_maps.

Local Open Scope Z_scope.

(* stdpp blocks [simpl] on string append; the proofs below unfold it. *)
#[local] Arguments String.append : simpl nomatch.

(* ===================================================================== *)
(** ** Python string primitives                                          *)
(* ===================================================================== *)

Module PyStr.

(** Code point of a character. *)
Definition ord (c : ascii) : N := N_of_ascii c.

(** [str.lower] on one code point below 256: A-Z, and the Latin-1 capitals
    U+00C0..U+00DE except the multiplication sign U+00D7. *)
Definition lower_char (c : ascii) : ascii :=
  let n := ord c in
  if ((65 <=? n) && (n <=? 90))%N
     || ((192 <=? n) && (n <=? 222) && negb (n =? 215))%N
  then ascii_of_N (n + 32) else c.

(** [s.lower()] *)
Fixpoint lower (s : string) : string :=
  match s with
  | EmptyString => EmptyString
  | String c s' => String (lower_char c) (lower s')
  end.

(** [s.startswith(p)] *)
Fixpoint startswith (p s : string) : bool :=
  match p, s with
  | EmptyString, _ => true
  | String a p', String b s' => Ascii.eqb a b && startswith p' s'
  | String _ _, EmptyString => false
  end.

(** [s[n:]] for [0 <= n] *)
Fixpoint drop (n : nat) (s : string) : string :=
  match n, s with
  | O, _ => s
  | S n', String _ s' => drop n' s'
  | S _, EmptyString => EmptyString
  end.

(** [s[:n]] for [0 <= n] *)
Fixpoint take (n : nat) (s : string) : string :=
  match n, s with
  | O, _ => EmptyString
  | S n', String c s' => String c (take n' s')
  | S _, EmptyString => EmptyString
  end.

(** [s[:-n]] for [0 < n] *)
Definition drop_end (n : nat) (s : string) : string :=
  take (String.length s - n) s.

(** [s.endswith(suf)] *)
Definition endswith (suf s : string) : bool :=
  (String.length suf <=? String.length s)%nat
  && String.eqb (drop (String.length s - String.length suf) s) suf.

(** [sub in s] *)
Fixpoint contains (sub s : string) : bool :=
  startswith sub s ||
  match s with
  | EmptyString => false
  | String _ s' => contains sub s'
  end.

(** Scan for [s.count(sub)] with [sub] non-empty: [skip] is the number of
    characters still covered by the occurrence found last, over which no
    new occurrence may start. *)
Fixpoint count_from (sub : string) (skip : nat) (s : string) : Z :=
  match s with
  | EmptyString => 0
  | String _ s' =>
      match skip with
      | S k => count_from sub k s'
      | O => if startswith sub s
             then 1 + count_from sub (String.length sub - 1) s'
             else count_from sub 0 s'
      end
  end.

(** [s.count(sub)]: the number of non-overlapping occurrences, scanning
    from the left; the empty string occurs [len(s) + 1] times. *)
Definition count (sub s : string) : Z :=
  match sub with
  | EmptyString => Z.of_nat (String.length s) + 1
  | _ => count_from sub 0 s
  end.

(** Scan for [s.replace(old, new)] with [old] non-empty. *)
Fixpoint replace_from (old new : string) (skip : nat) (s : string) : string :=
  match s with
  | EmptyString => EmptyString
  | String c s' =>
      match skip with
      | S k => replace_from old new k s'
      | O => if startswith old s
             then new +:+ replace_from old new (String.length old - 1) s'
             else String c (replace_from old new 0 s')
      end
  end.

Fixpoint intersperse (new s : string) : string :=
  match s with
  | EmptyString => new
  | String c s' => new +:+ String c (intersperse new s')
  end.

(** [s.replace(old, new)]; with an empty [old], [new] is put before every
    character and at the end. *)
Definition replace (old new s : string) : string :=
  match old with
  | EmptyString => intersperse new s
  | _ => replace_from old new 0 s
  end.

(** [s.split(sep)] for a one-character separator, the only kind the
    scripts use.  The result is never empty. *)
Fixpoint split (sep : ascii) (s : string) : list string :=
  match s with
  | EmptyString => [EmptyString]
  | String c s' =>
      if Ascii.eqb c sep then EmptyString :: split sep s'
      else match split sep s' with
           | [] => [String c EmptyString]
           | w :: ws => String c w :: ws
           end
  end.

(** [sep.join(l)] *)
Fixpoint join (sep : string) (l : list string) : string :=
  match l with
  | [] => EmptyString
  | [w] => w
  | w :: ws => w +:+ sep +:+ join sep ws
  end.

(** [l[-1]] on the result of a split (never empty). *)
Definition last_part (l : list string) : string := List.last l EmptyString.

(** [l[0]] on the result of a split (never empty). *)
Definition first_part (l : list string) : string := List.hd EmptyString l.

(** Unicode white space below U+0100, as [str.strip] sees it. *)
Definition is_space (c : ascii) : bool :=
  let n := ord c in
  (((9 <=? n) && (n <=? 13)) || ((28 <=? n) && (n <=? 32))
   || (n =? 133) || (n =? 160))%N.

Fixpoint lstrip (s : string) : string :=
  match s with
  | EmptyString => EmptyString
  | String c s' => if is_space c then lstrip s' else s
  end.

Fixpoint rstrip (s : string) : string :=
  match s with
  | EmptyString => EmptyString
  | String c s' =>
      match rstrip s' with
      | EmptyString => if is_space c then EmptyString else String c EmptyString
      | r => String c r
      end
  end.

(** [s.strip()] *)
Definition strip (s : string) : string := rstrip (lstrip s).

(** [s[1:-1]] *)
Definition inner (s : string) : string := drop 1 (take (String.length s - 1) s).

(** [str(n)] for an integer. *)
Definition str_of_Z (z : Z) : string := NilEmpty.string_of_int (Z.to_int z).

End PyStr.

(* ===================================================================== *)
(** ** Python values, dictionaries and exceptions                        *)
(* ===================================================================== *)

(** The values the scripts keep in their dictionaries. *)
Inductive pyval : Type :=
| VNone
| VInt (z : Z)
| VStr (s : string).

Inductive exn : Type :=
| KeyError
| TypeError
| AttributeError
| ValueError.

Inductive result (A : Type) : Type :=
| Ok (a : A)
| Raise (e : exn).
Arguments Ok {A} a.
Arguments Raise {A} e.

Definition bind {A B} (r : result A) (k : A -> result B) : result B :=
  match r with
  | Ok a => k a
  | Raise e => Raise e
  end.

Notation "'let!' x ':=' r 'in' k" := (bind r (fun x => k))
  (at level 10, x name, r at level 100, k at level 200).

(** Truth value of [v] in a condition. *)
Definition truthy (v : pyval) : bool :=
  match v with
  | VNone => false
  | VInt z => negb (z =? 0)
  | VStr s => negb (String.eqb s EmptyString)
  end.

(** [d[k]] *)
Definition getitem (d : gmap string pyval) (k : string) : result pyval :=
  match d !! k with
  | Some v => Ok v
  | None => Raise KeyError
  end.

(** [a + b] on the values at hand. *)
Definition py_add (a b : pyval) : result pyval :=
  match a, b with
  | VInt x, VInt y => Ok (VInt (x + y))
  | VStr x, VStr y => Ok (VStr (x +:+ y))
  | _, _ => Raise TypeError
  end.

(** [f"{v}"] *)
Definition show (v : pyval) : string :=
  match v with
  | VNone => "None"
  | VInt z => PyStr.str_of_Z z
  | VStr s => s
  end.

(** The characters that cannot be written inside a string literal. *)
Definition bslash : string := String (ascii_of_nat 92) EmptyString.
Definition dquote : string := String (ascii_of_nat 34) EmptyString.
Definition newline : string := String (ascii_of_nat 10) EmptyString.
Definition cr : string := String (ascii_of_nat 13) EmptyString.

(* ===================================================================== *)
(** ** config.json                                                       *)
(* ===================================================================== *)

(** The options of config.json that the modelled functions read. *)
Record settings : Type := {
  folder : string;            (* SETTINGS["folder"] *)
  words : list string;        (* SETTINGS["words"] *)
  filetypes : list string;    (* SETTINGS["filetypes"] *)
  username : string;          (* SETTINGS["username"] *)
  PAT : string                (* SETTINGS["PAT"] *)
}.

(* ===================================================================== *)
(** ** os.path                                                           *)
(* ===================================================================== *)

Module OsPath.

(** The two implementations of os.path. *)
Inductive flavour : Type := Posix | Nt.

Definition sep (fl : flavour) : string :=
  match fl with Posix => "/" | Nt => bslash end.

Definition last_char (s : string) : option ascii :=
  String.get (String.length s - 1) s.

Definition is_sep (fl : flavour) (c : ascii) : bool :=
  match fl with
  | Posix => Ascii.eqb c "/"
  | Nt => Ascii.eqb c "/" || Ascii.eqb c (ascii_of_nat 92)
  end.

Definition ends_with_sep (fl : flavour) (s : string) : bool :=
  match last_char s with
  | Some c => is_sep fl c
  | None => false
  end.

(** ntpath.splitdrive for a drive letter ([C:]); UNC shares are not
    modelled. *)
Definition splitdrive (fl : flavour) (p : string) : string * string :=
  match fl, p with
  | Nt, String a (String ":" rest) => (String a (String ":" EmptyString), rest)
  | _, _ => (EmptyString, p)
  end.

(** [os.path.join(a, b)] where [b] is a relative name without drive, as
    are the names of a directory listing and the literal
    [.git\refs\heads]. *)
Definition join (fl : flavour) (a b : string) : string :=
  let '(drive, path) := splitdrive fl a in
  if String.eqb path EmptyString || ends_with_sep fl path
  then drive +:+ path +:+ b
  else drive +:+ path +:+ sep fl +:+ b.

(** Index of the last ["."] of [s], if any. *)
Fixpoint rfind_dot (s : string) : option nat :=
  match s with
  | EmptyString => None
  | String c s' =>
      match rfind_dot s' with
      | Some i => Some (S i)
      | None => if Ascii.eqb c "." then Some O else None
      end
  end.

(** Are the first [n] characters of [s] all dots? *)
Fixpoint all_dots (n : nat) (s : string) : bool :=
  match n, s with
  | O, _ => true
  | S n', String c s' => Ascii.eqb c "." && all_dots n' s'
  | S _, EmptyString => true
  end.

(** [os.path.splitext(name)] for a bare file name (no separator): the
    extension starts at the last dot, unless only dots come before it. *)
Definition splitext (name : string) : string * string :=
  match rfind_dot name with
  | Some i =>
      if all_dots i name then (name, EmptyString)
      else (PyStr.take i name, PyStr.drop i name)
  | None => (name, EmptyString)
  end.

End OsPath.

(* ===================================================================== *)
(** ** utils.py                                                          *)
(* ===================================================================== *)

Module Utils.

Import PyStr.

(** *** file_url *)

(** [file_url(filename)]: the first 15 characters of the normalised path
    are dropped, whatever the configured folder is. *)
Definition file_url (filename : string) : string :=
  let gh_path := drop 15 (replace bslash "/" filename) in
  let url :=
    "https://github.com/"
    +:+ join "/" (firstn 2 (split "/" gh_path))
    +:+ "/blob/master/"
    +:+ join "/" (skipn 2 (split "/" gh_path)) in
  if endswith "/blob/master/" url then drop_end 13 url else url.

(** *** github_pagination *)

(** What the function needs of a Requests response object. *)
Record response (A : Type) : Type := {
  status_code : Z;
  text_len : Z;                          (* len(response.text) *)
  json : result (list A);                (* json.loads(response.text), as
                                            payload.extend iterates it *)
  link : option string;                  (* response.headers["Link"] *)
  x_ratelimit_limit : option string;     (* headers["X-RateLimit-Limit"] *)
  x_ratelimit_remaining : option string  (* headers["X-RateLimit-Remaining"] *)
}.
Arguments status_code {A} _.
Arguments text_len {A} _.
Arguments json {A} _.
Arguments link {A} _.
Arguments x_ratelimit_limit {A} _.
Arguments x_ratelimit_remaining {A} _.

(** [response.ok]: no 4xx or 5xx status. *)
Definition ok {A} (r : response A) : bool :=
  negb ((400 <=? status_code r) && (status_code r <? 600)).

Definition retval0 : gmap string pyval :=
  <["lastURL" := VNone]> (<["lastpage" := VInt 0]> (
  <["nextURL" := VNone]> (<["nextpage" := VInt 0]> (
  <["prevURL" := VNone]> (<["prevpage" := VInt 0]> (
  <["firstURL" := VNone]> (<["firstpage" := VInt 0]> ∅))))))).

(** The three values parsed from one entry of the header. *)
Definition linktype_of (link : string) : string :=
  inner (strip (last_part (split "=" (last_part (split ";" link))))).

Definition url_of (link : string) : string :=
  inner (strip (first_part (split ";" link))).

Definition pageno_of (url : string) : string :=
  strip (last_part (split "=" (last_part (split "?" url)))).

(** One turn of [for link in links]. *)
Definition store_link (retval : gmap string pyval) (link : string)
  : gmap string pyval :=
  let linktype := linktype_of link in
  let url := url_of link in
  let pageno := pageno_of url in
  <[linktype +:+ "URL" := VStr url]> (<[linktype +:+ "page" := VStr pageno]> retval).

(** [github_pagination(link_header)] for a header string. *)
Definition github_pagination_str (link_string : string) : gmap string pyval :=
  fold_left store_link (split "," link_string) retval0.

(** [github_pagination(response)]. *)
Definition github_pagination {A} (r : response A) : gmap string pyval :=
  match link r with
  | Some link_string => github_pagination_str link_string
  | None => retval0
  end.

(** *** github_rest_api *)

(** [int(s)] for a header value.  White space is skipped at both ends:
    the ASCII white space and, of the other code points below U+0100,
    U+0085 and U+00A0, but not U+001C..U+001F, which [str.strip] removes
    and [int] rejects.  Then come an optional sign and decimal digits, a
    single underscore allowed between two digits.  More digits than
    [sys.int_info.default_max_str_digits] are refused.  [None] is
    ValueError. *)
Definition int_space (c : ascii) : bool :=
  let n := ord c in
  (((9 <=? n) && (n <=? 13)) || (n =? 32) || (n =? 133) || (n =? 160))%N.

Fixpoint int_lstrip (s : string) : string :=
  match s with
  | EmptyString => EmptyString
  | String c s' => if int_space c then int_lstrip s' else s
  end.

Fixpoint int_rstrip (s : string) : string :=
  match s with
  | EmptyString => EmptyString
  | String c s' =>
      match int_rstrip s' with
      | EmptyString => if int_space c then EmptyString else String c EmptyString
      | r => String c r
      end
  end.

Definition digit_of (c : ascii) : option Z :=
  let n := ord c in
  if ((48 <=? n) && (n <=? 57))%N then Some (Z.of_N n - 48) else None.

Fixpoint digits (acc : Z) (after_digit : bool) (s : string) : option Z :=
  match s with
  | EmptyString => if after_digit then Some acc else None
  | String c s' =>
      match digit_of c with
      | Some d => digits (10 * acc + d) true s'
      | None => if Ascii.eqb c "_" && after_digit then digits acc false s'
                else None
      end
  end.

Definition max_str_digits : N := 4300.

Fixpoint count_digits (s : string) : N :=
  match s with
  | EmptyString => 0
  | String c s' =>
      ((match digit_of c with Some _ => 1 | None => 0 end) + count_digits s')%N
  end.

Definition py_int (s : string) : option Z :=
  let t := int_rstrip (int_lstrip s) in
  if (max_str_digits <? count_digits t)%N then None
  else
    match t with
    | String "-" r => Z.opp <$> digits 0 false r
    | String "+" r => digits 0 false r
    | _ => digits 0 false t
    end.

(** A Requests session, as far as the client touches it. *)
Record session : Type := { sess_auth : option (string * string) }.

(** [requests.session()] *)
Definition new_session : session := {| sess_auth := None |}.

(** The state object threaded through the calls. *)
Record State : Type := {
  verbose : bool;
  requests_session : option session;
  last_ratelimit : Z;
  last_remaining : Z
}.

Definition set_session (s : session) (st : State) : State :=
  {| verbose := verbose st; requests_session := Some s;
     last_ratelimit := last_ratelimit st; last_remaining := last_remaining st |}.

Definition set_ratelimit (z : Z) (st : State) : State :=
  {| verbose := verbose st; requests_session := requests_session st;
     last_ratelimit := z; last_remaining := last_remaining st |}.

Definition set_remaining (z : Z) (st : State) : State :=
  {| verbose := verbose st; requests_session := requests_session st;
     last_ratelimit := last_ratelimit st; last_remaining := z |}.

(** [state and state.verbose] *)
Definition is_verbose (state : option State) : bool :=
  match state with
  | Some st => verbose st
  | None => false
  end.

(** What [sess.get] sends. *)
Record request : Type := {
  req_url : string;
  req_auth : string * string;
  req_headers : gmap string string
}.

(** The outcome of a call: what was printed, the state object afterwards,
    and the value returned or the exception raised. *)
Definition outcome (A : Type) : Type := (list string * option State * result A)%type.

Section Client.

Context {A : Type}.
Variable cfg : settings.                      (* config.json *)
Variable server : request -> response A.      (* the GitHub API *)

(** The session used for the call and the state object once the session
    is stored in it and carries the credentials. *)
Definition pick_session (auth : string * string) (state : option State)
    (sess_arg : option session) : option State :=
  match sess_arg with
  | Some _ => state
  | None =>
      match state with
      | Some st => Some (set_session {| sess_auth := Some auth |} st)
      | None => None
      end
  end.

(** The try/except around the two rate-limit headers. *)
Definition update_ratelimit (r : response A) (st : State) : State * result unit :=
  match x_ratelimit_limit r with
  | None => (set_remaining 999999 (set_ratelimit 999999 st), Ok tt)
  | Some t1 =>
      match py_int t1 with
      | None => (st, Raise ValueError)
      | Some v1 =>
          let st1 := set_ratelimit v1 st in
          match x_ratelimit_remaining r with
          | None => (set_remaining 999999 (set_ratelimit 999999 st1), Ok tt)
          | Some t2 =>
              match py_int t2 with
              | None => (st1, Raise ValueError)
              | Some v2 => (set_remaining v2 st1, Ok tt)
              end
          end
      end
  end.

Definition ratelimit_line (st : State) (user : string) : string :=
  "  Rate Limit: " +:+ str_of_Z (last_remaining st) +:+ " available, "
  +:+ str_of_Z (last_ratelimit st - last_remaining st) +:+ " used, "
  +:+ str_of_Z (last_ratelimit st) +:+ " total for " +:+ user +:+ newline.

(** [github_rest_api(endpoint=..., auth=..., headers=..., state=...,
    session=...)]. *)
Definition github_rest_api (endpoint : pyval) (auth : option (string * string))
    (headers : gmap string string) (state : option State)
    (sess_arg : option session) : outcome (option (response A)) :=
  let out0 := [cr +:+ "GitHub API called: " +:+ show endpoint] in
  if negb (truthy endpoint) then
    (out0 ++ ["ERROR: github_api() called with no endpoint" +:+ newline], state, Ok None)
  else
    let auth := match auth with
                | Some a => a
                | None => (username cfg, PAT cfg)
                end in
    let headers_dict := headers ∪ {["Accept" := "application/vnd.github.v3+json"]} in
    let state1 := pick_session auth state sess_arg in
    match endpoint with
    | VStr e =>
        let full_endpoint :=
          if startswith "/" e then "https://api.github.com" +:+ e else e in
        let r := server {| req_url := full_endpoint; req_auth := auth;
                           req_headers := headers_dict |} in
        let out1 := if is_verbose state1
                    then out0 ++ ["    Endpoint: " +:+ e +:+ newline] else out0 in
        match state1 with
        | None => (out1, None, Ok (Some r))
        | Some st =>
            match update_ratelimit r st with
            | (st', Raise x) => (out1, Some st', Raise x)
            | (st', Ok _) =>
                ((if verbose st' then out1 ++ [ratelimit_line st' (fst auth)] else out1),
                 Some st', Ok (Some r))
            end
        end
    | _ => (out0, state1, Raise TypeError)   (* endpoint[0] on a number *)
    end.

(** *** github_allpages *)

Definition status_lines (endpoint : pyval) (r : response A) : list string :=
  [">>> endpoint: " +:+ show endpoint +:+ newline;
   "      Status: <Response [" +:+ str_of_Z (status_code r) +:+ "]>, "
   +:+ str_of_Z (text_len r) +:+ " bytes returned" +:+ newline].

(** The [while True] loop; [fuel] bounds the number of turns and [None]
    means the bound was reached. *)
Fixpoint allpages_loop (fuel : nat) (endpoint : pyval)
    (auth : option (string * string)) (headers : gmap string string)
    (sess_arg : option session) (payload : list A) (page_endpoint : pyval)
    (state : option State) (out : list string) : option (outcome (list A)) :=
  match fuel with
  | O => None
  | S fuel' =>
      match github_rest_api page_endpoint auth headers state sess_arg with
      | (out1, state1, Raise x) => Some (out ++ out1, state1, Raise x)
      | (out1, state1, Ok None) =>
          (* response.status_code, or response.text, on None *)
          if is_verbose state1
          then Some (out ++ out1 ++ [">>> endpoint: " +:+ show endpoint +:+ newline],
                     state1, Raise AttributeError)
          else Some (out ++ out1, state1, Raise AttributeError)
      | (out1, state1, Ok (Some r)) =>
          let out2 :=
            if is_verbose state1 || negb (status_code r =? 200)
            then out ++ out1 ++ status_lines endpoint r else out ++ out1 in
          match (if ok r then json r else Ok []) with
          | Raise x => Some (out2, state1, Raise x)
          | Ok thispage =>
              let payload' := payload ++ thispage in
              match getitem (github_pagination r) "nextURL" with
              | Raise x => Some (out2, state1, Raise x)
              | Ok next =>
                  if truthy next
                  then allpages_loop fuel' endpoint auth headers sess_arg
                         payload' next state1 out2
                  else Some (out2, state1, Ok payload')
              end
          end
      end
  end.

(** [github_allpages(endpoint, auth, headers, state, session)]. *)
Definition github_allpages (fuel : nat) (endpoint : pyval)
    (auth : option (string * string)) (headers : gmap string string)
    (state : option State) (sess_arg : option session)
  : option (outcome (list A)) :=
  allpages_loop fuel endpoint auth headers sess_arg [] endpoint state [].

End Client.

(** *** latest_commit *)

(** What [latest_commit] reads of the file system. *)
Record filesys : Type := {
  (* the file names next(os.walk(d))[2] lists for directory [d]; [None]
     when os.walk yields nothing because [d] is no directory *)
  files_of : string -> option (list string);
  (* open(path).read() *)
  read_text : string -> string
}.

Definition heads_dir (fl : OsPath.flavour) (folder : string) : string :=
  OsPath.join fl folder (".git" +:+ bslash +:+ "refs" +:+ bslash +:+ "heads").

(** [latest_commit(folder)] *)
Definition latest_commit (fl : OsPath.flavour) (fs : filesys) (folder : string)
  : string * string :=
  let git_heads_folder := heads_dir fl folder in
  match files_of fs git_heads_folder with
  | Some (default_branch :: _) =>
      (default_branch,
       strip (read_text fs (OsPath.join fl git_heads_folder default_branch)))
  | _ => (EmptyString, EmptyString)
  end.

End Utils.

(* ===================================================================== *)
(** ** clone_orgs.py                                                     *)
(* ===================================================================== *)

Module CloneOrgs.

(** The fields of a repository object of the API that [repolist] reads. *)
Record repo : Type := {
  name : string;
  size : Z;
  private : bool;
  fork : bool
}.

(** [a < b] on [(str, int)] tuples: names first, sizes on equal names. *)
Definition tuple_lt (a b : string * Z) : bool :=
  String.ltb (fst a) (fst b)
  || (String.eqb (fst a) (fst b) && (snd a <? snd b)).

(** [sorted] is stable and compares with [<] only: an element goes in
    front of the first one that is not smaller than it. *)
Fixpoint insert_sorted (x : string * Z) (l : list (string * Z))
  : list (string * Z) :=
  match l with
  | [] => [x]
  | y :: l' => if tuple_lt y x then y :: insert_sorted x l' else x :: l
  end.

Definition sorted (l : list (string * Z)) : list (string * Z) :=
  fold_right insert_sorted [] l.

(** The list comprehension of [repolist]. *)
Definition public_repos (repodata : list repo) : list (string * Z) :=
  map (fun r => (PyStr.lower (name r), size r))
      (filter (fun r => negb (private r) && negb (fork r) = true) repodata).

(** The value [repolist] returns for the listing [repodata], which is read
    from the cache file or fetched with [github_allpages]. *)
Definition repolist (repodata : list repo) : list (string * Z) :=
  sorted (public_repos repodata).

End CloneOrgs.

(* ===================================================================== *)
(** ** search.py                                                         *)
(* ===================================================================== *)

Module Search.

Import PyStr.

(** *** The directory tree and os.walk *)

(** A directory: its name, its files (name and decoded text) and its
    sub-directories, in the order the operating system lists them. *)
#[warnings="-register-all"]
Inductive tree : Type :=
| Dir (dname : string) (files : list (string * string)) (subdirs : list tree).

Definition dname (t : tree) : string :=
  match t with Dir n _ _ => n end.

(** One [(root, dirs, files)] triple of os.walk. *)
Record visit : Type := {
  v_root : string;
  v_dirs : list string;
  v_files : list (string * string)
}.

Definition vendor_marker : string := bslash +:+ "vendor" +:+ bslash.

(** [if "\\vendor\\" in root: continue] *)
Definition skipped (root : string) : bool := contains vendor_marker root.

(** [os.walk(top)], top-down.  The loop body of [search_repos] edits the
    yielded [dirs] in place, which is how it steers the generator: unless
    the body leaves early on a vendored root, the first [.git] and the
    first [.github] are removed before os.walk descends.  The two flags
    say whether that removal is still due. *)
Fixpoint walk (fl : OsPath.flavour) (root : string) (t : tree) : list visit :=
  match t with
  | Dir _ files subdirs =>
      {| v_root := root; v_dirs := map dname subdirs; v_files := files |}
      :: (fix descend (git github : bool) (ds : list tree) : list visit :=
            match ds with
            | [] => []
            | d :: ds' =>
                if git && String.eqb (dname d) ".git" then descend false github ds'
                else if github && String.eqb (dname d) ".github"
                     then descend git false ds'
                     else walk fl (OsPath.join fl root (dname d)) d
                          ++ descend git github ds'
            end) (negb (skipped root)) (negb (skipped root)) subdirs
  end.

Section Scan.

Variable cfg : settings.           (* SETTINGS *)
Variable fl : OsPath.flavour.
Variable fs : Utils.filesys.       (* read by latest_commit *)

(** [d[k] += v] *)
Definition iadd (d : gmap string pyval) (k : string) (v : pyval)
  : result (gmap string pyval) :=
  let! a := getitem d k in
  let! s := py_add a v in
  Ok (<[k := s]> d).

(** [empty_repo_totals()] *)
Definition empty_repo_totals : gmap string pyval :=
  fold_left (fun temp word => <[word := VInt 0]> temp) (words cfg)
            (<["*TOTAL*" := VInt 0]> (<["folder" := VStr EmptyString]> ∅)).

(** [repo_folder(folder_path)] *)
Definition repo_folder (folder_path : string) : bool :=
  let sub_path := replace (folder cfg) EmptyString folder_path in
  let sub_path := replace bslash "/" sub_path in
  count "/" sub_path =? 2.

(** One turn of the loop of [search_file]. *)
Definition count_word (file_content : string)
    (hit_counts : result (gmap string pyval)) (searchfor : string)
  : result (gmap string pyval) :=
  let! h := hit_counts in
  let matches := count (lower searchfor) file_content in
  iadd (<[searchfor := VInt matches]> h) "*TOTAL*" (VInt matches).

(** [search_file(filename)], for a file whose decoded text is [text]. *)
Definition search_file (filename text : string) : result (gmap string pyval) :=
  fold_left (count_word (lower text)) (words cfg)
            (Ok (<["*TOTAL*" := VInt 0]> (<["filename" := VStr filename]> ∅))).

(** [file_url(v)]: a number has no [replace]. *)
Definition file_url_of (v : pyval) : result string :=
  match v with
  | VStr s => Ok (Utils.file_url s)
  | _ => Raise AttributeError
  end.

(** [for word in SETTINGS["words"]: line += f",{data[word]}"] *)
Definition add_columns (data : gmap string pyval) (line : string) : result string :=
  fold_left (fun acc word =>
               let! l := acc in
               let! v := getitem data word in
               Ok (l +:+ "," +:+ show v))
            (words cfg) (Ok line).

(** [write_matches(file, data)]: the file is the list of the strings
    written to it. *)
Definition write_matches (file : list string) (data : gmap string pyval)
  : result (list string) :=
  let! f := getitem data "filename" in
  let! line := file_url_of f in
  let! line := add_columns data line in
  let! t := getitem data "*TOTAL*" in
  Ok (file ++ [line +:+ "," +:+ show t +:+ newline]).

(** [latest_commit(v)]: os.path.join rejects a number. *)
Definition latest_commit_of (v : pyval) : result (string * string) :=
  match v with
  | VStr s => Ok (Utils.latest_commit fl fs s)
  | _ => Raise TypeError
  end.

(** [data["*TOTAL*"] == 0] *)
Definition is_zero (v : pyval) : bool :=
  match v with
  | VInt z => z =? 0
  | _ => false
  end.

(** [write_repo(file, data)] *)
Definition write_repo (file : list string) (data : gmap string pyval)
  : result (list string) :=
  let! t := getitem data "*TOTAL*" in
  if is_zero t then Ok file
  else
    let! f := getitem data "folder" in
    let! bc := latest_commit_of f in
    let! line := file_url_of f in
    let! line := add_columns data line in
    Ok (file ++ [line +:+ "," +:+ show t +:+ "," +:+ fst bc +:+ "," +:+ snd bc
                 +:+ newline]).

(** [hits["*TOTAL*"] > 0] *)
Definition positive (v : pyval) : result bool :=
  match v with
  | VInt z => Ok (0 <? z)
  | _ => Raise TypeError
  end.

(** The state of the loop of [search_repos]. *)
Record run : Type := {
  repo_totals : gmap string pyval;
  matches_file : list string;
  repos_file : list string
}.

(** [for word in SETTINGS["words"]: repo_totals[word] += hits[word]] *)
Definition add_hits (totals hits : gmap string pyval)
  : result (gmap string pyval) :=
  fold_left (fun acc word =>
               let! t := acc in
               let! h := getitem hits word in
               iadd t word h)
            (words cfg) (Ok totals).

(** The body of [for filename in files]. *)
Definition scan_file (root : string) (st : result run) (file : string * string)
  : result run :=
  let! s := st in
  let filename := fst file in
  let extension := snd (OsPath.splitext filename) in
  if existsb (String.eqb (lower extension)) (filetypes cfg) then
    let fullname := OsPath.join fl root filename in
    let! hits := search_file fullname (snd file) in
    let! total := getitem hits "*TOTAL*" in
    let! pos := positive total in
    if pos then
      let! m := write_matches (matches_file s) hits in
      let! t := add_hits (repo_totals s) hits in
      let! t := iadd t "*TOTAL*" total in
      Ok {| repo_totals := t; matches_file := m; repos_file := repos_file s |}
    else Ok s
  else Ok s.

(** [if repo_folder(root): ...] *)
Definition open_repo (root : string) (s : run) : result run :=
  if repo_folder root then
    let! f := getitem (repo_totals s) "folder" in
    let! r := (if truthy f then write_repo (repos_file s) (repo_totals s)
               else Ok (repos_file s)) in
    Ok {| repo_totals := <["folder" := VStr root]> empty_repo_totals;
          matches_file := matches_file s; repos_file := r |}
  else Ok s.

(** The body of [for root, dirs, files in os.walk(...)]; the removal of
    [.git] and [.github] from [dirs] is part of [walk]. *)
Definition visit_dir (st : result run) (v : visit) : result run :=
  let! s := st in
  if skipped (v_root v) then Ok s
  else fold_left (scan_file (v_root v)) (v_files v) (open_repo (v_root v) s).

Definition header (tail : string) : string :=
  "url," +:+ join "," (words cfg) +:+ tail +:+ newline.

Definition start : run :=
  {| repo_totals := empty_repo_totals;
     matches_file := [header ",total"];
     repos_file := [header ",total,branch,last_commit"] |}.

(** The loop of [search_repos] over the triples [vs], and the final
    [write_repo]: the contents of matches.csv and repos.csv. *)
Definition search_visits (vs : list visit) : result (list string * list string) :=
  let! s := fold_left visit_dir vs (Ok start) in
  let! r := write_repo (repos_file s) (repo_totals s) in
  Ok (matches_file s, r).

(** [search_repos()] when the cache folder holds the tree [t]. *)
Definition search_repos (t : tree) : result (list string * list string) :=
  search_visits (walk fl (folder cfg) t).

End Scan.

End Search.

(* ===================================================================== *)
(** ** repo_filter.py                                                    *)
(* ===================================================================== *)

Module RepoFilter.

Import PyStr.

(** How [main] ends: with the rows written to the output file, or with
    an IndexError after the rows written until then. *)
Inductive outcome : Type :=
| Written (rows : list (list string))
| IndexError (rows : list (list string)).

(** The list comprehension over repos.json, whose entries are given by
    their ["repo"] fields: the condition is evaluated first, then
    [repo["repo"].lower().split("/")[1]]; [None] is IndexError. *)
Fixpoint allowed_repos (repo_data : list string) : option (list string) :=
  match repo_data with
  | [] => Some []
  | r :: rest =>
      if String.eqb (lower (first_part (split "/" r))) "googleapis"
      then match nth_error (split "/" (lower r)) 1 with
           | Some name =>
               match allowed_repos rest with
               | Some names => Some (name :: names)
               | None => None
               end
           | None => None
           end
      else allowed_repos rest
  end.

(** The loop over the rows of the input file; [out] holds the rows
    written so far. *)
Fixpoint filter_rows (repos : list string) (rows out : list (list string))
  : outcome :=
  match rows with
  | [] => Written out
  | row :: rest =>
      match row with
      | [] => IndexError out                              (* row[0] *)
      | url :: _ =>
          if String.eqb url "url" then filter_rows repos rest (out ++ [row])
          else
            let url_parts := split "/" url in
            match nth_error url_parts 3, nth_error url_parts 4 with
            | Some org, Some repo =>
                if String.eqb (lower org) "googleapis" then
                  if existsb (String.eqb (lower repo)) repos
                  then filter_rows repos rest (out ++ [row])
                  else filter_rows repos rest out
                else filter_rows repos rest (out ++ [row])
            | _, _ => IndexError out                      (* url_parts[3], [4] *)
            end
      end
  end.

(** [main(input_csv, output_csv)], for the ["repo"] fields of the entries
    of repos.json and the rows that [csv.reader] yields; the list
    comprehension comes first, and its IndexError leaves the output file
    unopened. *)
Definition main (repo_data : list string) (rows : list (list string)) : outcome :=
  match allowed_repos repo_data with
  | Some repos => filter_rows repos rows []
  | None => IndexError []
  end.

End RepoFilter.

(* ===================================================================== *)
(** ** Inputs and reference definitions used by the statements           *)
(* ===================================================================== *)

(** Does the character occur in the string? *)
Fixpoint mem (c : ascii) (s : string) : bool :=
  match s with
  | EmptyString => false
  | String a s' => Ascii.eqb a c || mem c s'
  end.

Module LinkHeader.

(** An entry of an RFC 5988 [Link] header as GitHub sends it:
    [<base?k1=v1&...&kn=vn>; rel="name"]. *)
Record link_entry : Type := {
  le_base : string;
  le_params : list (string * string);
  le_last : string * string;          (* the last query parameter *)
  le_rel : string
}.

Definition render_param (p : string * string) : string :=
  fst p +:+ "=" +:+ snd p.

Definition query (e : link_entry) : string :=
  PyStr.join "&" (map render_param (le_params e ++ [le_last e])).

Definition render_url (e : link_entry) : string :=
  le_base e +:+ "?" +:+ query e.

Definition render_link (e : link_entry) : string :=
  "<" +:+ render_url e +:+ ">; rel=" +:+ dquote +:+ le_rel e +:+ dquote.

(** The entries are separated by a comma and a blank. *)
Definition render_header (es : list link_entry) : string :=
  PyStr.join ", " (map render_link es).

(** The characters that delimit the parts of the header occur only as
    delimiters. *)
Definition wf_entry (e : link_entry) : Prop :=
  mem "," (render_url e) = false /\ mem ";" (render_url e) = false
  /\ mem "," (le_rel e) = false /\ mem ";" (le_rel e) = false
  /\ mem "=" (le_rel e) = false
  /\ mem "=" (snd (le_last e)) = false /\ mem "?" (snd (le_last e)) = false.

(** What the parser reads out of the text of one entry. *)
Definition parsed (link : string) (e : link_entry) : Prop :=
  Utils.linktype_of link = le_rel e
  /\ Utils.url_of link = render_url e
  /\ Utils.pageno_of (Utils.url_of link) = PyStr.strip (snd (le_last e)).

(** Sample entries: the header of GitHub's documentation, with [page]
    in front of [per_page], and two entries with [page] at the end. *)
Definition next_entry : link_entry :=
  {| le_base := "https://api.github.com/user/repos";
     le_params := [("page", "3")];
     le_last := ("per_page", "100");
     le_rel := "next" |}.

Definition docs_last_entry : link_entry :=
  {| le_base := "https://api.github.com/user/repos";
     le_params := [("page", "50")];
     le_last := ("per_page", "100");
     le_rel := "last" |}.

Definition docs_header : string := render_header [next_entry; docs_last_entry].

Definition prev_entry : link_entry :=
  {| le_base := "https://api.github.com/user/repos";
     le_params := [("per_page", "100")];
     le_last := ("page", "1");
     le_rel := "prev" |}.

Definition last_entry : link_entry :=
  {| le_base := "https://api.github.com/user/repos";
     le_params := [("per_page", "100")];
     le_last := ("page", "50");
     le_rel := "last" |}.

End LinkHeader.

Module Heads.

Import Utils.

(** A clone with two local branches. *)
Definition two_heads : filesys :=
  {| files_of := fun d =>
       if String.eqb d "C:\cache\org\repo\.git\refs\heads"
       then Some ["dev"; "main"] else None;
     read_text := fun p =>
       if String.eqb p "C:\cache\org\repo\.git\refs\heads\dev"
       then "0a1b2c" +:+ newline else "ffffff" +:+ newline |}.

(** A path that ends in the name of a folder: its last character is
    neither a separator nor the colon of a drive. *)
Definition ends_in_name (folder : string) : Prop :=
  exists stem c,
    folder = stem +:+ String c EmptyString
    /\ c <> "/"%char /\ c <> ascii_of_nat 92 /\ c <> ":"%char.

(** The heads directory of the clone at [folder], and the file of a
    branch in it, as Windows paths. *)
Definition clone_heads (folder : string) : string :=
  folder +:+ bslash +:+ ".git" +:+ bslash +:+ "refs" +:+ bslash +:+ "heads".

Definition ref_file (folder branch : string) : string :=
  clone_heads folder +:+ bslash +:+ branch.

(** A clone on a POSIX system, with its one branch. *)
Definition posix_clone : filesys :=
  {| files_of := fun d =>
       if String.eqb d "/cache/org/repo/.git/refs/heads"
       then Some ["master"] else None;
     read_text := fun p =>
       if String.eqb p "/cache/org/repo/.git/refs/heads/master"
       then "0a1b2c" +:+ newline else EmptyString |}.

End Heads.

Module UrlSpec.

Import PyStr.

(** The path below the cache root, as the specification has it: the
    configured root is stripped from the normalised path. *)
Definition below_root (cache_root path : string) : string :=
  let p := replace bslash "/" path in
  let r := replace bslash "/" cache_root in
  let rest := if startswith r p then drop (String.length r) p else p in
  if startswith "/" rest then drop 1 rest else rest.

(** The URL the specification describes for a local path:
    [org/repo/path] goes to [https://github.com/org/repo/blob/master/path],
    and to the bare repository URL when [path] is empty. *)
Definition url_by_spec (cache_root path : string) : string :=
  match split "/" (below_root cache_root path) with
  | org :: repo :: rest =>
      if String.eqb (join "/" rest) EmptyString
      then "https://github.com/" +:+ org +:+ "/" +:+ repo
      else "https://github.com/" +:+ org +:+ "/" +:+ repo
           +:+ "/blob/master/" +:+ join "/" rest
  | other => "https://github.com/" +:+ join "/" other
  end.

End UrlSpec.

Module CatalogOrder.

(** [a <= b] on [(name, size)] tuples: by name, and by size on equal
    names. *)
Definition tuple_le (a b : string * Z) : Prop :=
  String.ltb (fst a) (fst b) = true \/ (fst a = fst b /\ snd a <= snd b).

(** The record an output pair comes from. *)
Definition source_of (repodata : list CloneOrgs.repo) (p : string * Z) : Prop :=
  exists r, In r repodata
            /\ CloneOrgs.private r = false /\ CloneOrgs.fork r = false
            /\ fst p = PyStr.lower (CloneOrgs.name r) /\ snd p = CloneOrgs.size r.

End CatalogOrder.

Module ScanSpec.

(** The number of occurrences of keyword [w] in [text], case ignored. *)
Definition word_count (text w : string) : Z :=
  PyStr.count (PyStr.lower w) (PyStr.lower text).

(** The sum of the counts of the keywords of the list. *)
Definition total_count (text : string) (ws : list string) : Z :=
  foldr (fun w acc => word_count text w + acc) 0 ws.

(** A configuration with the given keywords and file types. *)
Definition config (root : string) (ws types : list string) : settings :=
  {| folder := root; words := ws; filetypes := types;
     username := "user"; PAT := "token" |}.

End ScanSpec.

Module Pages.

Import Utils.

(** The URL the client requests for an endpoint. *)
Definition resolved (endpoint : string) : string :=
  if PyStr.startswith "/" endpoint then "https://api.github.com" +:+ endpoint
  else endpoint.

(** [int()] accepts the rate-limit headers the response carries. *)
Definition ratelimit_readable {A} (r : response A) : bool :=
  match x_ratelimit_limit r with
  | None => true
  | Some t1 =>
      match py_int t1 with
      | None => false
      | Some _ =>
          match x_ratelimit_remaining r with
          | None => true
          | Some t2 => match py_int t2 with Some _ => true | None => false end
          end
      end
  end.

(** The client reads the rate-limit headers only when it is given a
    state object; then [int()] has to accept them. *)
Definition headers_accepted {A} (state : option State) (r : response A) : Prop :=
  state = None \/ ratelimit_readable r = true.

(** A successful page: status 200 and a JSON array [elems] as body. *)
Definition successful {A} (r : response A) (elems : list A) : Prop :=
  status_code r = 200 /\ json r = Ok elems.

(** A page: the URL it is served at, the response, and the elements of
    its body. *)
Definition page (A : Type) : Type := (string * response A * list A)%type.

Definition page_url {A} (p : page A) : string := fst (fst p).
Definition page_resp {A} (p : page A) : response A := snd (fst p).
Definition page_elems {A} (p : page A) : list A := snd p.

(** The headers of every page are accepted. *)
Definition pages_accepted {A} (state : option State) (pages : list (page A)) : Prop :=
  Forall (fun p => headers_accepted state (page_resp p)) pages.

Section Chain.

Context {A : Type}.
Variable server : request -> response A.

(** The server answers every request for [u] with [r]. *)
Definition serves (u : string) (r : response A) : Prop :=
  forall req, req_url req = resolved u -> server req = r.

(** Every page is successful, advertises the URL of the page after it as
    [next], and the last page advertises no [next]. *)
Fixpoint page_chain (pages : list (page A)) : Prop :=
  match pages with
  | [] => True
  | (u, r, elems) :: rest =>
      u <> EmptyString /\ serves u r /\ successful r elems
      /\ github_pagination r !! "nextURL"
         = Some (match rest with
                 | [] => VNone
                 | p :: _ => VStr (page_url p)
                 end)
      /\ page_chain rest
  end.

End Chain.

(** Two pages of a listing, with the headers GitHub sends. *)
Definition link_of (url rel : string) : string :=
  "<" +:+ url +:+ ">; rel=" +:+ dquote +:+ rel +:+ dquote.

Definition url1 : string := "/orgs/o/repos?per_page=2".
Definition url2 : string := "https://api.github.com/organizations/9/repos?per_page=2&page=2".

Definition resp1 : response string :=
  {| status_code := 200; text_len := 40; json := Ok ["alpha"; "beta"];
     link := Some (link_of url2 "next" +:+ ", " +:+ link_of url2 "last");
     x_ratelimit_limit := Some "5000"; x_ratelimit_remaining := Some "4999" |}.

Definition resp2 : response string :=
  {| status_code := 200; text_len := 20; json := Ok ["gamma"];
     link := Some (link_of "https://api.github.com/organizations/9/repos?per_page=2&page=1" "prev"
                   +:+ ", "
                   +:+ link_of "https://api.github.com/organizations/9/repos?per_page=2&page=1" "first");
     x_ratelimit_limit := Some "5000"; x_ratelimit_remaining := Some "4998" |}.

Definition two_pages : request -> response string :=
  fun req => if String.eqb (req_url req) url2 then resp2 else resp1.

Definition quiet : State :=
  {| verbose := false; requests_session := None;
     last_ratelimit := 0; last_remaining := 0 |}.

(** A page with status 200 and no Link header, whose limit header is not
    a number. *)
Definition unlimited : response string :=
  {| status_code := 200; text_len := 9; json := Ok ["alpha"]; link := None;
     x_ratelimit_limit := Some "unlimited"; x_ratelimit_remaining := Some "4999" |}.

End Pages.

Module WalkSpec.

Import PyStr Search ScanSpec.

(** Keyword lists the dictionaries can hold: no keyword is a key the
    scripts use themselves. *)
Definition wf_settings (cfg : settings) : Prop :=
  ("*TOTAL*" ∉ words cfg) /\ ("folder" ∉ words cfg)
  /\ ("filename" ∉ words cfg).

(** How often the keyword is listed. *)
Fixpoint occ (w : string) (ws : list string) : Z :=
  match ws with
  | [] => 0
  | x :: ws' => (if String.eqb x w then 1 else 0) + occ w ws'
  end.

Section Rows.

Variable cfg : settings.
Variable fl : OsPath.flavour.
Variable fs : Utils.filesys.

(** Is the file of an allowed type? *)
Definition searched (name : string) : bool :=
  existsb (String.eqb (lower (snd (OsPath.splitext name)))) (filetypes cfg).

(** The files of a visit that have a hit: full name and text. *)
Definition hit_files (v : visit) : list (string * string) :=
  if skipped (v_root v) then []
  else map (fun f => (OsPath.join fl (v_root v) (fst f), snd f))
           (filter (fun f => searched (fst f) && (0 <? total_count (snd f) (words cfg)) = true)
                   (v_files v)).

(** The contribution of one file of the directory [root]. *)
Definition counted (root : string) (f : string * string) : list (string * string) :=
  if searched (fst f) && (0 <? total_count (snd f) (words cfg))
  then [(OsPath.join fl root (fst f), snd f)] else [].

Definition hits_of (vs : list visit) : list (string * string) :=
  concat (map hit_files vs).

(** Hits of keyword [w], and of all keywords, in a list of files. *)
Definition tally (files : list (string * string)) (w : string) : Z :=
  foldr (fun f acc => word_count (snd f) w + acc) 0 files.

(** The count an accumulator holds for keyword [w]: the loop over the
    keyword list adds the hits once for every time [w] is listed. *)
Definition repo_count (files : list (string * string)) (w : string) : Z :=
  occ w (words cfg) * tally files w.

Definition tally_total (files : list (string * string)) : Z :=
  foldr (fun f acc => total_count (snd f) (words cfg) + acc) 0 files.

(** The columns of the counts, one per keyword. *)
Definition columns (f : string -> Z) (ws : list string) : string :=
  foldr (fun w acc => "," +:+ str_of_Z (f w) +:+ acc) EmptyString ws.

(** The line of matches.csv for a file. *)
Definition match_row (f : string * string) : string :=
  Utils.file_url (fst f) +:+ columns (word_count (snd f)) (words cfg)
  +:+ "," +:+ str_of_Z (total_count (snd f) (words cfg)) +:+ newline.

(** The line of repos.csv, if any, for the accumulator of [root] that
    holds the hits of [files]. *)
Definition repo_row (root : string) (files : list (string * string)) : list string :=
  if tally_total files =? 0 then []
  else [Utils.file_url root +:+ columns (repo_count files) (words cfg)
        +:+ "," +:+ str_of_Z (tally_total files)
        +:+ "," +:+ fst (Utils.latest_commit fl fs root)
        +:+ "," +:+ snd (Utils.latest_commit fl fs root) +:+ newline].

(** The visit starts a repository: it is not left early and its root is a
    repository root. *)
Definition detected (v : visit) : bool :=
  negb (skipped (v_root v)) && repo_folder cfg (v_root v).

(** The visits up to the next repository root. *)
Fixpoint until_root (vs : list visit) : list visit :=
  match vs with
  | [] => []
  | v :: vs' => if detected v then [] else v :: until_root vs'
  end.

(** The repositories of a walk, in order: the root, and the visits made
    while its accumulator is open. *)
Fixpoint segments (vs : list visit) : list (string * list visit) :=
  match vs with
  | [] => []
  | v :: vs' =>
      if detected v then (v_root v, v :: until_root vs') :: segments vs'
      else segments vs'
  end.

(** The lines of repos.csv after the header. *)
Definition repo_rows (vs : list visit) : list string :=
  match segments vs with
  | [] => repo_row EmptyString (hits_of vs)
  | segs => concat (map (fun s => repo_row (fst s) (hits_of (snd s))) segs)
  end.

(** The same lines, by the accumulator [(root, files)] that is open. *)
Fixpoint rows_from (root : string) (files : list (string * string))
    (vs : list visit) : list string :=
  match vs with
  | [] => repo_row root files
  | v :: vs' =>
      if detected v
      then (if String.eqb root EmptyString then [] else repo_row root files)
           ++ rows_from (v_root v) (hit_files v) vs'
      else rows_from root (files ++ hit_files v) vs'
  end.

(** The dictionary [acc] is the accumulator of [root] with the hits of
    [files]. *)
Definition represents (acc : gmap string pyval) (root : string)
    (files : list (string * string)) : Prop :=
  acc !! "folder" = Some (VStr root)
  /\ acc !! "*TOTAL*" = Some (VInt (tally_total files))
  /\ Forall (fun w => acc !! w = Some (VInt (repo_count files w))) (words cfg).

(** The state of the loop: the open accumulator and the lines written to
    matches.csv and repos.csv so far. *)
Definition holds (s : run) (root : string) (files : list (string * string))
    (mrows rrows : list string) : Prop :=
  represents (repo_totals s) root files
  /\ matches_file s = mrows /\ repos_file s = rrows.

End Rows.

(** Sample trees.  The cache root has 14 characters, so that [file_url]
    yields the URLs of the repositories. *)
Definition mirror : string := "/srv/gh-mirror".

Definition todo_cfg : settings := config mirror ["TODO"] [".go"; ".txt"].

Definition no_git : Utils.filesys :=
  {| Utils.files_of := fun _ => None; Utils.read_text := fun _ => EmptyString |}.

(** [orgA/repo1/a.go] holds the keyword twice, [orgA/repo2/b.go] never. *)
Definition two_repos : tree :=
  Dir "gh-mirror" []
    [Dir "orgA" []
       [Dir "repo1" [("a.go", "// TODO one" +:+ newline +:+ "// todo two")] [];
        Dir "repo2" [("b.go", "package b")] []]].

(** A file with a hit directly under the cache root, before the only
    repository. *)
Definition stray_first : tree :=
  Dir "gh-mirror" [("notes.txt", "todo: mirror more")]
    [Dir "orgA" [] [Dir "repo1" [("a.go", "package a")] []]].

(** A file with a hit directly under the second organisation folder. *)
Definition stray_between : tree :=
  Dir "gh-mirror" []
    [Dir "orgA" [] [Dir "repo1" [("a.go", "package a")] []];
     Dir "orgB" [("notes.txt", "todo: ask orgB")]
       [Dir "repo2" [("b.go", "package b")] []]].

(** Vendored code below a repository, and a [.git] directory. *)
Definition vendored : tree :=
  Dir "gh-mirror" []
    [Dir "orgA" []
       [Dir "repo1" [("a.go", "package a")]
          [Dir ".git" [("hook.go", "todo")] [];
           Dir "vendor" [("lib.go", "todo")]
             [Dir "pkg" [("deep.go", "todo")] []]]]].

(** Texts that hold the words [filename] and [folder]. *)
Definition reserved_words : tree :=
  Dir "gh-mirror" [("notes.txt", "one filename")]
    [Dir "orgA" [] [Dir "repo1" [("a.txt", "one folder")] []]].

Definition win_cfg : settings := config "C:\temp\repos1" ["TODO"] [".go"; ".txt"].

End WalkSpec.

Module PagesMore.

Import Utils Pages.

(** A page that is answered, with success or not: either it is [ok] and
    its body is the JSON array [elems], or it is not [ok] and
    contributes nothing. *)
Definition answered {A} (r : response A) (elems : list A) : Prop :=
  (ok r = true /\ json r = Ok elems) \/ (ok r = false /\ elems = []).

Section Chain.

Context {A : Type}.
Variable server : request -> response A.

(** Every page is answered and advertises the page after it as [next];
    the last page advertises [final]: [VNone] for no link, or the URL of
    whatever comes after the chain. *)
Fixpoint chain_to (pages : list (page A)) (final : pyval) : Prop :=
  match pages with
  | [] => True
  | (u, r, elems) :: rest =>
      u <> EmptyString /\ serves server u r /\ answered r elems
      /\ github_pagination r !! "nextURL"
         = Some (match rest with
                 | [] => final
                 | p :: _ => VStr (page_url p)
                 end)
      /\ chain_to rest final
  end.

End Chain.

(** A response without any header, and the server that always sends the
    same response. *)
Definition bare (status : Z) (body : result (list string)) : response string :=
  {| status_code := status; text_len := 0; json := body; link := None;
     x_ratelimit_limit := None; x_ratelimit_remaining := None |}.

Definition always {A} (r : response A) : request -> response A := fun _ => r.

(** A response that names [url] as the next page. *)
Definition pointing (status : Z) (body : result (list string)) (url : string)
    (limit : option string) : response string :=
  {| status_code := status; text_len := 0; json := body;
     link := Some (link_of url "next");
     x_ratelimit_limit := limit; x_ratelimit_remaining := Some "10" |}.

(** Three pages, the second of which fails with status 502. *)
Definition three_urls (req : request) : response string :=
  if String.eqb (req_url req) "https://api.github.com/p2"
  then pointing 502 (Raise ValueError) "https://api.github.com/p3" (Some "60")
  else if String.eqb (req_url req) "https://api.github.com/p3"
       then bare 200 (Ok ["c"])
       else pointing 200 (Ok ["a"; "b"]) "https://api.github.com/p2" (Some "60").

(** Two pages that name each other as next. *)
Definition ping_pong (req : request) : response string :=
  if String.eqb (req_url req) "https://api.github.com/p2"
  then pointing 200 (Ok ["b"]) "https://api.github.com/p1" None
  else pointing 200 (Ok ["a"]) "https://api.github.com/p2" None.

End PagesMore.

Module PathSpec.

(** The backslash as a character. *)
Definition bs : ascii := ascii_of_nat 92.

(** A path separator of either convention. *)
Definition is_separator (c : ascii) : Prop := c = "/"%char \/ c = bs.

(** A name without path separator. *)
Definition plain (name : string) : Prop :=
  mem "/" name = false /\ mem bs name = false.

(** A path with forward slashes only. *)
Definition normalized (path : string) : string :=
  PyStr.replace bslash "/" path.

End PathSpec.

Module TotalsSpec.

(** The sum of a list of integers. *)
Definition sumZ (zs : list Z) : Z := foldr Z.add 0 zs.

(** Does some keyword of the list occur in the text, case ignored? *)
Definition some_keyword_occurs (text : string) (ws : list string) : bool :=
  existsb (fun w => PyStr.contains (PyStr.lower w) (PyStr.lower text)) ws.

End TotalsSpec.

Module WalkOrder.

Import Search.

(** The descent of [walk] below [root], with the two flags that say
    whether the removal of [.git] and of [.github] is still due. *)
Fixpoint descend (fl : OsPath.flavour) (root : string) (git github : bool)
    (ds : list tree) : list visit :=
  match ds with
  | [] => []
  | d :: ds' =>
      if git && String.eqb (dname d) ".git" then descend fl root false github ds'
      else if github && String.eqb (dname d) ".github"
           then descend fl root git false ds'
           else walk fl (OsPath.join fl root (dname d)) d
                ++ descend fl root git github ds'
  end.

(** The two directories that are removed from [dirs]. *)
Definition is_meta (name : string) : Prop := name = ".git" \/ name = ".github".

End WalkOrder.

Module FilterSpec.

Import PyStr.

(** The part of a URL at position [i], empty when there is none. *)
Definition url_part (i : nat) (url : string) : string :=
  nth i (split "/" url) EmptyString.

(** A row the loop can handle: it has a first cell, and that cell is the
    header cell or a URL of at least five parts. *)
Definition readable (row : list string) : bool :=
  match row with
  | [] => false
  | url :: _ => String.eqb url "url" || (5 <=? length (split "/" url))%nat
  end.

(** The rows that are written: header rows, rows of other organisations,
    and rows of googleapis whose repository is in the list. *)
Definition kept (repos : list string) (row : list string) : bool :=
  match row with
  | [] => false
  | url :: _ =>
      String.eqb url "url"
      || negb (String.eqb (lower (url_part 3 url)) "googleapis")
      || existsb (String.eqb (lower (url_part 4 url))) repos
  end.

(** An entry of repos.json, [org/name]. *)
Definition entry (p : string * string) : string := fst p +:+ "/" +:+ snd p.

Definition of_googleapis (p : string * string) : bool :=
  String.eqb (lower (fst p)) "googleapis".

(** A sample report. *)
Definition sample_rows : list (list string) :=
  [["url"; "TODO"; "total"];
   ["https://github.com/GoogleAPIs/Gax-Java"; "1"; "1"];
   ["https://github.com/googleapis/retired"; "2"; "2"];
   ["https://github.com/other/tool/blob/master/a.go"; "3"; "3"]].

Definition sample_entries : list (string * string) :=
  [("googleapis", "GAX-java"); ("GoogleCloudPlatform", "retired")].

End FilterSpec.

(* ===================================================================== *)
(** ** Facts about the string primitives                                 *)
(* ===================================================================== *)

Module PyStrFacts.

Import PyStr.

Lemma append_nil_r (s : string) : s +:+ EmptyString = s.
Proof. induction s as [|c s IH]; simpl; [reflexivity | now rewrite IH]. Qed.

Lemma append_assoc (a b c : string) : (a +:+ b) +:+ c = a +:+ (b +:+ c).
Proof. induction a as [|x a IH]; simpl; [reflexivity | now rewrite IH]. Qed.

Lemma length_append (a b : string) :
  String.length (a +:+ b) = (String.length a + String.length b)%nat.
Proof. induction a as [|x a IH]; simpl; [reflexivity | now rewrite IH]. Qed.

Lemma mem_append c a b : mem c (a +:+ b) = mem c a || mem c b.
Proof.
  induction a as [|x a IH]; simpl; [reflexivity|].
  rewrite IH. now rewrite orb_assoc.
Qed.

(** Cancellation of a common suffix. *)
Lemma append_inj_l (a b t : string) : a +:+ t = b +:+ t -> a = b.
Proof.
  revert b. induction a as [|x a IH]; intros [|y b] H; simpl in H.
  - reflexivity.
  - apply (f_equal String.length) in H. simpl in H.
    rewrite length_append in H. lia.
  - apply (f_equal String.length) in H. simpl in H.
    rewrite length_append in H. lia.
  - inversion H; subst. f_equal. now apply IH.
Qed.

(** Two strings that end in different characters differ. *)
Lemma append_last_neq (a b : string) (x y : ascii) :
  x <> y -> a +:+ String x EmptyString <> b +:+ String y EmptyString.
Proof.
  intros Hxy. revert b. induction a as [|c a IH]; intros [|d b] H; simpl in H.
  - congruence.
  - inversion H as [[H1 H2]]. destruct b; discriminate.
  - inversion H as [[H1 H2]]. destruct a; discriminate.
  - inversion H; subst. now apply (IH b).
Qed.

Lemma split_not_nil sep s : split sep s <> [].
Proof.
  destruct s as [|c s]; simpl; [discriminate|].
  destruct (Ascii.eqb c sep); [discriminate|].
  destruct (split sep s); discriminate.
Qed.

Lemma split_no_sep sep s : mem sep s = false -> split sep s = [s].
Proof.
  induction s as [|c s IH]; simpl; [reflexivity|].
  intros H. apply orb_false_iff in H as [Hc Hs].
  rewrite Hc, (IH Hs). reflexivity.
Qed.

Lemma split_append sep a b :
  mem sep a = false ->
  split sep (a +:+ String sep b) = a :: split sep b.
Proof.
  induction a as [|c a IH]; simpl; intros H.
  - now rewrite Ascii.eqb_refl.
  - apply orb_false_iff in H as [Hc Ha].
    rewrite Hc, (IH Ha). reflexivity.
Qed.

Lemma last_part_cons w ws : ws <> [] -> last_part (w :: ws) = last_part ws.
Proof. destruct ws; [congruence | reflexivity]. Qed.

(** The last field of a split is whatever follows the last separator. *)
Lemma last_part_split_cons sep c s :
  last_part (split sep (String c s)) =
  if Ascii.eqb c sep || mem sep s then last_part (split sep s) else String c s.
Proof.
  simpl. destruct (Ascii.eqb c sep) eqn:Ec; simpl.
  - apply last_part_cons, split_not_nil.
  - destruct (mem sep s) eqn:Em.
    + destruct (split sep s) as [|w ws] eqn:E; [now apply split_not_nil in E|].
      destruct ws as [|w' ws'].
      * exfalso. clear Ec. revert w E Em. induction s as [|x s IHs]; simpl; intros w E Em.
        -- discriminate.
        -- destruct (Ascii.eqb x sep); simpl in Em.
           ++ inversion E as [[H1 H2]]. now apply split_not_nil in H2.
           ++ destruct (split sep s) as [|u us] eqn:E'; [now apply split_not_nil in E'|].
              inversion E; subst. now apply (IHs u).
      * reflexivity.
    + now rewrite (split_no_sep _ _ Em).
Qed.

Lemma last_part_split_app sep a b :
  mem sep b = false ->
  last_part (split sep (a +:+ b)) = last_part (split sep a) +:+ b.
Proof.
  intros Hb. induction a as [|c a IH].
  - simpl. now rewrite split_no_sep.
  - change (String c a +:+ b) with (String c (a +:+ b)).
    rewrite !last_part_split_cons, mem_append, Hb, orb_false_r.
    destruct (Ascii.eqb c sep || mem sep a); [exact IH | reflexivity].
Qed.

Lemma last_part_split_append sep a b :
  mem sep b = false ->
  last_part (split sep (a +:+ String sep b)) = b.
Proof.
  intros Hb. induction a as [|c a IH].
  - simpl. rewrite Ascii.eqb_refl.
    rewrite last_part_cons by apply split_not_nil. now rewrite split_no_sep.
  - change (String c a +:+ String sep b) with (String c (a +:+ String sep b)).
    rewrite last_part_split_cons, mem_append. simpl.
    rewrite Ascii.eqb_refl. simpl. rewrite !orb_true_r. exact IH.
Qed.

Lemma split_cons_other sep c s :
  Ascii.eqb c sep = false ->
  split sep (String c s) =
  match split sep s with
  | [] => [String c EmptyString]
  | w :: ws => String c w :: ws
  end.
Proof. intros H. simpl. now rewrite H. Qed.

Lemma join_snoc sep l w :
  join sep (l ++ [w]) =
  match l with
  | [] => w
  | _ => join sep l +:+ sep +:+ w
  end.
Proof.
  induction l as [|x l IH]; [reflexivity|].
  destruct l as [|y l].
  - reflexivity.
  - change (join sep ((x :: y :: l) ++ [w]))
      with (x +:+ sep +:+ join sep ((y :: l) ++ [w])).
    rewrite IH. change (join sep (x :: y :: l)) with (x +:+ sep +:+ join sep (y :: l)).
    now rewrite !append_assoc.
Qed.

Lemma take_length_append (s t : string) : take (String.length s) (s +:+ t) = s.
Proof. induction s as [|c s IH]; simpl; [now destruct t | now rewrite IH]. Qed.

Lemma drop_length_append (s t : string) : drop (String.length s) (s +:+ t) = t.
Proof. induction s as [|c s IH]; simpl; [reflexivity | exact IH]. Qed.

(** [s[1:-1]] removes one delimiter at either end. *)
Lemma inner_delimited (a b : ascii) (s : string) :
  inner (String a (s +:+ String b EmptyString)) = s.
Proof.
  unfold inner.
  replace (String.length (String a (s +:+ String b EmptyString)) - 1)%nat
    with (S (String.length s)).
  - simpl. apply take_length_append.
  - simpl String.length. rewrite length_append. simpl. lia.
Qed.

Lemma rstrip_last (t : string) (b : ascii) :
  is_space b = false ->
  rstrip (t +:+ String b EmptyString) = t +:+ String b EmptyString.
Proof.
  intros Hb. induction t as [|c t IH]; simpl.
  - now rewrite Hb.
  - rewrite IH. destruct (t +:+ String b EmptyString) eqn:E; [|reflexivity].
    destruct t; discriminate.
Qed.

(** [strip] leaves a text alone that starts and ends with a character
    that is no white space, and removes a blank put before it. *)
Lemma strip_delimited (a b : ascii) (s : string) :
  is_space a = false -> is_space b = false ->
  strip (String a (s +:+ String b EmptyString)) = String a (s +:+ String b EmptyString).
Proof.
  intros Ha Hb. unfold strip. simpl lstrip. rewrite Ha.
  change (String a (s +:+ String b EmptyString))
    with (String a s +:+ String b EmptyString).
  now apply rstrip_last.
Qed.

Lemma strip_blank_delimited (a b : ascii) (s : string) :
  is_space a = false -> is_space b = false ->
  strip (String " " (String a (s +:+ String b EmptyString)))
  = String a (s +:+ String b EmptyString).
Proof.
  intros Ha Hb. unfold strip.
  change (lstrip (String " " (String a (s +:+ String b EmptyString))))
    with (lstrip (String a (s +:+ String b EmptyString))).
  now apply strip_delimited.
Qed.

End PyStrFacts.

(* ===================================================================== *)
(** ** The pagination parser                                             *)
(* ===================================================================== *)

Module PaginationSpec.

Import PyStr PyStrFacts Utils LinkHeader.

Lemma query_ends (e : link_entry) :
  exists x, query e = x +:+ String "=" (snd (le_last e)).
Proof.
  unfold query. rewrite map_app. simpl map. rewrite join_snoc.
  destruct (map render_param (le_params e)) as [|w ws].
  - exists (fst (le_last e)). reflexivity.
  - exists (join "&" (w :: ws) +:+ "&" +:+ fst (le_last e)).
    unfold render_param. now rewrite !append_assoc.
Qed.

Lemma pageno_of_url (e : link_entry) :
  wf_entry e -> pageno_of (render_url e) = strip (snd (le_last e)).
Proof.
  intros (_ & _ & _ & _ & _ & Heq & Hq).
  unfold pageno_of, render_url. destruct (query_ends e) as [x ->].
  replace (le_base e +:+ "?" +:+ x +:+ String "=" (snd (le_last e)))
    with ((le_base e +:+ "?" +:+ x) +:+ String "=" (snd (le_last e)))
    by now rewrite !append_assoc.
  rewrite last_part_split_app by (simpl; now rewrite Hq).
  now rewrite last_part_split_append.
Qed.

Lemma link_shape (pad : string) (e : link_entry) :
  pad +:+ render_link e =
  (pad +:+ String "<" (render_url e +:+ ">"))
  +:+ String ";" (" rel" +:+ String "=" (String (ascii_of_nat 34)
                                   (le_rel e +:+ dquote))).
Proof.
  unfold render_link. rewrite !append_assoc. simpl. now rewrite !append_assoc.
Qed.

Lemma parse_link (pad : string) (e : link_entry) :
  wf_entry e -> pad = EmptyString \/ pad = " " -> parsed (pad +:+ render_link e) e.
Proof.
  intros Hwf Hpad.
  pose proof Hwf as (_ & Hsemi & _ & Hrsemi & Hreq & _ & _).
  assert (Hsplit : split ";" (pad +:+ render_link e) =
            [pad +:+ String "<" (render_url e +:+ ">");
             " rel" +:+ String "=" (String (ascii_of_nat 34) (le_rel e +:+ dquote))]).
  { rewrite link_shape, split_append.
    - f_equal. apply split_no_sep. simpl. rewrite mem_append, Hrsemi. reflexivity.
    - rewrite mem_append. simpl. rewrite mem_append, Hsemi.
      destruct Hpad as [-> | ->]; reflexivity. }
  assert (Hurl : url_of (pad +:+ render_link e) = render_url e).
  { unfold url_of. rewrite Hsplit. unfold first_part. simpl hd.
    destruct Hpad as [-> | ->]; simpl String.append.
    - rewrite strip_delimited by reflexivity. apply inner_delimited.
    - rewrite strip_blank_delimited by reflexivity. apply inner_delimited. }
  split; [|split].
  - unfold linktype_of. rewrite Hsplit.
    rewrite last_part_cons by discriminate.
    unfold last_part at 2. cbn [List.last].
    rewrite last_part_split_append.
    + unfold dquote. rewrite strip_delimited by reflexivity. apply inner_delimited.
    + simpl. rewrite mem_append, Hreq. reflexivity.
  - exact Hurl.
  - rewrite Hurl. now apply pageno_of_url.
Qed.

Lemma render_link_no_comma (e : link_entry) :
  wf_entry e -> mem "," (render_link e) = false.
Proof.
  intros (Hc & _ & Hrc & _). unfold render_link.
  rewrite !mem_append, Hc, Hrc. reflexivity.
Qed.

(** The entries the parser iterates over: the first as rendered, every
    later one after the blank that follows the comma. *)
Lemma split_header (e : link_entry) (es : list link_entry) :
  Forall wf_entry (e :: es) ->
  split "," (render_header (e :: es)) =
  render_link e :: map (fun x => " " +:+ render_link x) es.
Proof.
  revert e. induction es as [|e' es IH]; intros e Hwf.
  - unfold render_header. cbn [map join].
    apply split_no_sep, render_link_no_comma. now inversion Hwf.
  - inversion Hwf as [|? ? He Hes]; subst.
    unfold render_header. simpl map.
    change (join ", " (render_link e :: render_link e' :: map render_link es))
      with (render_link e +:+ ", " +:+ render_header (e' :: es)).
    change (", " +:+ render_header (e' :: es))
      with (String "," (String " " (render_header (e' :: es)))).
    rewrite split_append by now apply render_link_no_comma.
    f_equal. rewrite split_cons_other by reflexivity.
    rewrite (IH e' Hes). reflexivity.
Qed.

Lemma key_page_URL (a b : string) : a +:+ "URL" <> b +:+ "page".
Proof.
  change "URL" with ("UR" +:+ "L"). change "page" with ("pag" +:+ "e").
  rewrite <- !append_assoc. apply append_last_neq. discriminate.
Qed.

Lemma store_link_other (d : gmap string pyval) (link k : string) :
  linktype_of link +:+ "page" <> k -> linktype_of link +:+ "URL" <> k ->
  store_link d link !! k = d !! k.
Proof.
  intros H1 H2. unfold store_link.
  rewrite lookup_insert_ne by exact H2. now rewrite lookup_insert_ne by exact H1.
Qed.

Lemma fold_store_other (links : list string) (d : gmap string pyval) (k : string) :
  Forall (fun link => linktype_of link +:+ "page" <> k
                      /\ linktype_of link +:+ "URL" <> k) links ->
  fold_left store_link links d !! k = d !! k.
Proof.
  intros H. revert d. induction H as [|link links [H1 H2] _ IH]; intros d.
  - reflexivity.
  - simpl. rewrite IH. now apply store_link_other.
Qed.

Lemma store_link_page (d : gmap string pyval) (link : string) :
  store_link d link !! (linktype_of link +:+ "page")
  = Some (VStr (pageno_of (url_of link))).
Proof.
  unfold store_link. rewrite lookup_insert_ne by apply key_page_URL.
  apply lookup_insert_eq.
Qed.

Lemma store_link_URL (d : gmap string pyval) (link : string) :
  store_link d link !! (linktype_of link +:+ "URL") = Some (VStr (url_of link)).
Proof. unfold store_link. apply lookup_insert_eq. Qed.

(** Entries of other relations leave the keys of a relation alone. *)
Lemma others_keep (rel : string) (links : list string) (es : list link_entry) :
  Forall2 parsed links es ->
  ~ In rel (map le_rel es) ->
  Forall (fun link => linktype_of link +:+ "page" <> rel +:+ "page"
                      /\ linktype_of link +:+ "URL" <> rel +:+ "page") links.
Proof.
  induction 1 as [|link x links es (Ht & _) _ IH]; intros Hnot.
  - constructor.
  - constructor.
    + rewrite Ht. split.
      * intros Heq. apply append_inj_l in Heq. apply Hnot. now left.
      * apply key_page_URL.
    + apply IH. intros Hin. apply Hnot. now right.
Qed.

Lemma fold_parsed (links : list string) (before after : list link_entry)
    (e : link_entry) :
  Forall2 parsed links (before ++ e :: after) ->
  ~ In (le_rel e) (map le_rel after) ->
  forall d : gmap string pyval,
    fold_left store_link links d !! (le_rel e +:+ "page")
    = Some (VStr (strip (snd (le_last e)))).
Proof.
  intros Hall Hlast d.
  apply Forall2_app_inv_r in Hall as (l1 & l2 & _ & Hl2 & ->).
  apply Forall2_cons_inv_r in Hl2 as (link & l3 & Hp & Hl3 & ->).
  rewrite fold_left_app. cbn [fold_left].
  rewrite (fold_store_other l3 _ _ (others_keep _ _ _ Hl3 Hlast)).
  destruct Hp as (Ht & _ & Hpage). rewrite <- Ht, store_link_page.
  now rewrite Hpage.
Qed.

Lemma header_parsed (es : list link_entry) :
  es <> [] -> Forall wf_entry es ->
  Forall2 parsed (split "," (render_header es)) es.
Proof.
  destruct es as [|e es]; [congruence|]. intros _ Hwf.
  rewrite split_header by exact Hwf.
  inversion Hwf as [|? ? He Hes]; subst. constructor.
  - apply (parse_link EmptyString e He). now left.
  - clear Hwf He. induction Hes as [|x es Hx _ IH]; simpl; constructor.
    + apply (parse_link " " x Hx). now right.
    + exact IH.
Qed.

(** What the parser does store: for the last entry of the header that
    carries a given relation, the text after the last [=] of the entry's
    URL, that is the (stripped) value of the URL's last query parameter,
    whichever parameter that is. *)
Lemma stored_page_is_last_value (before after : list link_entry)
    (e : link_entry) :
  Forall wf_entry (before ++ e :: after) ->
  ~ In (le_rel e) (map le_rel after) ->
  github_pagination_str (render_header (before ++ e :: after))
    !! (le_rel e +:+ "page")
  = Some (VStr (strip (snd (le_last e)))).
Proof.
  intros Hwf Hlast. unfold github_pagination_str.
  apply fold_parsed with (before := before) (after := after); [|assumption].
  apply header_parsed; [|assumption]. now destruct before.
Qed.

(** With [page] as the last parameter that value is the page number. *)
Example stored_page_when_page_is_last :
  github_pagination_str (render_header [prev_entry; last_entry]) !! "lastpage"
  = Some (VStr "50").
Proof.
  apply (stored_page_is_last_value [prev_entry] [] last_entry).
  - repeat constructor.
  - simpl. tauto.
Qed.

(** C5 fails on the code: the page number stored for a relation is the
    value of the last query parameter of the entry's URL, not the value
    of its [page] parameter.  For the header of GitHub's documentation,
    whose URLs end in [?page=3&per_page=100] and [?page=50&per_page=100],
    the parser stores 100 as the next and as the last page. *)
Theorem page_number_is_last_value :
  docs_header
  = "<https://api.github.com/user/repos?page=3&per_page=100>; rel="
    +:+ dquote +:+ "next" +:+ dquote
    +:+ ", <https://api.github.com/user/repos?page=50&per_page=100>; rel="
    +:+ dquote +:+ "last" +:+ dquote
  /\ github_pagination_str docs_header !! "nextURL"
     = Some (VStr "https://api.github.com/user/repos?page=3&per_page=100")
  /\ github_pagination_str docs_header !! "nextpage" = Some (VStr "100")
  /\ github_pagination_str docs_header !! "lastpage" = Some (VStr "100").
Proof. repeat split; reflexivity. Qed.

End PaginationSpec.

(* ===================================================================== *)
(** ** file_url                                                          *)
(* ===================================================================== *)

Module FileUrlSpec.

Import PyStr Utils UrlSpec.

(** With a cache root of 14 characters and its separator the function
    returns the URLs of the specification. *)
Example file_url_root_of_14 :
  file_url "C:\temp\repos1\orgA\repo1\src\a.go"
  = url_by_spec "C:\temp\repos1" "C:\temp\repos1\orgA\repo1\src\a.go"
  /\ file_url "C:\temp\repos1\orgA\repo1"
     = url_by_spec "C:\temp\repos1" "C:\temp\repos1\orgA\repo1".
Proof. split; reflexivity. Qed.

(** C1 fails on the code: [file_url] drops 15 characters whatever the
    configured cache root is.  Under the root [/cache] the file
    [/cache/orgA/repo1/a.go] and the repository folder [/cache/orgA/repo1]
    get URLs that name neither the organisation nor the repository. *)
Theorem file_url_ignores_cache_root :
  file_url "/cache/orgA/repo1/a.go" = "https://github.com/o1/a.go"
  /\ url_by_spec "/cache" "/cache/orgA/repo1/a.go"
     = "https://github.com/orgA/repo1/blob/master/a.go"
  /\ file_url "/cache/orgA/repo1" = "https://github.com/o1"
  /\ url_by_spec "/cache" "/cache/orgA/repo1" = "https://github.com/orgA/repo1".
Proof. repeat split; reflexivity. Qed.

End FileUrlSpec.

(* ===================================================================== *)
(** ** The API client called without endpoint                            *)
(* ===================================================================== *)

Module ClientSpec.

Import PyStr Utils.

Section MissingEndpoint.

Context {A : Type}.
Variable cfg : settings.
Variable server : request -> response A.

(** The client itself reports and returns [None], for [None] and for the
    empty string. *)
Lemma rest_api_no_endpoint (endpoint : pyval) auth headers state sess :
  truthy endpoint = false ->
  github_rest_api cfg server endpoint auth headers state sess
  = ([cr +:+ "GitHub API called: " +:+ show endpoint;
      "ERROR: github_api() called with no endpoint" +:+ newline],
     state, Ok None).
Proof. intros H. unfold github_rest_api. now rewrite H. Qed.

(** C2 fails on the code: the client returns [None] for a missing
    endpoint without raising, but the collector then reads
    [response.status_code] (or [response.text] when verbose) of that
    [None], and the AttributeError ends the run. *)
Theorem allpages_no_endpoint_raises auth headers state sess (fuel : nat) :
  snd (github_rest_api cfg server VNone auth headers state sess) = Ok None
  /\ snd (github_rest_api cfg server (VStr EmptyString) auth headers state sess)
     = Ok None
  /\ (exists out,
        github_allpages cfg server (S fuel) VNone auth headers state sess
        = Some (out, state, Raise AttributeError))
  /\ (exists out,
        github_allpages cfg server (S fuel) (VStr EmptyString) auth headers state sess
        = Some (out, state, Raise AttributeError)).
Proof.
  split; [reflexivity|]. split; [reflexivity|].
  unfold github_allpages. simpl allpages_loop.
  split; destruct (is_verbose state); eexists; reflexivity.
Qed.

End MissingEndpoint.

End ClientSpec.

(* ===================================================================== *)
(** ** latest_commit                                                     *)
(* ===================================================================== *)

Module LatestCommitSpec.

Import PyStr PyStrFacts Utils Heads.

(** ntpath.splitdrive on a path of two characters or more. *)
Lemma splitdrive_nt (a b : ascii) (rest : string) :
  OsPath.splitdrive OsPath.Nt (String a (String b rest))
  = if Ascii.eqb b ":"
    then (String a (String ":" EmptyString), rest)
    else (EmptyString, String a (String b rest)).
Proof. destruct b as [[] [] [] [] [] [] [] []]; reflexivity. Qed.

Lemma last_char_snoc (stem : string) (c : ascii) :
  OsPath.last_char (stem +:+ String c EmptyString) = Some c.
Proof.
  unfold OsPath.last_char. rewrite length_append. cbn [String.length].
  replace (String.length stem + 1 - 1)%nat with (String.length stem) by lia.
  induction stem as [|x stem IH]; [reflexivity | exact IH].
Qed.

Lemma snoc_not_empty (stem : string) (c : ascii) :
  String.eqb (stem +:+ String c EmptyString) EmptyString = false.
Proof. destruct stem; reflexivity. Qed.

Lemma named_no_sep (stem : string) (c : ascii) :
  c <> "/"%char -> c <> ascii_of_nat 92 ->
  OsPath.ends_with_sep OsPath.Nt (stem +:+ String c EmptyString) = false.
Proof.
  intros H1 H2. unfold OsPath.ends_with_sep. rewrite last_char_snoc.
  unfold OsPath.is_sep. apply Ascii.eqb_neq in H1, H2. now rewrite H1, H2.
Qed.

(** On Windows, joining a name to a path that ends in a name puts one
    backslash between the two. *)
Lemma join_nt_named (folder name : string) :
  ends_in_name folder ->
  OsPath.join OsPath.Nt folder name = folder +:+ bslash +:+ name.
Proof.
  intros (stem & c & -> & Hslash & Hback & Hcolon). unfold OsPath.join.
  destruct stem as [|x [|y stem]].
  - change (OsPath.splitdrive OsPath.Nt (EmptyString +:+ String c EmptyString))
      with (EmptyString, EmptyString +:+ String c EmptyString).
    cbv beta iota.
    rewrite (snoc_not_empty EmptyString c), (named_no_sep EmptyString c Hslash Hback).
    reflexivity.
  - change (String x EmptyString +:+ String c EmptyString)
      with (String x (String c EmptyString)).
    rewrite splitdrive_nt. apply Ascii.eqb_neq in Hcolon. rewrite Hcolon.
    cbv beta iota.
    change (String x (String c EmptyString))
      with (String x EmptyString +:+ String c EmptyString).
    rewrite (snoc_not_empty (String x EmptyString) c),
      (named_no_sep (String x EmptyString) c Hslash Hback).
    reflexivity.
  - change (String x (String y stem) +:+ String c EmptyString)
      with (String x (String y (stem +:+ String c EmptyString))).
    rewrite splitdrive_nt. destruct (ascii_dec y ":") as [-> | Hy].
    + rewrite Ascii.eqb_refl. cbv beta iota.
      rewrite snoc_not_empty, (named_no_sep stem c Hslash Hback). reflexivity.
    + apply Ascii.eqb_neq in Hy. rewrite Hy. cbv beta iota.
      change (String x (String y (stem +:+ String c EmptyString)))
        with (String x (String y stem) +:+ String c EmptyString).
      rewrite (snoc_not_empty (String x (String y stem)) c),
        (named_no_sep (String x (String y stem)) c Hslash Hback).
      reflexivity.
Qed.

Lemma clone_heads_named (folder : string) : ends_in_name (clone_heads folder).
Proof.
  exists (folder +:+ bslash +:+ ".git" +:+ bslash +:+ "refs" +:+ bslash +:+ "head"), "s"%char.
  split; [|repeat split; discriminate].
  unfold clone_heads. rewrite !append_assoc. reflexivity.
Qed.

(** C4, as amended: for a folder given by a Windows path, without a
    heads directory in the clone, or with no file in it, the result is
    the pair of empty strings; otherwise it is the first listed ref and
    the stripped text of its file, however many refs there are. *)
Theorem latest_commit_first_head (fs : filesys) (folder : string) :
  ends_in_name folder ->
  (files_of fs (clone_heads folder) = None
   \/ files_of fs (clone_heads folder) = Some [] ->
   latest_commit OsPath.Nt fs folder = (EmptyString, EmptyString))
  /\ (forall branch others,
        files_of fs (clone_heads folder) = Some (branch :: others) ->
        latest_commit OsPath.Nt fs folder
        = (branch, strip (read_text fs (ref_file folder branch)))).
Proof.
  intros Hfolder. unfold latest_commit, heads_dir.
  rewrite (join_nt_named folder _ Hfolder). fold (clone_heads folder).
  split.
  - intros [-> | ->]; reflexivity.
  - intros branch others ->.
    now rewrite (join_nt_named _ branch (clone_heads_named folder)).
Qed.

Lemma latest_commit_first_head_witness :
  latest_commit OsPath.Nt two_heads "C:\cache\org" = (EmptyString, EmptyString)
  /\ latest_commit OsPath.Nt two_heads "C:\cache\org\repo" = ("dev", "0a1b2c").
Proof.
  split.
  - apply (latest_commit_first_head two_heads "C:\cache\org").
    + exists "C:\cache\or", "g"%char. repeat split; discriminate.
    + left. reflexivity.
  - apply (proj2 (latest_commit_first_head two_heads "C:\cache\org\repo"
                    ltac:(exists "C:\cache\org\rep", "o"%char; repeat split; discriminate))
             "dev" ["main"]).
    reflexivity.
Defined.

(** C4 as stated fails.  With more than one branch ref the result is not
    the pair of empty strings; and on a POSIX system the one branch of a
    clone is not found. *)
Lemma latest_commit_two_heads :
  files_of two_heads (clone_heads "C:\cache\org\repo") = Some ["dev"; "main"]
  /\ latest_commit OsPath.Nt two_heads "C:\cache\org\repo" = ("dev", "0a1b2c")
  /\ latest_commit OsPath.Nt two_heads "C:\cache\org\repo"
     <> (EmptyString, EmptyString)
  /\ files_of posix_clone "/cache/org/repo/.git/refs/heads" = Some ["master"]
  /\ latest_commit OsPath.Posix posix_clone "/cache/org/repo"
     = (EmptyString, EmptyString).
Proof.
  split; [reflexivity|]. split; [reflexivity|]. split; [discriminate|].
  split; reflexivity.
Qed.

End LatestCommitSpec.

(* ===================================================================== *)
(** ** The repository catalog                                            *)
(* ===================================================================== *)

Module CatalogSpec.

Import PyStr CloneOrgs CatalogOrder.

Lemma lower_char_idem (c : ascii) : lower_char (lower_char c) = lower_char c.
Proof. destruct c as [[] [] [] [] [] [] [] []]; reflexivity. Qed.

Lemma lower_idem (s : string) : lower (lower s) = lower s.
Proof.
  induction s as [|c s IH]; simpl; [reflexivity|].
  now rewrite lower_char_idem, IH.
Qed.

Lemma compare_lt_trans (a b c : string) :
  String.compare a b = Lt -> String.compare b c = Lt -> String.compare a c = Lt.
Proof.
  revert b c. induction a as [|x a IH]; intros [|y b] [|z c]; simpl;
    try discriminate; try reflexivity.
  unfold Ascii.compare.
  destruct (N.compare_spec (N_of_ascii x) (N_of_ascii y)) as [Exy|Lxy|Gxy];
    try discriminate;
    destruct (N.compare_spec (N_of_ascii y) (N_of_ascii z)) as [Eyz|Lyz|Gyz];
    try discriminate; intros H1 H2.
  - rewrite Exy, Eyz, N.compare_refl. now apply (IH b c).
  - rewrite Exy. now apply N.compare_lt_iff in Lyz as ->.
  - rewrite <- Eyz. now apply N.compare_lt_iff in Lxy as ->.
  - assert (N_of_ascii x < N_of_ascii z)%N as Hlt by lia.
    now apply N.compare_lt_iff in Hlt as ->.
Qed.

Lemma ltb_trans (a b c : string) :
  String.ltb a b = true -> String.ltb b c = true -> String.ltb a c = true.
Proof.
  unfold String.ltb. intros H1 H2.
  destruct (String.compare a b) eqn:E1; try discriminate.
  destruct (String.compare b c) eqn:E2; try discriminate.
  now rewrite (compare_lt_trans a b c E1 E2).
Qed.

Lemma tuple_le_trans (a b c : string * Z) :
  tuple_le a b -> tuple_le b c -> tuple_le a c.
Proof.
  unfold tuple_le. intros [H1 | [E1 L1]] [H2 | [E2 L2]].
  - left. eauto using ltb_trans.
  - left. now rewrite <- E2.
  - left. now rewrite E1.
  - right. split; [congruence | lia].
Qed.

(** The two outcomes of the comparison [insert_sorted] makes. *)
Lemma tuple_lt_true (y x : string * Z) : tuple_lt y x = true -> tuple_le y x.
Proof.
  unfold tuple_lt, tuple_le. intros H.
  apply orb_true_iff in H as [H | H]; [now left|].
  apply andb_true_iff in H as [He Hl]. right.
  apply String.eqb_eq in He. split; [exact He | lia].
Qed.

Lemma tuple_lt_false (y x : string * Z) : tuple_lt y x = false -> tuple_le x y.
Proof.
  unfold tuple_lt, tuple_le, String.ltb. intros H.
  apply orb_false_iff in H as [Hlt H].
  destruct (String.compare (fst y) (fst x)) eqn:E; try discriminate.
  - apply String.compare_eq_iff in E. right. rewrite E in H.
    rewrite String.eqb_refl in H. simpl in H. split; [congruence | lia].
  - left. rewrite String.compare_antisym, E. reflexivity.
Qed.

Lemma insert_sorted_perm (x : string * Z) (l : list (string * Z)) :
  Permutation (insert_sorted x l) (x :: l).
Proof.
  induction l as [|y l IH]; simpl; [reflexivity|].
  destruct (tuple_lt y x); [|reflexivity].
  rewrite IH. apply perm_swap.
Qed.

Lemma sorted_perm (l : list (string * Z)) : Permutation (sorted l) l.
Proof.
  induction l as [|x l IH]; simpl; [reflexivity|].
  rewrite insert_sorted_perm. now constructor.
Qed.

Lemma insert_sorted_sorted (x : string * Z) (l : list (string * Z)) :
  StronglySorted tuple_le l -> StronglySorted tuple_le (insert_sorted x l).
Proof.
  induction 1 as [|y l Hs IH Hy]; simpl.
  - repeat constructor.
  - destruct (tuple_lt y x) eqn:E.
    + constructor; [exact IH|].
      rewrite (insert_sorted_perm x l). constructor; [|exact Hy].
      now apply tuple_lt_true.
    + apply tuple_lt_false in E. constructor.
      * now constructor.
      * constructor; [exact E|].
        eapply Forall_impl; [exact Hy|]. intros z Hz.
        eauto using tuple_le_trans.
Qed.

Lemma sorted_sorted (l : list (string * Z)) : StronglySorted tuple_le (sorted l).
Proof.
  induction l as [|x l IH]; simpl; [constructor | now apply insert_sorted_sorted].
Qed.

Lemma public_repos_source (repodata : list repo) :
  Forall (source_of repodata) (public_repos repodata).
Proof.
  apply Forall_forall. intros p Hp. apply list_elem_of_In in Hp.
  unfold public_repos in Hp. apply in_map_iff in Hp as (r & <- & Hr).
  apply list_elem_of_In, list_elem_of_filter in Hr as [Hpub Hr].
  apply andb_true_iff in Hpub as [H1 H2].
  exists r. rewrite <- list_elem_of_In.
  repeat split; try assumption; now apply negb_true_iff.
Qed.

(** C8: the catalog is a rearrangement of the lower-cased (name, size)
    pairs of the records that are neither private nor forks, so every
    entry comes from such a record; every name is lower-case; and the
    list ascends by name and, on equal names, by size. *)
Theorem repolist_filtered_lowered_sorted (repodata : list repo) :
  Permutation (repolist repodata) (public_repos repodata)
  /\ Forall (source_of repodata) (repolist repodata)
  /\ Forall (fun p => lower (fst p) = fst p) (repolist repodata)
  /\ StronglySorted tuple_le (repolist repodata).
Proof.
  assert (Hperm : Permutation (repolist repodata) (public_repos repodata))
    by apply sorted_perm.
  split; [exact Hperm|]. split; [|split].
  - rewrite Hperm. apply public_repos_source.
  - rewrite Hperm. eapply Forall_impl; [apply public_repos_source|].
    intros p (r & _ & _ & _ & Hn & _). rewrite Hn. apply lower_idem.
  - apply sorted_sorted.
Qed.

End CatalogSpec.

(* ===================================================================== *)
(** ** The keyword scanner                                               *)
(* ===================================================================== *)

Module ScannerSpec.

Import PyStr PyStrFacts Search ScanSpec.

(** [count] is the left-to-right count of occurrences that do not
    overlap: after an occurrence the scan resumes behind it, and where the
    keyword does not start the scan moves one character on. *)
Lemma count_from_skip (sub p s : string) :
  count_from sub (String.length p) (p +:+ s) = count_from sub 0 s.
Proof. induction p as [|c p IH]; simpl; [reflexivity | exact IH]. Qed.

Lemma startswith_append (p s : string) : startswith p (p +:+ s) = true.
Proof.
  induction p as [|c p IH]; simpl; [reflexivity|].
  now rewrite Ascii.eqb_refl, IH.
Qed.

Lemma count_occurrence (sub s : string) :
  sub <> EmptyString -> count sub (sub +:+ s) = 1 + count sub s.
Proof.
  destruct sub as [|a sub]; [congruence|]. intros _.
  unfold count. change (String a sub +:+ s) with (String a (sub +:+ s)).
  cbn [count_from].
  change (String a (sub +:+ s)) with (String a sub +:+ s).
  rewrite startswith_append.
  replace (String.length (String a sub) - 1)%nat with (String.length sub)
    by (simpl; lia).
  now rewrite count_from_skip.
Qed.

Lemma count_no_occurrence (sub : string) (c : ascii) (s : string) :
  sub <> EmptyString -> startswith sub (String c s) = false ->
  count sub (String c s) = count sub s.
Proof.
  destruct sub as [|a sub]; [congruence|]. intros _ H.
  unfold count. cbn [count_from]. now rewrite H.
Qed.

Lemma count_empty_text (sub : string) : sub <> EmptyString -> count sub EmptyString = 0.
Proof. destruct sub; [congruence | reflexivity]. Qed.

Lemma lower_nonempty (w : string) : w <> EmptyString -> lower w <> EmptyString.
Proof. destruct w; [congruence | discriminate]. Qed.

Section Scanner.

Variable cfg : settings.

(** The loop of [search_file] from a dictionary whose total is [t]. *)
Lemma count_words_fold (text : string) (ws : list string) :
  "*TOTAL*" ∉ ws ->
  forall (d : gmap string pyval) (t : Z),
    d !! "*TOTAL*" = Some (VInt t) ->
    exists d',
      fold_left (count_word (lower text)) ws (Ok d) = Ok d'
      /\ d' !! "*TOTAL*" = Some (VInt (t + total_count text ws))
      /\ Forall (fun w => d' !! w = Some (VInt (word_count text w))) ws
      /\ (forall k, k ∉ ws -> k <> "*TOTAL*" -> d' !! k = d !! k).
Proof.
  induction ws as [|w ws IH]; intros Hnot d t Hd.
  - exists d. simpl. rewrite Z.add_0_r. repeat split; auto.
  - apply not_elem_of_cons in Hnot as [Hw Hnot].
    set (c := word_count text w).
    set (d1 := <["*TOTAL*" := VInt (t + c)]> (<[w := VInt c]> d)).
    assert (Hstep : count_word (lower text) (Ok d) w = Ok d1).
    { unfold count_word, iadd, getitem. simpl.
      rewrite lookup_insert_ne by congruence. rewrite Hd. reflexivity. }
    destruct (IH Hnot d1 (t + c)) as (d' & Hfold & Htot & Hall & Hother).
    { unfold d1. apply lookup_insert_eq. }
    exists d'. cbn [fold_left]. rewrite Hstep. split; [exact Hfold|].
    split; [|split].
    + rewrite Htot. simpl. fold c. f_equal. f_equal. lia.
    + constructor; [|exact Hall].
      destruct (decide (w ∈ ws)) as [Hin | Hout].
      * rewrite Forall_forall in Hall. now apply Hall.
      * rewrite (Hother w Hout) by congruence. unfold d1.
        rewrite lookup_insert_ne by congruence. apply lookup_insert_eq.
    + intros k Hk Hk'. apply not_elem_of_cons in Hk as [Hkw Hk].
      rewrite (Hother k Hk Hk'). unfold d1.
      rewrite lookup_insert_ne by congruence.
      now rewrite lookup_insert_ne by congruence.
Qed.

(** What [search_file] returns when [*TOTAL*] is no keyword. *)
Lemma search_file_ok (filename text : string) :
  "*TOTAL*" ∉ words cfg ->
  exists hits,
    search_file cfg filename text = Ok hits
    /\ hits !! "*TOTAL*" = Some (VInt (total_count text (words cfg)))
    /\ Forall (fun w => hits !! w = Some (VInt (word_count text w))) (words cfg)
    /\ (forall k, k ∉ words cfg -> k <> "*TOTAL*" ->
        hits !! k = (<["filename" := VStr filename]> ∅ : gmap string pyval) !! k).
Proof.
  intros Hnot. unfold search_file.
  destruct (count_words_fold text (words cfg) Hnot
              (<["*TOTAL*" := VInt 0]> (<["filename" := VStr filename]> ∅)) 0)
    as (d' & Hfold & Htot & Hall & Hother).
  { apply lookup_insert_eq. }
  exists d'. repeat split; try assumption.
  intros k Hk Hk'. rewrite (Hother k Hk Hk').
  now rewrite lookup_insert_ne by congruence.
Qed.

Lemma total_count_empty (ws : list string) :
  Forall (fun w => w <> EmptyString) ws -> total_count EmptyString ws = 0.
Proof.
  induction 1 as [|w ws Hw _ IH]; simpl; [reflexivity|].
  rewrite IH. unfold word_count. simpl lower at 2.
  rewrite count_empty_text by now apply lower_nonempty. reflexivity.
Qed.

End Scanner.

(** C9, as amended: when the reserved key [*TOTAL*] is not among the
    keywords, the scanner returns for every keyword the number of
    non-overlapping occurrences of the lower-cased keyword in the
    lower-cased content, and a total that is the sum of these counts over
    the keyword list; for empty content and keywords that are not empty,
    every count and the total are 0. *)
Theorem search_file_counts (cfg : settings) (filename text : string) :
  "*TOTAL*" ∉ words cfg ->
  exists hits,
    search_file cfg filename text = Ok hits
    /\ Forall (fun w => hits !! w = Some (VInt (count (lower w) (lower text))))
              (words cfg)
    /\ hits !! "*TOTAL*" = Some (VInt (total_count text (words cfg)))
    /\ (text = EmptyString -> Forall (fun w => w <> EmptyString) (words cfg) ->
        Forall (fun w => hits !! w = Some (VInt 0)) (words cfg)
        /\ hits !! "*TOTAL*" = Some (VInt 0)).
Proof.
  intros Hnot.
  destruct (search_file_ok cfg filename text Hnot) as (hits & Hok & Htot & Hall & _).
  exists hits. split; [exact Hok|]. split; [exact Hall|]. split; [exact Htot|].
  intros -> Hne. split.
  - rewrite Forall_forall in Hall, Hne. apply Forall_forall. intros w Hw.
    rewrite (Hall w Hw). unfold word_count. simpl lower at 2.
    rewrite count_empty_text; [reflexivity|]. apply lower_nonempty. now apply Hne.
  - rewrite Htot. now rewrite total_count_empty.
Qed.

(** Content [FooFooFoo] scanned for [foo] gives 3, and 3 in total. *)
Lemma search_file_counts_witness :
  exists hits,
    search_file (config "/cache" ["foo"] [".txt"]) "/cache/o/r/a.txt" "FooFooFoo"
    = Ok hits
    /\ hits !! "foo" = Some (VInt 3)
    /\ hits !! "*TOTAL*" = Some (VInt 3).
Proof.
  destruct (search_file_counts (config "/cache" ["foo"] [".txt"])
              "/cache/o/r/a.txt" "FooFooFoo") as (hits & Hok & Hall & Htot & _).
  - simpl. rewrite list_elem_of_In. simpl. intuition discriminate.
  - exists hits. split; [exact Hok|]. split; [|exact Htot].
    now apply Forall_inv in Hall.
Defined.

(** C9 as stated fails for two keyword lists.  With the keyword [*TOTAL*]
    the total is overwritten on the way: the counts are 2 and 1 and the
    total is 2.  And the empty keyword occurs once in empty content. *)
Lemma search_file_reserved_or_empty_keyword :
  (exists hits,
     search_file (config "/cache" ["x"; "*TOTAL*"] [".txt"]) "f.txt" "x X *Total*"
     = Ok hits
     /\ count (lower "x") (lower "x X *Total*") = 2
     /\ count (lower "*TOTAL*") (lower "x X *Total*") = 1
     /\ hits !! "*TOTAL*" = Some (VInt 2))
  /\ (exists hits,
        search_file (config "/cache" [EmptyString] [".txt"]) "f.txt" EmptyString
        = Ok hits
        /\ hits !! EmptyString = Some (VInt 1)
        /\ hits !! "*TOTAL*" = Some (VInt 1)).
Proof.
  split; eexists; (split; [reflexivity|]); repeat split; reflexivity.
Qed.

End ScannerSpec.

(* ===================================================================== *)
(** ** The paginated collector                                           *)
(* ===================================================================== *)

Module CollectorSpec.

Import PyStr Utils Pages.

Section Collector.

Context {A : Type}.
Variable cfg : settings.
Variable server : request -> response A.

Lemma update_ratelimit_readable (r : response A) (st : State) :
  ratelimit_readable r = true ->
  exists st', update_ratelimit r st = (st', Ok tt) /\ verbose st' = verbose st.
Proof.
  unfold ratelimit_readable, update_ratelimit. intros H.
  destruct (x_ratelimit_limit r) as [t1|]; [|eexists; split; reflexivity].
  destruct (py_int t1) as [v1|]; [|discriminate].
  destruct (x_ratelimit_remaining r) as [t2|]; [|eexists; split; reflexivity].
  destruct (py_int t2) as [v2|]; [|discriminate].
  eexists; split; reflexivity.
Qed.

(** One call of the client for a page that is served; without a state
    object there is none afterwards either. *)
Lemma rest_api_page (u : string) (r : response A) auth headers state sess :
  u <> EmptyString -> serves server u r -> headers_accepted state r ->
  exists out state',
    github_rest_api cfg server (VStr u) auth headers state sess
    = (out, state', Ok (Some r))
    /\ (state = None -> state' = None).
Proof.
  intros Hu Hserves Hacc. unfold github_rest_api.
  assert (Ht : truthy (VStr u) = true).
  { simpl. destruct u; [congruence | reflexivity]. }
  rewrite Ht. cbn [negb].
  rewrite Hserves by reflexivity.
  destruct state as [st0|].
  - destruct Hacc as [Hnone | Hread]; [discriminate|].
    assert (Hpick : exists st, forall a, pick_session a (Some st0) sess = Some (st a)).
    { unfold pick_session. destruct sess; eexists (fun _ => _); intros a; reflexivity. }
    destruct Hpick as (st & Hpick). rewrite Hpick.
    match goal with |- context [update_ratelimit r ?s] =>
      destruct (update_ratelimit_readable r s Hread) as (st' & -> & _) end.
    destruct (verbose st'); do 2 eexists; (split; [reflexivity | discriminate]).
  - assert (Hpick : forall a, pick_session a None sess = None)
      by (intros a; unfold pick_session; now destruct sess).
    rewrite Hpick. do 2 eexists. split; reflexivity.
Qed.

Lemma accepted_after (state state' : option State) (pages : list (page A)) :
  (state = None -> state' = None) ->
  pages_accepted state pages -> pages_accepted state' pages.
Proof.
  intros Hnone Hacc. unfold pages_accepted in *.
  eapply Forall_impl; [exact Hacc|].
  intros p [H | H]; [left; auto | now right].
Qed.

Lemma ok_200 (r : response A) : status_code r = 200 -> ok r = true.
Proof. unfold ok. now intros ->. Qed.

(** The loop, started at the first page of a chain with [payload]
    collected so far, ends with the elements of the chain appended. *)
Lemma allpages_loop_chain (endpoint : pyval) auth headers sess (more : list (page A)) :
  forall (first : page A) (fuel : nat) (payload : list A) state out,
    page_chain server (first :: more) ->
    pages_accepted state (first :: more) ->
    (length (first :: more) <= fuel)%nat ->
    exists out' state',
      allpages_loop cfg server fuel endpoint auth headers sess payload
        (VStr (page_url first)) state out
      = Some (out', state', Ok (payload ++ concat (map page_elems (first :: more)))).
Proof.
  induction more as [|p rest IH];
    intros [[u r] elems] fuel payload state out
      (Hu & Hserves & (Hstatus & Hjson) & Hnext & Hrest) Hacc Hfuel;
    (destruct fuel as [|fuel]; [simpl in Hfuel; lia|]);
    cbn [page_url fst allpages_loop];
    apply Forall_cons_1 in Hacc as [Hread Hacc]; cbn [page_resp fst snd] in Hread;
    destruct (rest_api_page u r auth headers state sess Hu Hserves Hread)
      as (out1 & state1 & -> & Hnone);
    rewrite (ok_200 r Hstatus), Hjson; unfold getitem; rewrite Hnext;
    cbn [map concat page_elems snd].
  - cbn [truthy]. rewrite app_nil_r. eauto.
  - assert (Hp : page_url p <> EmptyString).
    { destruct p as [[u' r'] e']. now destruct Hrest as (Hu' & _). }
    assert (Ht : truthy (VStr (page_url p)) = true).
    { simpl. destruct (page_url p); [congruence | reflexivity]. }
    rewrite Ht.
    edestruct (IH p fuel (payload ++ elems)) as (out' & state' & Hloop);
      [exact Hrest | exact (accepted_after state state1 _ Hnone Hacc)
       | simpl in Hfuel |- *; lia |].
    rewrite Hloop. cbn [map concat]. rewrite <- app_assoc. eauto.
Qed.

End Collector.

(** C7, as amended: for a chain of successful pages in which every page
    advertises the next one and the last advertises none, and, when the
    collector has a state object, with rate-limit headers that [int()]
    accepts, the collector, given at least as many turns as there are
    pages, returns the elements of the pages in page order, as many as
    the pages hold together. *)
Theorem allpages_concatenates {A : Type} (cfg : settings)
    (server : request -> response A) (first : page A) (more : list (page A))
    auth headers state sess (fuel : nat) :
  page_chain server (first :: more) ->
  pages_accepted state (first :: more) ->
  (length (first :: more) <= fuel)%nat ->
  exists out state',
    github_allpages cfg server fuel (VStr (page_url first)) auth headers state sess
    = Some (out, state', Ok (concat (map page_elems (first :: more))))
    /\ length (concat (map page_elems (first :: more)))
       = sum_list (map (fun p => length (page_elems p)) (first :: more)).
Proof.
  intros Hchain Hacc Hfuel. unfold github_allpages.
  destruct (allpages_loop_chain cfg server (VStr (page_url first)) auth headers sess
              more first fuel [] state [] Hchain Hacc Hfuel)
    as (out & state' & Hloop).
  exists out, state'. split; [exact Hloop|].
  generalize (first :: more). intros l.
  induction l as [|p l IH]; simpl; [reflexivity|].
  rewrite length_app, IH. reflexivity.
Qed.

Lemma allpages_concatenates_witness :
  exists out state',
    github_allpages (ScanSpec.config "/cache" [] []) two_pages 2 (VStr url1)
      None ∅ (Some quiet) None
    = Some (out, state', Ok ["alpha"; "beta"; "gamma"])
    /\ length ["alpha"; "beta"; "gamma"] = 3%nat.
Proof.
  apply (allpages_concatenates (ScanSpec.config "/cache" [] []) two_pages
           (url1, resp1, ["alpha"; "beta"]) [(url2, resp2, ["gamma"])]
           None ∅ (Some quiet) None 2).
  - assert (H1 : serves two_pages url1 resp1).
    { intros req Hreq. unfold two_pages. now rewrite Hreq. }
    assert (H2 : serves two_pages url2 resp2).
    { intros req Hreq. unfold two_pages. now rewrite Hreq. }
    simpl. unfold successful.
    repeat split; try reflexivity; try discriminate; assumption.
  - repeat constructor; right; reflexivity.
  - simpl. lia.
Defined.

(** C7 as stated fails: a page with status 200 and no [next] link is a
    chain of one successful page, but with a state object and a limit
    header that is no number the collector raises ValueError instead of
    returning the page's elements. *)
Lemma allpages_unreadable_limit_raises :
  page_chain (fun _ => unlimited) [(url1, unlimited, ["alpha"])]
  /\ github_allpages (ScanSpec.config "/cache" [] []) (fun _ => unlimited) 5
       (VStr url1) None ∅ (Some quiet) None
     = Some ([cr +:+ "GitHub API called: " +:+ url1],
             Some {| verbose := false;
                     requests_session := Some {| sess_auth := Some ("user", "token") |};
                     last_ratelimit := 0; last_remaining := 0 |},
             Raise ValueError).
Proof.
  split; [|reflexivity].
  simpl. unfold successful.
  repeat split; try reflexivity; try discriminate.
Qed.

End CollectorSpec.

(* ===================================================================== *)
(** ** The tree aggregator                                               *)
(* ===================================================================== *)

Module AggregatorSpec.

Import PyStr PyStrFacts Search ScanSpec WalkSpec ScannerSpec.

Section Accumulator.

Variable cfg : settings.
Variable fl : OsPath.flavour.
Variable fs : Utils.filesys.
Hypothesis Hwf : wf_settings cfg.

(** The loop of [empty_repo_totals] sets the keywords to 0 and leaves the
    other keys alone. *)
Lemma zero_fold (ws : list string) (d : gmap string pyval) (k : string) :
  fold_left (fun temp word => <[word := VInt 0]> temp) ws d !! k
  = if decide (k ∈ ws) then Some (VInt 0) else d !! k.
Proof.
  revert d. induction ws as [|w ws IH]; intros d; simpl.
  - destruct (decide (k ∈ [])) as [H|_]; [inversion H | reflexivity].
  - rewrite IH. destruct (decide (k ∈ ws)) as [Hin|Hout].
    + rewrite decide_True by now right. reflexivity.
    + destruct (decide (k = w)) as [->|Hne].
      * rewrite decide_True by now left. apply lookup_insert_eq.
      * rewrite decide_False by (intros H; apply elem_of_cons in H; tauto).
        now apply lookup_insert_ne.
Qed.

Lemma represents_fresh (root : string) :
  represents cfg (<["folder" := VStr root]> (empty_repo_totals cfg)) root [].
Proof.
  destruct Hwf as (Htot & Hfol & _). unfold represents, empty_repo_totals.
  split; [apply lookup_insert_eq|]. split.
  - rewrite lookup_insert_ne by discriminate. rewrite zero_fold.
    rewrite decide_False by exact Htot. apply lookup_insert_eq.
  - apply Forall_forall. intros w Hw.
    rewrite lookup_insert_ne by (intros <-; contradiction).
    rewrite zero_fold, decide_True by exact Hw.
    unfold repo_count. simpl. now rewrite Z.mul_0_r.
Qed.

Lemma represents_empty : represents cfg (empty_repo_totals cfg) EmptyString [].
Proof.
  destruct Hwf as (Htot & Hfol & _). unfold represents, empty_repo_totals.
  split; [|split].
  - rewrite zero_fold, decide_False by exact Hfol.
    rewrite lookup_insert_ne by discriminate. apply lookup_insert_eq.
  - rewrite zero_fold, decide_False by exact Htot. apply lookup_insert_eq.
  - apply Forall_forall. intros w Hw. rewrite zero_fold, decide_True by exact Hw.
    unfold repo_count. simpl. now rewrite Z.mul_0_r.
Qed.

Lemma occ_not_in (w : string) (ws : list string) : w ∉ ws -> occ w ws = 0.
Proof.
  induction ws as [|x ws IH]; [reflexivity|]. intros H.
  apply not_elem_of_cons in H as [Hne Hout]. simpl.
  destruct (String.eqb_spec x w) as [->|_]; [congruence|]. now rewrite IH.
Qed.

(** The loop of [repo_totals[word] += hits[word]]: a keyword gets its
    hits once for every time it is listed. *)
Lemma add_fold (hits : gmap string pyval) (h : string -> Z) (ws : list string) :
  Forall (fun w => hits !! w = Some (VInt (h w))) ws ->
  forall acc : gmap string pyval,
    Forall (fun w => exists z, acc !! w = Some (VInt z)) ws ->
    exists acc',
      fold_left (fun r word =>
                   let! t := r in
                   let! x := getitem hits word in
                   iadd t word x) ws (Ok acc) = Ok acc'
      /\ (forall k z, acc !! k = Some (VInt z) -> k ∈ ws ->
          acc' !! k = Some (VInt (z + occ k ws * h k)))
      /\ (forall k, k ∉ ws -> acc' !! k = acc !! k).
Proof.
  induction 1 as [|w ws Hhw Hh IH]; intros acc Ha.
  - exists acc. split; [reflexivity|]. split; [|auto].
    intros k z _ Hk. inversion Hk.
  - apply Forall_cons in Ha as [(z0 & Haw) Ha].
    set (acc1 := <[w := VInt (z0 + h w)]> acc).
    assert (Ha1 : Forall (fun w0 => exists z, acc1 !! w0 = Some (VInt z)) ws).
    { rewrite Forall_forall in Ha. apply Forall_forall. intros w0 Hw0.
      unfold acc1. destruct (decide (w = w0)) as [<-|Hne].
      - rewrite lookup_insert_eq. eauto.
      - rewrite lookup_insert_ne by exact Hne. now apply Ha. }
    destruct (IH acc1 Ha1) as (acc' & Hfold & Hin & Hother).
    exists acc'. split; [|split].
    + cbn [fold_left]. unfold bind at 2 3. unfold getitem at 2. rewrite Hhw.
      unfold iadd, getitem. rewrite Haw. exact Hfold.
    + intros k z Hk Hkin. cbn [occ].
      destruct (String.eqb_spec w k) as [<-|Hne].
      * rewrite Haw in Hk. injection Hk as <-.
        destruct (decide (w ∈ ws)) as [Hw|Hw].
        -- rewrite (Hin w (z0 + h w)); [do 2 f_equal; ring | apply lookup_insert_eq | exact Hw].
        -- rewrite (Hother w Hw), (occ_not_in w ws Hw). unfold acc1.
           rewrite lookup_insert_eq. do 2 f_equal. ring.
      * apply elem_of_cons in Hkin as [->|Hkin]; [congruence|].
        rewrite (Hin k z); [reflexivity | | exact Hkin].
        unfold acc1. now rewrite lookup_insert_ne.
    + intros k Hk. apply not_elem_of_cons in Hk as [Hkw Hk].
      rewrite (Hother k Hk). unfold acc1. now apply lookup_insert_ne.
Qed.

(** The loop of [line += f",{data[word]}"]. *)
Lemma columns_fold (data : gmap string pyval) (f : string -> Z) (ws : list string) :
  Forall (fun w => data !! w = Some (VInt (f w))) ws ->
  forall line : string,
    fold_left (fun acc word =>
                 let! l := acc in
                 let! v := getitem data word in
                 Ok (l +:+ "," +:+ show v)) ws (Ok line)
    = Ok (line +:+ columns f ws).
Proof.
  induction 1 as [|w ws Hw _ IH]; intros line.
  - simpl. now rewrite append_nil_r.
  - assert (Hstep : (let! l := Ok line in
                      let! v := getitem data w in
                      Ok (l +:+ "," +:+ show v))
                     = Ok (line +:+ "," +:+ str_of_Z (f w))).
    { unfold getitem. now rewrite Hw. }
    cbn [fold_left columns foldr]. rewrite Hstep, IH.
    f_equal. now rewrite !append_assoc.
Qed.

Lemma add_columns_ok (data : gmap string pyval) (f : string -> Z) (line : string) :
  Forall (fun w => data !! w = Some (VInt (f w))) (words cfg) ->
  add_columns cfg data line = Ok (line +:+ columns f (words cfg)).
Proof. intros H. unfold add_columns. now apply columns_fold. Qed.

(** [write_repo] on an accumulator. *)
Lemma write_repo_ok (file : list string) (acc : gmap string pyval)
    (root : string) (files : list (string * string)) :
  represents cfg acc root files ->
  write_repo cfg fl fs file acc = Ok (file ++ repo_row cfg fl fs root files).
Proof.
  intros (Hfol & Htot & Hall). unfold write_repo, repo_row, getitem.
  rewrite Htot. cbn [bind is_zero].
  destruct (tally_total cfg files =? 0); [now rewrite app_nil_r|].
  rewrite Hfol. cbn [bind latest_commit_of file_url_of].
  rewrite (add_columns_ok acc (repo_count cfg files) _ Hall). cbn [bind show].
  do 3 f_equal. now rewrite !append_assoc.
Qed.

Lemma tally_app (files more : list (string * string)) (w : string) :
  tally (files ++ more) w = tally files w + tally more w.
Proof.
  unfold tally. induction files as [|f files IH]; simpl; [reflexivity|].
  rewrite IH. lia.
Qed.

Lemma tally_total_app (files more : list (string * string)) :
  tally_total cfg (files ++ more) = tally_total cfg files + tally_total cfg more.
Proof.
  unfold tally_total. induction files as [|f files IH]; simpl; [reflexivity|].
  rewrite IH. lia.
Qed.

(** [write_matches] on the result of [search_file]. *)
Lemma write_matches_ok (file : list string) (hits : gmap string pyval)
    (fullname text : string) :
  hits !! "filename" = Some (VStr fullname) ->
  hits !! "*TOTAL*" = Some (VInt (total_count text (words cfg))) ->
  Forall (fun w => hits !! w = Some (VInt (word_count text w))) (words cfg) ->
  write_matches cfg file hits = Ok (file ++ [match_row cfg (fullname, text)]).
Proof.
  intros Hname Htot Hall. unfold write_matches, getitem.
  rewrite Hname. cbn [bind file_url_of].
  rewrite (add_columns_ok hits (word_count text) _ Hall). cbn [bind].
  rewrite Htot. cbn [bind show]. unfold match_row. cbn [fst snd].
  do 3 f_equal. now rewrite !append_assoc.
Qed.

(** One file of a directory. *)
Lemma scan_file_ok (dir : string) (f : string * string) (s : run)
    (root : string) (files : list (string * string)) (mrows rrows : list string) :
  holds cfg s root files mrows rrows ->
  exists s',
    scan_file cfg fl dir (Ok s) f = Ok s'
    /\ holds cfg s' root (files ++ counted cfg fl dir f)
         (mrows ++ map (match_row cfg) (counted cfg fl dir f)) rrows.
Proof.
  intros (Hrep & Hm & Hr). pose proof Hwf as (Htot & Hfol & Hname).
  unfold scan_file, counted. cbn [bind]. fold (searched cfg (fst f)).
  destruct (searched cfg (fst f)); cbn [andb];
    [|exists s; split; [reflexivity|]; cbn [map]; rewrite !app_nil_r;
      split; [exact Hrep | split; assumption]].
  destruct (search_file_ok cfg (OsPath.join fl dir (fst f)) (snd f) Htot)
    as (hits & -> & Hhtot & Hhall & Hhother).
  cbn [bind]. unfold getitem at 1. rewrite Hhtot. cbn [bind positive].
  destruct (0 <? total_count (snd f) (words cfg));
    [|exists s; split; [reflexivity|]; cbn [map]; rewrite !app_nil_r;
      split; [exact Hrep | split; assumption]].
  assert (Hhname : hits !! "filename" = Some (VStr (OsPath.join fl dir (fst f)))).
  { rewrite (Hhother "filename" Hname) by discriminate. apply lookup_insert_eq. }
  rewrite (write_matches_ok _ hits _ (snd f) Hhname Hhtot Hhall). cbn [bind].
  destruct Hrep as (Hafol & Hatot & Haall).
  destruct (add_fold hits (word_count (snd f)) (words cfg) Hhall (repo_totals s))
    as (acc1 & Hadd & Hall1 & Hother1).
  { eapply Forall_impl; [exact Haall|]. cbv beta. eauto. }
  unfold add_hits. rewrite Hadd. cbn [bind].
  unfold iadd, getitem. rewrite (Hother1 "*TOTAL*" Htot), Hatot. cbn [bind py_add].
  eexists. split; [reflexivity|].
  split; [|cbn [matches_file repos_file]; now rewrite Hm].
  cbn [repo_totals]. split; [|split].
  - rewrite lookup_insert_ne by discriminate. now rewrite (Hother1 "folder" Hfol).
  - rewrite lookup_insert_eq, tally_total_app. simpl. do 2 f_equal. lia.
  - rewrite Forall_forall in Haall. apply Forall_forall. intros w Hw.
    rewrite lookup_insert_ne by (intros <-; contradiction).
    rewrite (Hall1 w _ (Haall w Hw) Hw). unfold repo_count.
    rewrite tally_app. simpl. do 2 f_equal. ring.
Qed.

(** All files of a directory. *)
Lemma scan_files_ok (dir : string) (fs' : list (string * string)) :
  forall (s : run) (root : string) (files : list (string * string))
         (mrows rrows : list string),
    holds cfg s root files mrows rrows ->
    exists s',
      fold_left (scan_file cfg fl dir) fs' (Ok s) = Ok s'
      /\ holds cfg s' root (files ++ concat (map (counted cfg fl dir) fs'))
           (mrows ++ map (match_row cfg) (concat (map (counted cfg fl dir) fs')))
           rrows.
Proof.
  induction fs' as [|f fs' IH]; intros s root files mrows rrows Hs.
  - exists s. split; [reflexivity|]. simpl. now rewrite !app_nil_r.
  - destruct (scan_file_ok dir f s root files mrows rrows Hs) as (s1 & Hstep & Hs1).
    destruct (IH s1 _ _ _ _ Hs1) as (s' & Hfold & Hs').
    exists s'. cbn [fold_left]. rewrite Hstep. split; [exact Hfold|].
    cbn [map concat]. rewrite map_app, !app_assoc. exact Hs'.
Qed.

Lemma counted_files (dir : string) (fs' : list (string * string)) :
  concat (map (counted cfg fl dir) fs')
  = map (fun f => (OsPath.join fl dir (fst f), snd f))
        (filter (fun f => searched cfg (fst f)
                          && (0 <? total_count (snd f) (words cfg)) = true) fs').
Proof.
  induction fs' as [|f fs' IH]; [reflexivity|].
  cbn [map concat]. rewrite filter_cons, IH. unfold counted.
  destruct (searched cfg (fst f) && (0 <? total_count (snd f) (words cfg))).
  - rewrite decide_True by reflexivity. reflexivity.
  - rewrite decide_False by discriminate. reflexivity.
Qed.

(** A repository root closes the open accumulator and opens a fresh one. *)
Lemma open_repo_root (dir : string) (s : run) (root : string)
    (files : list (string * string)) (mrows rrows : list string) :
  holds cfg s root files mrows rrows -> repo_folder cfg dir = true ->
  exists s',
    open_repo cfg fl fs dir s = Ok s'
    /\ holds cfg s' dir [] mrows
         (rrows ++ if String.eqb root EmptyString then []
                   else repo_row cfg fl fs root files).
Proof.
  intros (Hrep & Hm & Hr) Hdir. unfold open_repo. rewrite Hdir.
  pose proof Hrep as (Hfol & _). unfold getitem. rewrite Hfol. cbn [bind truthy].
  destruct (String.eqb root EmptyString); cbn [negb].
  - cbn [bind]. eexists. split; [reflexivity|].
    split; [apply represents_fresh|]. cbn. now rewrite app_nil_r.
  - rewrite (write_repo_ok _ _ _ _ Hrep). cbn [bind].
    eexists. split; [reflexivity|].
    split; [apply represents_fresh|]. cbn. now rewrite Hr.
Qed.

Lemma open_repo_other (dir : string) (s : run) :
  repo_folder cfg dir = false -> open_repo cfg fl fs dir s = Ok s.
Proof. intros H. unfold open_repo. now rewrite H. Qed.

(** One turn of the loop over the walk. *)
Lemma visit_dir_ok (v : visit) (s : run) (root : string)
    (files : list (string * string)) (mrows rrows : list string) :
  holds cfg s root files mrows rrows ->
  exists s',
    visit_dir cfg fl fs (Ok s) v = Ok s'
    /\ if detected cfg v
       then holds cfg s' (v_root v) (hit_files cfg fl v)
              (mrows ++ map (match_row cfg) (hit_files cfg fl v))
              (rrows ++ if String.eqb root EmptyString then []
                        else repo_row cfg fl fs root files)
       else holds cfg s' root (files ++ hit_files cfg fl v)
              (mrows ++ map (match_row cfg) (hit_files cfg fl v)) rrows.
Proof.
  intros Hs. unfold visit_dir, detected, hit_files. cbn [bind].
  destruct (skipped (v_root v)); cbn [negb andb].
  - exists s. split; [reflexivity|]. cbn [map]. now rewrite !app_nil_r.
  - rewrite <- counted_files.
    destruct (repo_folder cfg (v_root v)) eqn:Hroot.
    + destruct (open_repo_root _ _ _ _ _ _ Hs Hroot) as (s1 & -> & Hs1).
      destruct (scan_files_ok (v_root v) (v_files v) _ _ _ _ _ Hs1) as (s' & -> & Hs').
      exists s'. split; [reflexivity | exact Hs'].
    + rewrite (open_repo_other _ _ Hroot).
      destruct (scan_files_ok (v_root v) (v_files v) _ _ _ _ _ Hs) as (s' & -> & Hs').
      exists s'. split; [reflexivity | exact Hs'].
Qed.

(** The whole loop. *)
Lemma visits_ok (vs : list visit) :
  forall (s : run) (root : string) (files : list (string * string))
         (mrows rrows : list string),
    holds cfg s root files mrows rrows ->
    exists s' root' files' rrows',
      fold_left (visit_dir cfg fl fs) vs (Ok s) = Ok s'
      /\ holds cfg s' root' files'
           (mrows ++ map (match_row cfg) (hits_of cfg fl vs)) rrows'
      /\ rrows' ++ repo_row cfg fl fs root' files'
         = rrows ++ rows_from cfg fl fs root files vs.
Proof.
  induction vs as [|v vs IH]; intros s root files mrows rrows Hs.
  - exists s, root, files, rrows. split; [reflexivity|].
    split; [|reflexivity]. cbn. now rewrite app_nil_r.
  - destruct (visit_dir_ok v s root files mrows rrows Hs) as (s1 & Hstep & Hs1).
    cbn [fold_left rows_from]. rewrite Hstep.
    unfold hits_of. cbn [map concat]. fold (hits_of cfg fl vs).
    rewrite map_app, app_assoc.
    destruct (detected cfg v).
    + destruct (IH _ _ _ _ _ Hs1) as (s' & root' & files' & rrows' & Hfold & Hs' & Hrows).
      exists s', root', files', rrows'. split; [exact Hfold|].
      split; [exact Hs'|]. now rewrite Hrows, app_assoc.
    + destruct (IH _ _ _ _ _ Hs1) as (s' & root' & files' & rrows' & Hfold & Hs' & Hrows).
      exists s', root', files', rrows'. auto.
Qed.

(** The rows of matches.csv and of repos.csv, by the open accumulator. *)
Lemma search_visits_ok (vs : list visit) :
  search_visits cfg fl fs vs
  = Ok (header cfg ",total" :: map (match_row cfg) (hits_of cfg fl vs),
        header cfg ",total,branch,last_commit"
        :: rows_from cfg fl fs EmptyString [] vs).
Proof.
  unfold search_visits.
  destruct (visits_ok vs (start cfg) EmptyString [] [header cfg ",total"]
              [header cfg ",total,branch,last_commit"])
    as (s' & root' & files' & rrows' & -> & (Hrep & Hm & Hr) & Hrows).
  { split; [apply represents_empty | split; reflexivity]. }
  cbn [bind]. rewrite (write_repo_ok _ _ _ _ Hrep). cbn [bind].
  now rewrite Hm, Hr, Hrows.
Qed.

(** No detected root, no segment; the open accumulator collects on. *)
Lemma visits_no_root (vs : list visit) :
  Forall (fun u => detected cfg u = false) vs ->
  forall (s : run) (root : string) (files : list (string * string))
         (mrows rrows : list string),
    holds cfg s root files mrows rrows ->
    exists s',
      fold_left (visit_dir cfg fl fs) vs (Ok s) = Ok s'
      /\ holds cfg s' root (files ++ hits_of cfg fl vs)
           (mrows ++ map (match_row cfg) (hits_of cfg fl vs)) rrows.
Proof.
  induction 1 as [|v vs Hv _ IH]; intros s root files mrows rrows Hs.
  - exists s. split; [reflexivity|]. cbn. now rewrite !app_nil_r.
  - destruct (visit_dir_ok v s root files mrows rrows Hs) as (s1 & Hstep & Hs1).
    rewrite Hv in Hs1. destruct (IH _ _ _ _ _ Hs1) as (s' & Hfold & Hs').
    exists s'. cbn [fold_left]. rewrite Hstep. split; [exact Hfold|].
    unfold hits_of. cbn [map concat]. fold (hits_of cfg fl vs).
    now rewrite map_app, !app_assoc.
Qed.

End Accumulator.

(** *** Repositories of a walk *)

Section Segments.

Variable cfg : settings.
Variable fl : OsPath.flavour.
Variable fs : Utils.filesys.

Lemma repo_folder_empty : repo_folder cfg EmptyString = false.
Proof. unfold repo_folder. now destruct (folder cfg). Qed.

Lemma detected_root (v : visit) :
  detected cfg v = true -> String.eqb (v_root v) EmptyString = false.
Proof.
  unfold detected. intros H. apply andb_true_iff in H as [_ H].
  destruct (String.eqb_spec (v_root v) EmptyString) as [E|]; [|reflexivity].
  rewrite E, repo_folder_empty in H. discriminate.
Qed.

Lemma segments_nil (vs : list visit) : segments cfg vs = [] -> until_root cfg vs = vs.
Proof.
  induction vs as [|v vs IH]; simpl; [reflexivity|].
  destruct (detected cfg v); [discriminate|]. intros H. now rewrite IH.
Qed.

Lemma hits_of_cons (v : visit) (vs : list visit) :
  hits_of cfg fl (v :: vs) = hit_files cfg fl v ++ hits_of cfg fl vs.
Proof. reflexivity. Qed.

Lemma hits_of_app (us vs : list visit) :
  hits_of cfg fl (us ++ vs) = hits_of cfg fl us ++ hits_of cfg fl vs.
Proof. unfold hits_of. now rewrite map_app, concat_app. Qed.

(** The rows written along the loop are the rows of the repositories. *)
Lemma rows_from_segments (vs : list visit) :
  forall (root : string) (files : list (string * string)),
    rows_from cfg fl fs root files vs
    = match segments cfg vs with
      | [] => repo_row cfg fl fs root (files ++ hits_of cfg fl vs)
      | segs =>
          (if String.eqb root EmptyString then []
           else repo_row cfg fl fs root (files ++ hits_of cfg fl (until_root cfg vs)))
          ++ concat (map (fun s => repo_row cfg fl fs (fst s) (hits_of cfg fl (snd s)))
                         segs)
      end.
Proof.
  induction vs as [|v vs IH]; intros root files.
  - cbn. now rewrite app_nil_r.
  - cbn [rows_from segments until_root]. destruct (detected cfg v) eqn:Hd.
    + cbn [map concat fst snd]. rewrite (IH (v_root v) (hit_files cfg fl v)).
      rewrite hits_of_cons. change (hits_of cfg fl []) with (@nil (string * string)).
      rewrite app_nil_r. f_equal.
      destruct (segments cfg vs) as [|sg segs] eqn:Hsegs.
      * rewrite (segments_nil vs Hsegs). cbn. now rewrite app_nil_r.
      * now rewrite (detected_root v Hd).
    + rewrite (IH root (files ++ hit_files cfg fl v)), hits_of_cons.
      now rewrite <- !app_assoc.
Qed.

Lemma rows_from_start (vs : list visit) :
  rows_from cfg fl fs EmptyString [] vs = repo_rows cfg fl fs vs.
Proof.
  rewrite rows_from_segments. unfold repo_rows.
  now destruct (segments cfg vs).
Qed.

(** Visits before the first repository root belong to no repository. *)
Lemma segments_prefix (pre rest : list visit) :
  Forall (fun u => detected cfg u = false) pre ->
  segments cfg (pre ++ rest) = segments cfg rest.
Proof.
  induction 1 as [|u pre Hu _ IH]; [reflexivity|].
  cbn [app segments]. now rewrite Hu.
Qed.

End Segments.

End AggregatorSpec.

(* ===================================================================== *)
(** ** The reports of search_repos                                       *)
(* ===================================================================== *)

Module ReportSpec.

Import PyStr Search ScanSpec WalkSpec AggregatorSpec.

(** C6, as amended.  There is one accumulator in the state of the loop.
    At a repository root the open accumulator is closed, written to
    repos.csv if and only if its folder is not empty and its total is not
    zero, and replaced by an all-zero accumulator of the new root.  The
    run as a whole writes, after the header, the rows of the repositories
    met in the walk, in order, or the row of the initial accumulator if no
    repository is met; and an accumulator gives one row when its total is
    not zero and none when it is. *)
Theorem repos_csv_by_repository (cfg : settings) (fl : OsPath.flavour)
    (fs : Utils.filesys) (t : tree) :
  wf_settings cfg ->
  (forall s root files mrows rrows dir,
     holds cfg s root files mrows rrows -> repo_folder cfg dir = true ->
     exists s',
       open_repo cfg fl fs dir s = Ok s'
       /\ holds cfg s' dir [] mrows
            (rrows ++ if String.eqb root EmptyString then []
                      else repo_row cfg fl fs root files))
  /\ (exists mrows,
        search_repos cfg fl fs t
        = Ok (mrows,
              header cfg ",total,branch,last_commit"
              :: repo_rows cfg fl fs (walk fl (folder cfg) t)))
  /\ (forall root files,
        length (repo_row cfg fl fs root files)
        = if tally_total cfg files =? 0 then 0%nat else 1%nat).
Proof.
  intros Hwf. split; [|split].
  - intros s root files mrows rrows dir Hs Hdir.
    now apply (open_repo_root cfg fl fs Hwf dir s root files mrows rrows).
  - unfold search_repos. rewrite (search_visits_ok cfg fl fs Hwf).
    rewrite rows_from_start. eauto.
  - intros root files. unfold repo_row.
    now destruct (tally_total cfg files =? 0).
Qed.

(** The scenario of the specification: repo1 has two hits, repo2 none. *)
Lemma repos_csv_by_repository_witness :
  exists mrows,
    search_repos todo_cfg OsPath.Posix no_git two_repos
    = Ok (mrows,
          ["url,TODO,total,branch,last_commit" +:+ newline;
           "https://github.com/orgA/repo1,2,2,," +:+ newline]).
Proof.
  apply (repos_csv_by_repository todo_cfg OsPath.Posix no_git two_repos).
  unfold wf_settings. simpl.
  repeat split; rewrite list_elem_of_In; simpl; intuition discriminate.
Defined.

(** C6 as stated fails: the accumulator that is open before the first
    repository root has a total of 1 when that root is met, and is closed
    without a row.  And with the keyword [folder] the hit of a repository
    is added to the name of its folder, which ends the run. *)
Lemma initial_accumulator_not_written :
  (exists s,
     fold_left (visit_dir todo_cfg OsPath.Posix no_git)
       (firstn 2 (walk OsPath.Posix mirror stray_first)) (Ok (start todo_cfg))
     = Ok s
     /\ repo_totals s !! "*TOTAL*" = Some (VInt 1)
     /\ repo_totals s !! "folder" = Some (VStr EmptyString))
  /\ map v_root (walk OsPath.Posix mirror stray_first)
     = ["/srv/gh-mirror"; "/srv/gh-mirror/orgA"; "/srv/gh-mirror/orgA/repo1"]
  /\ repo_folder todo_cfg "/srv/gh-mirror/orgA/repo1" = true
  /\ search_repos todo_cfg OsPath.Posix no_git stray_first
     = Ok (["url,TODO,total" +:+ newline;
            "https://github.com/notes.txt,1,1" +:+ newline],
           ["url,TODO,total,branch,last_commit" +:+ newline])
  /\ search_repos (config mirror ["folder"] [".txt"]) OsPath.Posix no_git
       reserved_words
     = Raise TypeError.
Proof.
  split; [eexists; split; [reflexivity|]; split; reflexivity|].
  repeat split; reflexivity.
Qed.

(** C10, as amended.  A file with a hit that is visited before the first
    repository root of the walk gets its row in matches.csv; its hits go
    to the initial accumulator, whose folder is empty; at the first
    repository root that accumulator is replaced without a row being
    written, and repos.csv is what the walk from that root on produces. *)
Theorem stray_hits_before_first_root (cfg : settings) (fl : OsPath.flavour)
    (fs : Utils.filesys) (t : tree) (pre : list visit) (v : visit)
    (post : list visit) (f : string * string) :
  wf_settings cfg ->
  walk fl (folder cfg) t = pre ++ v :: post ->
  Forall (fun u => detected cfg u = false) pre ->
  detected cfg v = true ->
  f ∈ hits_of cfg fl pre ->
  exists mrows rrows mrows' s s1,
    search_repos cfg fl fs t = Ok (mrows, rrows)
    /\ match_row cfg f ∈ mrows
    /\ search_visits cfg fl fs (v :: post) = Ok (mrows', rrows)
    /\ fold_left (visit_dir cfg fl fs) pre (Ok (start cfg)) = Ok s
    /\ holds cfg s EmptyString (hits_of cfg fl pre)
         (header cfg ",total" :: map (match_row cfg) (hits_of cfg fl pre))
         [header cfg ",total,branch,last_commit"]
    /\ visit_dir cfg fl fs (Ok s) v = Ok s1
    /\ holds cfg s1 (v_root v) (hit_files cfg fl v)
         (header cfg ",total"
          :: map (match_row cfg) (hits_of cfg fl pre ++ hit_files cfg fl v))
         [header cfg ",total,branch,last_commit"].
Proof.
  intros Hwf Hwalk Hpre Hv Hf.
  destruct (visits_no_root cfg fl fs Hwf pre Hpre (start cfg) EmptyString []
              [header cfg ",total"] [header cfg ",total,branch,last_commit"])
    as (s & Hfold & Hs).
  { split; [now apply represents_empty | split; reflexivity]. }
  destruct (visit_dir_ok cfg fl fs Hwf v s _ _ _ _ Hs) as (s1 & Hstep & Hs1).
  rewrite Hv in Hs1. cbn [String.eqb] in Hs1. rewrite app_nil_r in Hs1.
  do 5 eexists. unfold search_repos. rewrite Hwalk.
  rewrite !(search_visits_ok cfg fl fs Hwf), !rows_from_start.
  split; [reflexivity|]. split; [|split; [|split; [exact Hfold|]]].
  - right. rewrite hits_of_app, map_app. apply elem_of_app. left.
    now apply list_elem_of_fmap_2.
  - unfold repo_rows. rewrite (segments_prefix cfg pre (v :: post) Hpre).
    cbn [segments]. rewrite Hv. reflexivity.
  - split; [exact Hs|]. split; [exact Hstep|].
    rewrite <- app_assoc, <- map_app in Hs1. exact Hs1.
Qed.

(** The note directly under the cache root, before the only repository. *)
Lemma stray_hits_before_first_root_witness :
  exists mrows rrows mrows' s s1,
    search_repos todo_cfg OsPath.Posix no_git stray_first = Ok (mrows, rrows)
    /\ match_row todo_cfg ("/srv/gh-mirror/notes.txt", "todo: mirror more") ∈ mrows
    /\ search_visits todo_cfg OsPath.Posix no_git
         [{| v_root := "/srv/gh-mirror/orgA/repo1"; v_dirs := [];
             v_files := [("a.go", "package a")] |}]
       = Ok (mrows', rrows)
    /\ fold_left (visit_dir todo_cfg OsPath.Posix no_git)
         [{| v_root := "/srv/gh-mirror"; v_dirs := ["orgA"];
             v_files := [("notes.txt", "todo: mirror more")] |};
          {| v_root := "/srv/gh-mirror/orgA"; v_dirs := ["repo1"]; v_files := [] |}]
         (Ok (start todo_cfg)) = Ok s
    /\ holds todo_cfg s EmptyString
         [("/srv/gh-mirror/notes.txt", "todo: mirror more")]
         [header todo_cfg ",total";
          match_row todo_cfg ("/srv/gh-mirror/notes.txt", "todo: mirror more")]
         [header todo_cfg ",total,branch,last_commit"]
    /\ visit_dir todo_cfg OsPath.Posix no_git (Ok s)
         {| v_root := "/srv/gh-mirror/orgA/repo1"; v_dirs := [];
            v_files := [("a.go", "package a")] |} = Ok s1
    /\ holds todo_cfg s1 "/srv/gh-mirror/orgA/repo1" []
         [header todo_cfg ",total";
          match_row todo_cfg ("/srv/gh-mirror/notes.txt", "todo: mirror more")]
         [header todo_cfg ",total,branch,last_commit"].
Proof.
  apply (stray_hits_before_first_root todo_cfg OsPath.Posix no_git stray_first
           [{| v_root := "/srv/gh-mirror"; v_dirs := ["orgA"];
               v_files := [("notes.txt", "todo: mirror more")] |};
            {| v_root := "/srv/gh-mirror/orgA"; v_dirs := ["repo1"]; v_files := [] |}]
           {| v_root := "/srv/gh-mirror/orgA/repo1"; v_dirs := [];
              v_files := [("a.go", "package a")] |}
           []
           ("/srv/gh-mirror/notes.txt", "todo: mirror more")).
  - unfold wf_settings. simpl.
    repeat split; rewrite list_elem_of_In; simpl; intuition discriminate.
  - reflexivity.
  - repeat constructor.
  - reflexivity.
  - apply list_elem_of_In. left. reflexivity.
Defined.

(** C10 as stated fails: a note directly under the second organisation
    folder lies outside every repository root and a repository root
    follows, yet its hit is the row of the repository that was open
    before, of which no file has a hit.  And with the keyword [filename]
    the count replaces the name of the file, so that no row of
    matches.csv can be written for it. *)
Lemma stray_hits_join_previous_repository :
  map v_root (walk OsPath.Posix mirror stray_between)
  = ["/srv/gh-mirror"; "/srv/gh-mirror/orgA"; "/srv/gh-mirror/orgA/repo1";
     "/srv/gh-mirror/orgB"; "/srv/gh-mirror/orgB/repo2"]
  /\ map (repo_folder todo_cfg) (map v_root (walk OsPath.Posix mirror stray_between))
     = [false; false; true; false; true]
  /\ search_repos todo_cfg OsPath.Posix no_git stray_between
     = Ok (["url,TODO,total" +:+ newline;
            "https://github.com/orgB/notes.txt,1,1" +:+ newline],
           ["url,TODO,total,branch,last_commit" +:+ newline;
            "https://github.com/orgA/repo1,1,1,," +:+ newline])
  /\ search_repos (config mirror ["filename"] [".txt"]) OsPath.Posix no_git
       reserved_words
     = Raise AttributeError.
Proof. repeat split; reflexivity. Qed.

(** C3 fails on the code.  The walk leaves a directory early only when
    its path contains [\vendor\]: with forward slashes nothing below
    [vendor] is left out, and with backslashes the files directly in
    [vendor] are still scanned.  In both runs [.git] is not entered, and
    the vendored hits are in matches.csv and in the total of repo1. *)
Theorem vendored_files_are_scanned :
  map v_root (walk OsPath.Posix mirror vendored)
  = ["/srv/gh-mirror"; "/srv/gh-mirror/orgA"; "/srv/gh-mirror/orgA/repo1";
     "/srv/gh-mirror/orgA/repo1/vendor"; "/srv/gh-mirror/orgA/repo1/vendor/pkg"]
  /\ search_repos todo_cfg OsPath.Posix no_git vendored
     = Ok (["url,TODO,total" +:+ newline;
            "https://github.com/orgA/repo1/blob/master/vendor/lib.go,1,1" +:+ newline;
            "https://github.com/orgA/repo1/blob/master/vendor/pkg/deep.go,1,1"
            +:+ newline],
           ["url,TODO,total,branch,last_commit" +:+ newline;
            "https://github.com/orgA/repo1,2,2,," +:+ newline])
  /\ search_repos win_cfg OsPath.Nt no_git vendored
     = Ok (["url,TODO,total" +:+ newline;
            "https://github.com/orgA/repo1/blob/master/vendor/lib.go,1,1" +:+ newline],
           ["url,TODO,total,branch,last_commit" +:+ newline;
            "https://github.com/orgA/repo1,1,1,," +:+ newline]).
Proof. repeat split; reflexivity. Qed.

End ReportSpec.

(* ===================================================================== *)
(** ** More on the pagination parser                                     *)
(* ===================================================================== *)

Module PaginationMore.

Import PyStr PyStrFacts Utils LinkHeader PaginationSpec.

Lemma key_URL_page (a b : string) : a +:+ "page" <> b +:+ "URL".
Proof. intros H. symmetry in H. revert H. apply key_page_URL. Qed.

(** Entries of other relations leave the URL key of a relation alone. *)
Lemma others_keep_URL (rel : string) (links : list string) (es : list link_entry) :
  Forall2 parsed links es ->
  ~ In rel (map le_rel es) ->
  Forall (fun link => linktype_of link +:+ "page" <> rel +:+ "URL"
                      /\ linktype_of link +:+ "URL" <> rel +:+ "URL") links.
Proof.
  induction 1 as [|link x links es (Ht & _) _ IH]; intros Hnot.
  - constructor.
  - constructor.
    + rewrite Ht. split.
      * apply key_URL_page.
      * intros Heq. apply append_inj_l in Heq. apply Hnot. now left.
    + apply IH. intros Hin. apply Hnot. now right.
Qed.

(** X1: parsing a rendered header gives back, for the last entry of every
    relation (whatever its name), the URL of the entry under [<rel>URL],
    next to the value of the URL's last parameter under [<rel>page]. *)
Theorem parser_returns_rendered_url (before after : list link_entry)
    (e : link_entry) :
  Forall wf_entry (before ++ e :: after) ->
  ~ In (le_rel e) (map le_rel after) ->
  github_pagination_str (render_header (before ++ e :: after))
    !! (le_rel e +:+ "URL") = Some (VStr (render_url e))
  /\ github_pagination_str (render_header (before ++ e :: after))
       !! (le_rel e +:+ "page") = Some (VStr (strip (snd (le_last e)))).
Proof.
  intros Hwf Hlast. split; [|now apply stored_page_is_last_value].
  unfold github_pagination_str.
  assert (Hall : Forall2 parsed (split "," (render_header (before ++ e :: after)))
                   (before ++ e :: after)).
  { apply header_parsed; [|assumption]. now destruct before. }
  apply Forall2_app_inv_r in Hall as (l1 & l2 & _ & Hl2 & ->).
  apply Forall2_cons_inv_r in Hl2 as (link & l3 & Hp & Hl3 & ->).
  rewrite fold_left_app. cbn [fold_left].
  rewrite (fold_store_other l3 _ _ (others_keep_URL _ _ _ Hl3 Hlast)).
  destruct Hp as (Ht & Hurl & _). rewrite <- Ht, store_link_URL.
  now rewrite Hurl.
Qed.

Lemma parser_returns_rendered_url_witness :
  github_pagination_str (render_header [prev_entry; last_entry]) !! "lastURL"
  = Some (VStr "https://api.github.com/user/repos?per_page=100&page=50")
  /\ github_pagination_str (render_header [prev_entry; last_entry]) !! "lastpage"
     = Some (VStr "50").
Proof.
  apply (parser_returns_rendered_url [prev_entry] [] last_entry).
  - repeat constructor.
  - simpl. tauto.
Defined.

(** X2: a relation that no entry of the header carries keeps its neutral
    values: its URL key and its page key are what the parser started
    with ([None] and 0 for first, prev, next and last). *)
Theorem absent_relation_keeps_defaults (e : link_entry) (es : list link_entry)
    (rel : string) :
  Forall wf_entry (e :: es) ->
  ~ In rel (map le_rel (e :: es)) ->
  github_pagination_str (render_header (e :: es)) !! (rel +:+ "URL")
  = retval0 !! (rel +:+ "URL")
  /\ github_pagination_str (render_header (e :: es)) !! (rel +:+ "page")
     = retval0 !! (rel +:+ "page").
Proof.
  intros Hwf Hnot. unfold github_pagination_str.
  assert (Hall : Forall2 parsed (split "," (render_header (e :: es))) (e :: es))
    by (apply header_parsed; [discriminate | assumption]).
  split.
  - apply fold_store_other. now apply (others_keep_URL rel _ (e :: es)).
  - apply fold_store_other. now apply (others_keep rel _ (e :: es)).
Qed.

Lemma absent_relation_keeps_defaults_witness :
  github_pagination_str (render_header [prev_entry; last_entry]) !! "nextURL"
  = Some VNone
  /\ github_pagination_str (render_header [prev_entry; last_entry]) !! "nextpage"
     = Some (VInt 0).
Proof.
  apply (absent_relation_keeps_defaults prev_entry [last_entry] "next").
  - repeat constructor.
  - simpl. intuition discriminate.
Defined.

(** The parser only ever stores strings, and never removes a key. *)
Lemma store_link_keeps (d : gmap string pyval) (link k : string) :
  (d !! k = Some VNone \/ exists s, d !! k = Some (VStr s)) ->
  store_link d link !! k = Some VNone \/ exists s, store_link d link !! k = Some (VStr s).
Proof.
  intros Hk. unfold store_link.
  destruct (decide (linktype_of link +:+ "URL" = k)) as [<-|H1].
  { right. rewrite lookup_insert_eq. eauto. }
  rewrite lookup_insert_ne by exact H1.
  destruct (decide (linktype_of link +:+ "page" = k)) as [<-|H2].
  { right. rewrite lookup_insert_eq. eauto. }
  now rewrite lookup_insert_ne by exact H2.
Qed.

Lemma fold_store_keeps (links : list string) (k : string) :
  forall d : gmap string pyval,
    (d !! k = Some VNone \/ exists s, d !! k = Some (VStr s)) ->
    fold_left store_link links d !! k = Some VNone
    \/ exists s, fold_left store_link links d !! k = Some (VStr s).
Proof.
  induction links as [|link links IH]; intros d Hd; [exact Hd|].
  simpl. apply IH. now apply store_link_keeps.
Qed.

(** X3: whatever the response and whatever the text of its Link header,
    the parser's result has the key [nextURL], and its value is [None] or
    a string: reading [pagelinks["nextURL"]] never raises, and the
    collector's next endpoint is never a number. *)
Theorem next_url_always_readable {A : Type} (r : response A) :
  exists v,
    getitem (github_pagination r) "nextURL" = Ok v
    /\ (v = VNone \/ exists s, v = VStr s).
Proof.
  assert (H : github_pagination r !! "nextURL" = Some VNone
              \/ exists s, github_pagination r !! "nextURL" = Some (VStr s)).
  { unfold github_pagination. destruct (link r) as [h|]; [|now left].
    unfold github_pagination_str. apply fold_store_keeps. now left. }
  unfold getitem. destruct H as [-> | (s & ->)]; eauto.
Qed.

End PaginationMore.

(* ===================================================================== *)
(** ** More on the API client                                            *)
(* ===================================================================== *)

Module ClientMore.

Import PyStr Utils Pages.

Section Client.

Context {A : Type}.
Variable cfg : settings.
Variable server : request -> response A.

Lemma truthy_nonempty (u : string) : u <> EmptyString -> truthy (VStr u) = true.
Proof. intros H. simpl. destruct u; [congruence | reflexivity]. Qed.


(** The state object after the session was chosen keeps its rate-limit
    fields and its verbosity. *)
Lemma pick_session_some (a : string * string) (st : State) sess :
  exists st1,
    pick_session a (Some st) sess = Some st1
    /\ verbose st1 = verbose st
    /\ last_ratelimit st1 = last_ratelimit st
    /\ last_remaining st1 = last_remaining st.
Proof. unfold pick_session. destruct sess; eexists; repeat split. Qed.

(** X5: with a state object, a response that lacks the limit header, or
    has a limit header that [int()] accepts and lacks the remaining
    header, is returned all the same, and both rate-limit fields of the
    state are set to 999999. *)
Theorem missing_ratelimit_headers_give_sentinels (u : string) (r : response A)
    auth headers (st : State) sess :
  u <> EmptyString -> serves server u r ->
  x_ratelimit_limit r = None
  \/ ((exists t v, x_ratelimit_limit r = Some t /\ py_int t = Some v)
      /\ x_ratelimit_remaining r = None) ->
  exists out st',
    github_rest_api cfg server (VStr u) auth headers (Some st) sess
    = (out, Some st', Ok (Some r))
    /\ last_ratelimit st' = 999999 /\ last_remaining st' = 999999
    /\ verbose st' = verbose st.
Proof.
  intros Hu Hserves Hmiss. unfold github_rest_api.
  rewrite (truthy_nonempty u Hu). cbn [negb].
  rewrite Hserves by reflexivity.
  match goal with |- context [pick_session ?a (Some st) sess] =>
    destruct (pick_session_some a st sess) as (st1 & -> & Hv & _) end.
  assert (Hup : exists st', update_ratelimit r st1 = (st', Ok tt)
                 /\ last_ratelimit st' = 999999 /\ last_remaining st' = 999999
                 /\ verbose st' = verbose st1).
  { unfold update_ratelimit.
    destruct Hmiss as [-> | ((t & v & -> & ->) & ->)];
      eexists; repeat split. }
  destruct Hup as (st' & -> & H1 & H2 & H3).
  assert (Hv' : verbose st' = verbose st) by congruence.
  destruct (verbose st') eqn:E; do 2 eexists; (split; [reflexivity|]);
    repeat split; congruence.
Qed.

(** X6: only a missing header is caught.  With a state object, a limit
    header that [int] cannot read makes the client raise ValueError
    after the request was made; the rate-limit fields of the state are
    left as they were. *)
Theorem unreadable_ratelimit_header_raises (u : string) (r : response A)
    auth headers (st : State) sess (t : string) :
  u <> EmptyString -> serves server u r ->
  x_ratelimit_limit r = Some t -> py_int t = None ->
  exists out st',
    github_rest_api cfg server (VStr u) auth headers (Some st) sess
    = (out, Some st', Raise ValueError)
    /\ last_ratelimit st' = last_ratelimit st
    /\ last_remaining st' = last_remaining st.
Proof.
  intros Hu Hserves Ht Hint. unfold github_rest_api.
  rewrite (truthy_nonempty u Hu). cbn [negb].
  rewrite Hserves by reflexivity.
  match goal with |- context [pick_session ?a (Some st) sess] =>
    destruct (pick_session_some a st sess) as (st1 & -> & _ & H1 & H2) end.
  unfold update_ratelimit. rewrite Ht, Hint. eauto.
Qed.

End Client.


Lemma missing_ratelimit_headers_give_sentinels_witness :
  exists out st',
    github_rest_api (ScanSpec.config "/cache" [] [])
      (PagesMore.always (PagesMore.bare 200 (Ok ["a"])))
      (VStr "/orgs/o/repos") None ∅ (Some quiet) None
    = (out, Some st', Ok (Some (PagesMore.bare 200 (Ok ["a"]))))
    /\ last_ratelimit st' = 999999 /\ last_remaining st' = 999999
    /\ verbose st' = verbose quiet.
Proof.
  apply (missing_ratelimit_headers_give_sentinels (ScanSpec.config "/cache" [] [])
           (PagesMore.always (PagesMore.bare 200 (Ok ["a"])))
           "/orgs/o/repos" (PagesMore.bare 200 (Ok ["a"])) None ∅ quiet None).
  - discriminate.
  - intros req _. reflexivity.
  - left. reflexivity.
Defined.

Lemma unreadable_ratelimit_header_raises_witness :
  exists out st',
    github_rest_api (ScanSpec.config "/cache" [] [])
      (PagesMore.always (PagesMore.pointing 200 (Ok ["a"]) "https://api.github.com/p2"
                           (Some "unlimited")))
      (VStr "/orgs/o/repos") None ∅ (Some quiet) None
    = (out, Some st', Raise ValueError)
    /\ last_ratelimit st' = last_ratelimit quiet
    /\ last_remaining st' = last_remaining quiet.
Proof.
  apply (unreadable_ratelimit_header_raises (ScanSpec.config "/cache" [] [])
           (PagesMore.always (PagesMore.pointing 200 (Ok ["a"]) "https://api.github.com/p2"
                                (Some "unlimited")))
           "/orgs/o/repos"
           (PagesMore.pointing 200 (Ok ["a"]) "https://api.github.com/p2" (Some "unlimited"))
           None ∅ quiet None "unlimited").
  - discriminate.
  - intros req _. reflexivity.
  - reflexivity.
  - reflexivity.
Defined.

End ClientMore.

(* ===================================================================== *)
(** ** More on the paginated collector                                   *)
(* ===================================================================== *)

Module CollectorMore.

Import PyStr Utils Pages PagesMore CollectorSpec ClientMore.

Section Collector.

Context {A : Type}.
Variable cfg : settings.
Variable server : request -> response A.

(** What a page adds to the payload. *)
Lemma page_body (r : response A) (elems : list A) :
  (ok r = true /\ json r = Ok elems) \/ (ok r = false /\ elems = []) ->
  (if ok r then json r else Ok []) = Ok elems.
Proof. intros [[-> ->] | [-> ->]]; reflexivity. Qed.

(** One turn of the loop. *)
Lemma loop_step (fuel : nat) (endpoint : pyval) auth headers sess
    (payload : list A) (page_endpoint : pyval) state out :
  allpages_loop cfg server (S fuel) endpoint auth headers sess payload
    page_endpoint state out
  = match github_rest_api cfg server page_endpoint auth headers state sess with
    | (out1, state1, Raise x) => Some (out ++ out1, state1, Raise x)
    | (out1, state1, Ok None) =>
        if is_verbose state1
        then Some (out ++ out1 ++ [">>> endpoint: " +:+ show endpoint +:+ newline],
                   state1, Raise AttributeError)
        else Some (out ++ out1, state1, Raise AttributeError)
    | (out1, state1, Ok (Some r)) =>
        let out2 :=
          if is_verbose state1 || negb (status_code r =? 200)
          then out ++ out1 ++ status_lines endpoint r else out ++ out1 in
        match (if ok r then json r else Ok []) with
        | Raise x => Some (out2, state1, Raise x)
        | Ok thispage =>
            match getitem (github_pagination r) "nextURL" with
            | Raise x => Some (out2, state1, Raise x)
            | Ok next =>
                if truthy next
                then allpages_loop cfg server fuel endpoint auth headers sess
                       (payload ++ thispage) next state1 out2
                else Some (out2, state1, Ok (payload ++ thispage))
            end
        end
    end.
Proof. reflexivity. Qed.

(** The loop along a chain: it either ends at the last page, or goes on
    at the endpoint the last page names, with the turns that are left. *)
Lemma loop_along_chain (endpoint : pyval) auth headers sess (final : pyval)
    (more : list (page A)) :
  forall (first : page A) (payload : list A) state out,
    chain_to server (first :: more) final ->
    pages_accepted state (first :: more) ->
    exists out' state',
      (state = None -> state' = None)
      /\ forall k : nat,
        allpages_loop cfg server (length (first :: more) + k) endpoint auth headers
          sess payload (VStr (page_url first)) state out
        = if truthy final
          then allpages_loop cfg server k endpoint auth headers sess
                 (payload ++ concat (map page_elems (first :: more))) final
                 state' out'
          else Some (out', state',
                     Ok (payload ++ concat (map page_elems (first :: more)))).
Proof.
  induction more as [|p rest IH];
    intros [[u r] elems] payload state out
      (Hu & Hserves & Hbody & Hnext & Hrest) Hacc;
    apply Forall_cons_1 in Hacc as [Hread Hacc]; cbn [page_resp fst snd] in Hread;
    destruct (rest_api_page cfg server u r auth headers state sess Hu Hserves Hread)
      as (out1 & state1 & Hcall & Hnone).
  - do 2 eexists. split; [exact Hnone|]. intros k.
    change (length [(u, r, elems)] + k)%nat with (S k).
    rewrite loop_step. cbn [page_url fst].
    rewrite Hcall, (page_body r elems Hbody). unfold getitem. rewrite Hnext.
    cbn [map concat page_elems snd]. rewrite app_nil_r. reflexivity.
  - assert (Ht : truthy (VStr (page_url p)) = true).
    { apply truthy_nonempty. destruct p as [[u' r'] e']. now destruct Hrest. }
    destruct (IH p (payload ++ elems) state1
                (if is_verbose state1 || negb (status_code r =? 200)
                 then out ++ out1 ++ status_lines endpoint r else out ++ out1) Hrest
                (accepted_after state state1 _ Hnone Hacc))
      as (out' & state' & Hnone' & Hloop).
    exists out', state'. split; [auto|]. intros k.
    change (length ((u, r, elems) :: p :: rest) + k)%nat
      with (S (length (p :: rest) + k)).
    rewrite loop_step. cbn [page_url fst].
    rewrite Hcall, (page_body r elems Hbody). unfold getitem. rewrite Hnext, Ht.
    cbv zeta. rewrite Hloop.
    cbn [map concat page_elems snd]. now rewrite <- !app_assoc.
Qed.

(** With too few turns for a chain that goes on, the loop does not end. *)
Lemma loop_out_of_fuel (endpoint : pyval) auth headers sess (final : pyval)
    (more : list (page A)) :
  truthy final = true ->
  forall (first : page A) (fuel : nat) (payload : list A) state out,
    chain_to server (first :: more) final ->
    pages_accepted state (first :: more) ->
    (fuel <= length (first :: more))%nat ->
    allpages_loop cfg server fuel endpoint auth headers sess payload
      (VStr (page_url first)) state out = None.
Proof.
  intros Hfinal. induction more as [|p rest IH];
    intros [[u r] elems] fuel payload state out
      (Hu & Hserves & Hbody & Hnext & Hrest) Hacc Hfuel;
    (destruct fuel as [|fuel]; [reflexivity|]);
    apply Forall_cons_1 in Hacc as [Hread Hacc]; cbn [page_resp fst snd] in Hread;
    destruct (rest_api_page cfg server u r auth headers state sess Hu Hserves Hread)
      as (out1 & state1 & Hcall & Hnone);
    rewrite loop_step; cbn [page_url fst];
    rewrite Hcall, (page_body r elems Hbody); unfold getitem; rewrite Hnext.
  - rewrite Hfinal. simpl in Hfuel. now replace fuel with 0%nat by lia.
  - assert (Ht : truthy (VStr (page_url p)) = true).
    { apply truthy_nonempty. destruct p as [[u' r'] e']. now destruct Hrest. }
    rewrite Ht. apply IH;
      [exact Hrest | exact (accepted_after state state1 _ Hnone Hacc)
       | simpl in Hfuel |- *; lia].
Qed.

End Collector.

(** X7: pages that fail (status 4xx or 5xx) do not stop the collection:
    they add nothing, their body is not read, and the collector goes on
    to the page they name; the result is the elements of the successful
    pages, in order.  When the collector has a state object, [int()] has
    to accept the rate-limit headers of every page. *)
Theorem failed_pages_are_skipped {A : Type} (cfg : settings)
    (server : request -> response A) (first : page A) (more : list (page A))
    auth headers state sess (fuel : nat) :
  chain_to server (first :: more) VNone ->
  pages_accepted state (first :: more) ->
  (length (first :: more) <= fuel)%nat ->
  exists out state',
    github_allpages cfg server fuel (VStr (page_url first)) auth headers state sess
    = Some (out, state', Ok (concat (map page_elems (first :: more)))).
Proof.
  intros Hchain Hacc Hfuel. unfold github_allpages.
  destruct (loop_along_chain cfg server (VStr (page_url first)) auth headers sess
              VNone more first [] state [] Hchain Hacc) as (out & state' & _ & Hloop).
  exists out, state'.
  replace fuel with (length (first :: more) + (fuel - length (first :: more)))%nat
    by lia.
  now rewrite Hloop.
Qed.

Lemma failed_pages_are_skipped_witness :
  exists out state',
    github_allpages (ScanSpec.config "/cache" [] []) three_urls 3
      (VStr "https://api.github.com/p1") None ∅ (Some quiet) None
    = Some (out, state', Ok ["a"; "b"; "c"]).
Proof.
  apply (failed_pages_are_skipped (ScanSpec.config "/cache" [] []) three_urls
           ("https://api.github.com/p1",
            pointing 200 (Ok ["a"; "b"]) "https://api.github.com/p2" (Some "60"),
            ["a"; "b"])
           [("https://api.github.com/p2",
             pointing 502 (Raise ValueError) "https://api.github.com/p3" (Some "60"),
             []);
            ("https://api.github.com/p3", bare 200 (Ok ["c"]), ["c"])]
           None ∅ (Some quiet) None 3).
  - assert (H1 : serves three_urls "https://api.github.com/p1"
                   (pointing 200 (Ok ["a"; "b"]) "https://api.github.com/p2" (Some "60"))).
    { intros req Hreq. unfold three_urls. now rewrite Hreq. }
    assert (H2 : serves three_urls "https://api.github.com/p2"
                   (pointing 502 (Raise ValueError) "https://api.github.com/p3" (Some "60"))).
    { intros req Hreq. unfold three_urls. now rewrite Hreq. }
    assert (H3 : serves three_urls "https://api.github.com/p3" (bare 200 (Ok ["c"]))).
    { intros req Hreq. unfold three_urls. now rewrite Hreq. }
    simpl. unfold answered.
    repeat split; try discriminate; try assumption; try reflexivity;
      (left; split; reflexivity) || (right; split; reflexivity).
  - repeat constructor; right; reflexivity.
  - simpl. lia.
Defined.

(** X8: the collector does not notice a cycle.  When the last page of a
    chain names the first page as next, no number of turns suffices
    (with a state object: as long as [int()] accepts the rate-limit
    headers of the pages; otherwise the client raises). *)
Theorem cyclic_pages_never_end {A : Type} (cfg : settings)
    (server : request -> response A) (first : page A) (more : list (page A))
    auth headers state sess :
  chain_to server (first :: more) (VStr (page_url first)) ->
  pages_accepted state (first :: more) ->
  forall fuel : nat,
    github_allpages cfg server fuel (VStr (page_url first)) auth headers state sess
    = None.
Proof.
  intros Hchain Hacc fuel. unfold github_allpages.
  assert (Ht : truthy (VStr (page_url first)) = true).
  { apply truthy_nonempty. destruct first as [[u r] e]. now destruct Hchain. }
  generalize (@nil A) as payload. generalize (@nil string) as out.
  revert state Hacc.
  induction fuel as [fuel IH] using lt_wf_ind. intros state Hacc out payload.
  destruct (Nat.le_gt_cases fuel (length (first :: more))) as [Hle | Hgt].
  - now apply (loop_out_of_fuel cfg server _ auth headers sess
                 (VStr (page_url first)) more Ht first).
  - destruct (loop_along_chain cfg server (VStr (page_url first)) auth headers sess
                (VStr (page_url first)) more first payload state out Hchain Hacc)
      as (out' & state' & Hnone & Hloop).
    replace fuel with (length (first :: more) + (fuel - length (first :: more)))%nat
      by lia.
    rewrite Hloop, Ht. apply IH; [simpl; lia|].
    exact (accepted_after state state' _ Hnone Hacc).
Qed.

Lemma cyclic_pages_never_end_witness :
  github_allpages (ScanSpec.config "/cache" [] []) ping_pong 1000
    (VStr "https://api.github.com/p1") None ∅ (Some quiet) None = None.
Proof.
  apply (cyclic_pages_never_end (ScanSpec.config "/cache" [] []) ping_pong
           ("https://api.github.com/p1",
            pointing 200 (Ok ["a"]) "https://api.github.com/p2" None, ["a"])
           [("https://api.github.com/p2",
             pointing 200 (Ok ["b"]) "https://api.github.com/p1" None, ["b"])]
           None ∅ (Some quiet) None).
  - assert (H1 : serves ping_pong "https://api.github.com/p1"
                   (pointing 200 (Ok ["a"]) "https://api.github.com/p2" None)).
    { intros req Hreq. unfold ping_pong. now rewrite Hreq. }
    assert (H2 : serves ping_pong "https://api.github.com/p2"
                   (pointing 200 (Ok ["b"]) "https://api.github.com/p1" None)).
    { intros req Hreq. unfold ping_pong. now rewrite Hreq. }
    simpl. unfold answered.
    repeat split; try discriminate; try assumption; try reflexivity;
      left; split; reflexivity.
  - repeat constructor; right; reflexivity.
Defined.

(** X9: a page with an ok status whose body [json.loads] rejects ends
    the collection with that exception; what the pages before it
    delivered is not returned.  When the collector has a state object,
    [int()] has to accept the rate-limit headers of every page, those of
    the broken page included: they are read before the body. *)
Theorem broken_body_aborts {A : Type} (cfg : settings)
    (server : request -> response A) (first : page A) (more : list (page A))
    (u : string) (r : response A) (e : exn)
    auth headers state sess (fuel : nat) :
  chain_to server (first :: more) (VStr u) ->
  pages_accepted state (first :: more) ->
  u <> EmptyString -> serves server u r -> headers_accepted state r ->
  ok r = true -> json r = Raise e ->
  (length (first :: more) < fuel)%nat ->
  exists out state',
    github_allpages cfg server fuel (VStr (page_url first)) auth headers state sess
    = Some (out, state', Raise e).
Proof.
  intros Hchain Hacc Hu Hserves Hread Hok Hjson Hfuel. unfold github_allpages.
  destruct (loop_along_chain cfg server (VStr (page_url first)) auth headers sess
              (VStr u) more first [] state [] Hchain Hacc)
    as (out & state' & Hnone & Hloop).
  replace fuel with (length (first :: more) + S (fuel - S (length (first :: more))))%nat
    by lia.
  rewrite Hloop, (truthy_nonempty u Hu), loop_step.
  assert (Hread' : headers_accepted state' r).
  { destruct Hread as [H | H]; [left; auto | now right]. }
  destruct (rest_api_page cfg server u r auth headers state' sess Hu Hserves Hread')
    as (out1 & state1 & -> & _).
  rewrite Hok, Hjson. eauto.
Qed.

Lemma broken_body_aborts_witness :
  exists out state',
    github_allpages (ScanSpec.config "/cache" [] [])
      (fun req => if String.eqb (req_url req) "https://api.github.com/p2"
                  then bare 200 (Raise ValueError)
                  else pointing 200 (Ok ["a"]) "https://api.github.com/p2" (Some "60"))
      5 (VStr "https://api.github.com/p1") None ∅ (Some quiet) None
    = Some (out, state', Raise ValueError).
Proof.
  apply (broken_body_aborts (ScanSpec.config "/cache" [] [])
           (fun req => if String.eqb (req_url req) "https://api.github.com/p2"
                       then bare 200 (Raise ValueError)
                       else pointing 200 (Ok ["a"]) "https://api.github.com/p2" (Some "60"))
           ("https://api.github.com/p1",
            pointing 200 (Ok ["a"]) "https://api.github.com/p2" (Some "60"), ["a"])
           [] "https://api.github.com/p2" (bare 200 (Raise ValueError)) ValueError
           None ∅ (Some quiet) None 5).
  - simpl. unfold answered. repeat split; try discriminate; try reflexivity.
    + intros req Hreq. now rewrite Hreq.
    + left. split; reflexivity.
  - repeat constructor; right; reflexivity.
  - discriminate.
  - intros req Hreq. now rewrite Hreq.
  - right. reflexivity.
  - reflexivity.
  - reflexivity.
  - simpl. lia.
Defined.

End CollectorMore.

(* ===================================================================== *)
(** ** More on file_url                                                  *)
(* ===================================================================== *)

Module FileUrlMore.

Import PyStr PyStrFacts Utils PathSpec.

(** Replacing the backslash works character by character. *)
Lemma normalized_cons (c : ascii) (s : string) :
  normalized (String c s)
  = String (if Ascii.eqb bs c then "/"%char else c) (normalized s).
Proof.
  unfold normalized, replace, bslash. cbn [replace_from startswith String.length].
  fold bs. destruct (Ascii.eqb bs c); reflexivity.
Qed.

Lemma normalized_app (a b : string) :
  normalized (a +:+ b) = normalized a +:+ normalized b.
Proof.
  induction a as [|c a IH]; [reflexivity|].
  change (String c a +:+ b) with (String c (a +:+ b)).
  rewrite !normalized_cons, IH. reflexivity.
Qed.

Lemma normalized_length (a : string) :
  String.length (normalized a) = String.length a.
Proof.
  induction a as [|c a IH]; [reflexivity|].
  rewrite normalized_cons. simpl. now rewrite IH.
Qed.

Lemma normalized_plain (a : string) : mem bs a = false -> normalized a = a.
Proof.
  induction a as [|c a IH]; [reflexivity|]. simpl. intros H.
  apply orb_false_iff in H as [Hc Ha]. rewrite normalized_cons, (IH Ha).
  rewrite Ascii.eqb_sym, Hc. reflexivity.
Qed.

Lemma normalized_separator (c : ascii) :
  is_separator c -> normalized (String c EmptyString) = "/".
Proof. intros [-> | ->]; reflexivity. Qed.

(** Splitting and joining again gives the text back. *)
Lemma join_split (sep : ascii) (s : string) :
  join (String sep EmptyString) (split sep s) = s.
Proof.
  induction s as [|c s IH]; [reflexivity|]. simpl split.
  destruct (Ascii.eqb_spec c sep) as [->|Hne].
  - destruct (split sep s) as [|w ws] eqn:E; [now apply split_not_nil in E|].
    change (join (String sep EmptyString) (EmptyString :: w :: ws))
      with (String sep (join (String sep EmptyString) (w :: ws))).
    now rewrite IH.
  - destruct (split sep s) as [|w ws] eqn:E; [now apply split_not_nil in E|].
    rewrite <- IH. destruct ws; reflexivity.
Qed.

Lemma endswith_append (a suf : string) : endswith suf (a +:+ suf) = true.
Proof.
  unfold endswith. rewrite length_append.
  replace (String.length a + String.length suf - String.length suf)%nat
    with (String.length a) by lia.
  rewrite drop_length_append, String.eqb_refl.
  apply andb_true_iff. split; [apply Nat.leb_le; lia | reflexivity].
Qed.

Lemma drop_end_append (a suf : string) :
  drop_end (String.length suf) (a +:+ suf) = a.
Proof.
  unfold drop_end. rewrite length_append.
  replace (String.length a + String.length suf - String.length suf)%nat
    with (String.length a) by lia.
  apply take_length_append.
Qed.

Lemma drop_keeps_last (n : nat) (t : string) (c : ascii) :
  drop n (t +:+ String c EmptyString) = EmptyString
  \/ exists t', drop n (t +:+ String c EmptyString) = t' +:+ String c EmptyString.
Proof.
  revert t. induction n as [|n IH]; intros t.
  - right. exists t. now destruct t.
  - destruct t as [|x t]; simpl.
    + left. now destruct n.
    + apply IH.
Qed.

(** A text does not end with a suffix whose last character is another. *)
Lemma endswith_other_last (suf t : string) (c d : ascii) :
  c <> d ->
  endswith (suf +:+ String d EmptyString) (t +:+ String c EmptyString) = false.
Proof.
  intros Hcd. unfold endswith. apply andb_false_iff. right.
  apply String.eqb_neq. intros H.
  destruct (drop_keeps_last
              (String.length (t +:+ String c EmptyString)
               - String.length (suf +:+ String d EmptyString)) t c)
    as [E | (t' & E)]; rewrite E in H.
  - destruct suf; discriminate.
  - now apply append_last_neq in H.
Qed.

(** The parts of [org/repo] and of [org/repo/path]. *)
Lemma split_org_repo (org repo rest : string) :
  mem "/" org = false -> mem "/" repo = false ->
  split "/" (org +:+ String "/" (repo +:+ String "/" rest))
  = org :: repo :: split "/" rest.
Proof. intros Ho Hr. now rewrite !split_append. Qed.

Lemma split_org_repo_only (org repo : string) :
  mem "/" org = false -> mem "/" repo = false ->
  split "/" (org +:+ String "/" repo) = [org; repo].
Proof. intros Ho Hr. now rewrite split_append, split_no_sep. Qed.

(** X10: below any prefix of 15 characters, and with either separator,
    the folder [org/repo] goes to the URL of the repository and a file
    [org/repo/path] to its URL on the master branch, with forward
    slashes in the path. *)
Theorem file_url_below_prefix (prefix org repo : string) (s1 : ascii) :
  String.length prefix = 15%nat -> is_separator s1 -> plain org -> plain repo ->
  file_url (prefix +:+ org +:+ String s1 repo)
  = "https://github.com/" +:+ org +:+ "/" +:+ repo
  /\ (forall (s2 : ascii) (path : string) (c : ascii),
        is_separator s2 -> c <> "/"%char -> c <> bs ->
        file_url (prefix +:+ org +:+ String s1 (repo +:+ String s2 (path +:+ String c EmptyString)))
        = "https://github.com/" +:+ org +:+ "/" +:+ repo +:+ "/blob/master/"
          +:+ normalized (path +:+ String c EmptyString)).
Proof.
  intros Hlen Hs1 (Ho1 & Ho2) (Hr1 & Hr2).
  assert (Hdrop : forall rest, drop 15 (normalized (prefix +:+ rest)) = normalized rest).
  { intros rest. rewrite normalized_app, <- Hlen, <- (normalized_length prefix).
    apply drop_length_append. }
  split.
  - unfold file_url. fold (normalized (prefix +:+ org +:+ String s1 repo)).
    rewrite Hdrop.
    change (String s1 repo) with (String s1 EmptyString +:+ repo).
    rewrite !normalized_app, (normalized_separator s1 Hs1),
      (normalized_plain org Ho2), (normalized_plain repo Hr2).
    change ("/" +:+ repo) with (String "/" repo).
    rewrite (split_org_repo_only org repo Ho1 Hr1). cbn [firstn skipn join].
    rewrite append_nil_r.
    replace ("https://github.com/" +:+ (org +:+ "/" +:+ repo) +:+ "/blob/master/")
      with (("https://github.com/" +:+ org +:+ "/" +:+ repo) +:+ "/blob/master/")
      by now rewrite !append_assoc.
    rewrite endswith_append.
    change 13%nat with (String.length "/blob/master/"). apply drop_end_append.
  - intros s2 path c Hs2 Hc1 Hc2. unfold file_url.
    match goal with |- context [replace bslash "/" ?p] => fold (normalized p) end.
    rewrite Hdrop.
    change (String s1 (repo +:+ String s2 (path +:+ String c EmptyString)))
      with (String s1 EmptyString +:+ repo +:+ String s2 EmptyString
            +:+ (path +:+ String c EmptyString)).
    rewrite !normalized_app, (normalized_separator s1 Hs1),
      (normalized_separator s2 Hs2), (normalized_plain org Ho2),
      (normalized_plain repo Hr2).
    rewrite <- (normalized_app path).
    change ("/" +:+ repo +:+ "/" +:+ normalized (path +:+ String c EmptyString))
      with (String "/" (repo +:+ String "/" (normalized (path +:+ String c EmptyString)))).
    rewrite (split_org_repo org repo _ Ho1 Hr1). cbn [firstn skipn].
    rewrite !List.firstn_O, !List.skipn_O.
    rewrite join_split. change (join "/" [org; repo]) with (org +:+ "/" +:+ repo).
    assert (Hend : endswith "/blob/master/"
                     ("https://github.com/" +:+ (org +:+ "/" +:+ repo) +:+ "/blob/master/"
                      +:+ normalized (path +:+ String c EmptyString)) = false).
    { rewrite normalized_app, normalized_cons.
      change (normalized EmptyString) with EmptyString.
      rewrite <- !append_assoc.
      change "/blob/master/" with ("/blob/master" +:+ "/") at 1.
      apply endswith_other_last.
      destruct (Ascii.eqb_spec bs c) as [E|_]; [now subst | exact Hc1]. }
    rewrite Hend. now rewrite !append_assoc.
Qed.

Lemma file_url_below_prefix_witness :
  file_url ("/var/mirror/gh/" +:+ "Org" +:+ String bs "Repo")
  = "https://github.com/" +:+ "Org" +:+ "/" +:+ "Repo"
  /\ (forall (s2 : ascii) (path : string) (c : ascii),
        is_separator s2 -> c <> "/"%char -> c <> bs ->
        file_url ("/var/mirror/gh/" +:+ "Org"
                  +:+ String bs ("Repo" +:+ String s2 (path +:+ String c EmptyString)))
        = "https://github.com/" +:+ "Org" +:+ "/" +:+ "Repo" +:+ "/blob/master/"
          +:+ normalized (path +:+ String c EmptyString)).
Proof.
  apply (file_url_below_prefix "/var/mirror/gh/" "Org" "Repo" bs).
  - reflexivity.
  - right. reflexivity.
  - split; reflexivity.
  - split; reflexivity.
Defined.

End FileUrlMore.

(* ===================================================================== *)
(** ** More on the repository catalog                                    *)
(* ===================================================================== *)

Module CatalogMore.

Import PyStr CloneOrgs CatalogOrder CatalogSpec.

Lemma compare_refl (a : string) : String.compare a a = Eq.
Proof.
  induction a as [|c a IH]; [reflexivity|]. simpl.
  unfold Ascii.compare. now rewrite N.compare_refl.
Qed.

Lemma ltb_irrefl (a : string) : String.ltb a a = false.
Proof. unfold String.ltb. now rewrite compare_refl. Qed.

Lemma ltb_asym (a b : string) : String.ltb a b = true -> String.ltb b a = false.
Proof.
  unfold String.ltb. rewrite (String.compare_antisym a b).
  destruct (String.compare b a); simpl; congruence.
Qed.

Lemma tuple_le_antisym (a b : string * Z) : tuple_le a b -> tuple_le b a -> a = b.
Proof.
  destruct a as [n1 s1], b as [n2 s2]. unfold tuple_le. simpl.
  intros [H1 | [E1 L1]] [H2 | [E2 L2]].
  - apply ltb_asym in H1. congruence.
  - subst. rewrite ltb_irrefl in H1. discriminate.
  - subst. rewrite ltb_irrefl in H2. discriminate.
  - subst. f_equal. lia.
Qed.

(** Two ascending lists with the same elements are the same list. *)
Lemma sorted_unique (l1 l2 : list (string * Z)) :
  StronglySorted tuple_le l1 -> StronglySorted tuple_le l2 ->
  Permutation l1 l2 -> l1 = l2.
Proof.
  intros H1. revert l2. induction H1 as [|x l1 Hs1 IH Hx]; intros l2 H2 Hp.
  - now apply Permutation_nil_l in Hp.
  - destruct H2 as [|y l2 Hs2 Hy].
    + now apply Permutation_nil_r in Hp.
    + assert (Hxy : x = y).
      { assert (Hin1 : x ∈ y :: l2) by (rewrite <- Hp; now left).
        assert (Hin2 : y ∈ x :: l1) by (rewrite Hp; now left).
        apply elem_of_cons in Hin1 as [E | Hin1]; [exact E|].
        apply elem_of_cons in Hin2 as [E | Hin2]; [now symmetry|].
        rewrite Forall_forall in Hx, Hy.
        apply tuple_le_antisym; auto. }
      subst y. f_equal. apply IH; [exact Hs2|].
      now apply Permutation_cons_inv in Hp.
Qed.

(** X11: the catalog does not depend on the order in which the API (or
    the cache file) lists the repositories: listings with the same
    records give the same catalog, so the clone order is the same from
    run to run. *)
Theorem repolist_order_independent (listing listing' : list repo) :
  Permutation listing listing' -> repolist listing = repolist listing'.
Proof.
  intros Hp. apply sorted_unique; try apply sorted_sorted.
  unfold repolist. rewrite !sorted_perm. unfold public_repos.
  apply Permutation_map. now rewrite Hp.
Qed.

Lemma repolist_order_independent_witness :
  repolist [ {| name := "Zeta"; size := 3; private := false; fork := false |};
             {| name := "alpha"; size := 9; private := false; fork := false |};
             {| name := "hidden"; size := 1; private := true; fork := false |} ]
  = repolist [ {| name := "hidden"; size := 1; private := true; fork := false |};
               {| name := "alpha"; size := 9; private := false; fork := false |};
               {| name := "Zeta"; size := 3; private := false; fork := false |} ].
Proof.
  apply repolist_order_independent.
  eapply perm_trans; [apply Permutation_cons_append|]. simpl.
  apply perm_swap.
Defined.

End CatalogMore.

(* ===================================================================== *)
(** ** repo_folder                                                       *)
(* ===================================================================== *)

Module RepoFolderMore.

Import PyStr PyStrFacts Search PathSpec FileUrlMore ScannerSpec.

Lemma replace_from_skip (old new p s : string) :
  replace_from old new (String.length p) (p +:+ s) = replace_from old new 0 s.
Proof. induction p as [|c p IH]; simpl; [reflexivity | exact IH]. Qed.

(** An occurrence at the front is replaced, and the scan resumes behind
    it. *)
Lemma replace_occurrence (old new s : string) :
  old <> EmptyString -> replace old new (old +:+ s) = new +:+ replace old new s.
Proof.
  destruct old as [|a old]; [congruence|]. intros _.
  unfold replace. change (String a old +:+ s) with (String a (old +:+ s)).
  cbn [replace_from].
  change (String a (old +:+ s)) with (String a old +:+ s).
  rewrite startswith_append.
  replace (String.length (String a old) - 1)%nat with (String.length old)
    by (simpl; lia).
  now rewrite replace_from_skip.
Qed.

(** A text in which [old] does not occur is left alone. *)
Lemma replace_absent (old new s : string) :
  old <> EmptyString -> contains old s = false -> replace old new s = s.
Proof.
  destruct old as [|a old]; [congruence|]. intros _. unfold replace.
  induction s as [|c s IH]; [reflexivity|].
  cbn [contains replace_from]. intros H.
  apply orb_false_iff in H as [H1 H2]. rewrite H1. now rewrite (IH H2).
Qed.

Lemma startswith_app_r (p a b : string) :
  startswith p a = true -> startswith p (a +:+ b) = true.
Proof.
  revert a. induction p as [|c p IH]; intros a H; [reflexivity|].
  destruct a as [|x a]; [discriminate|]. simpl in *.
  apply andb_true_iff in H as [H1 H2]. rewrite H1. now apply IH.
Qed.

Lemma contains_app_r (old a b : string) :
  contains old (a +:+ b) = false -> contains old a = false.
Proof.
  induction a as [|c a IH]; intros H.
  - destruct old as [|x old]; [|reflexivity]. now destruct b.
  - change (String c a +:+ b) with (String c (a +:+ b)) in H.
    cbn [contains] in H |- *. apply orb_false_iff in H as [H1 H2].
    rewrite (IH H2), orb_false_r.
    destruct (startswith old (String c a)) eqn:E; [|reflexivity].
    apply (startswith_app_r _ _ b) in E.
    change (String c a +:+ b) with (String c (a +:+ b)) in E. congruence.
Qed.

(** Counting a single character. *)
Lemma count_slash_cons (c : ascii) (s : string) :
  count "/" (String c s) = (if Ascii.eqb "/" c then 1 else 0) + count "/" s.
Proof.
  unfold count. cbn [count_from startswith String.length Nat.sub].
  destruct (Ascii.eqb "/" c); reflexivity.
Qed.

Lemma count_slash_app (a b : string) :
  count "/" (a +:+ b) = count "/" a + count "/" b.
Proof.
  induction a as [|c a IH]; [reflexivity|].
  change (String c a +:+ b) with (String c (a +:+ b)).
  rewrite !count_slash_cons, IH. lia.
Qed.

Lemma count_slash_plain (a : string) : mem "/" a = false -> count "/" a = 0.
Proof.
  induction a as [|c a IH]; [reflexivity|]. simpl mem. intros H.
  apply orb_false_iff in H as [Hc Ha].
  rewrite count_slash_cons, (IH Ha), Ascii.eqb_sym, Hc. reflexivity.
Qed.

(** The separators of a path below the cache root, in a path in which
    the root does not occur again. *)
Lemma repo_folder_below (cfg : settings) (rest : string) :
  folder cfg <> EmptyString -> contains (folder cfg) rest = false ->
  repo_folder cfg (folder cfg +:+ rest) = (count "/" (normalized rest) =? 2).
Proof.
  intros Hf Hrest. unfold repo_folder.
  rewrite (replace_occurrence _ _ _ Hf), (replace_absent _ _ _ Hf Hrest).
  reflexivity.
Qed.

Lemma slashes_of_segment (s : ascii) (name rest : string) :
  is_separator s -> plain name ->
  count "/" (normalized (String s (name +:+ rest)))
  = 1 + count "/" (normalized rest).
Proof.
  intros Hs (Hn1 & Hn2).
  change (String s (name +:+ rest)) with (String s EmptyString +:+ name +:+ rest).
  rewrite !normalized_app, (normalized_separator s Hs), (normalized_plain name Hn2).
  rewrite !count_slash_app, (count_slash_plain name Hn1). reflexivity.
Qed.

(** X12: for a cache root that does not occur again in the paths below
    it, and with either separator, the folder [root/org/repo] is a
    repository root, and neither the cache root, nor [root/org], nor a
    folder [root/org/repo/sub] is one. *)
Theorem repo_root_detection (cfg : settings) (s1 s2 s3 : ascii)
    (org repo sub : string) :
  folder cfg <> EmptyString ->
  is_separator s1 -> is_separator s2 -> is_separator s3 ->
  plain org -> plain repo -> plain sub ->
  contains (folder cfg)
    (String s1 (org +:+ String s2 (repo +:+ String s3 sub))) = false ->
  repo_folder cfg (folder cfg) = false
  /\ repo_folder cfg (folder cfg +:+ String s1 org) = false
  /\ repo_folder cfg (folder cfg +:+ String s1 (org +:+ String s2 repo)) = true
  /\ repo_folder cfg
       (folder cfg +:+ String s1 (org +:+ String s2 (repo +:+ String s3 sub)))
     = false.
Proof.
  intros Hf H1 H2 H3 Ho Hr Hs Habsent.
  assert (Ha2 : contains (folder cfg) (String s1 (org +:+ String s2 repo)) = false).
  { apply (contains_app_r _ _ (String s3 sub)).
    change (String s1 (org +:+ String s2 repo) +:+ String s3 sub)
      with (String s1 ((org +:+ String s2 repo) +:+ String s3 sub)).
    now rewrite !append_assoc. }
  assert (Ha1 : contains (folder cfg) (String s1 org) = false).
  { apply (contains_app_r _ _ (String s2 repo)). exact Ha2. }
  assert (Ha0 : contains (folder cfg) EmptyString = false).
  { destruct (folder cfg); [congruence | reflexivity]. }
  split; [|split; [|split]].
  - rewrite <- (append_nil_r (folder cfg)).
    now rewrite repo_folder_below.
  - rewrite repo_folder_below by assumption.
    rewrite <- (append_nil_r org), slashes_of_segment by assumption. reflexivity.
  - rewrite repo_folder_below by assumption.
    rewrite slashes_of_segment by assumption.
    rewrite <- (append_nil_r repo), slashes_of_segment by assumption. reflexivity.
  - rewrite repo_folder_below by assumption.
    rewrite !slashes_of_segment by assumption.
    rewrite <- (append_nil_r sub), slashes_of_segment by assumption. reflexivity.
Qed.

Lemma repo_root_detection_witness :
  repo_folder WalkSpec.win_cfg (folder WalkSpec.win_cfg) = false
  /\ repo_folder WalkSpec.win_cfg (folder WalkSpec.win_cfg +:+ String bs "orgA") = false
  /\ repo_folder WalkSpec.win_cfg
       (folder WalkSpec.win_cfg +:+ String bs ("orgA" +:+ String bs "repoX")) = true
  /\ repo_folder WalkSpec.win_cfg
       (folder WalkSpec.win_cfg
        +:+ String bs ("orgA" +:+ String bs ("repoX" +:+ String "/" "src")))
     = false.
Proof.
  apply (repo_root_detection WalkSpec.win_cfg bs bs "/" "orgA" "repoX" "src");
    try discriminate; try (split; reflexivity); try reflexivity;
    try (right; reflexivity); try (left; reflexivity).
Defined.

End RepoFolderMore.

(* ===================================================================== *)
(** ** More on the keyword scanner and the reports                       *)
(* ===================================================================== *)

Module ScannerMore.

Import PyStr PyStrFacts Search ScanSpec WalkSpec TotalsSpec ScannerSpec AggregatorSpec.

Lemma count_from_nonneg (sub : string) (s : string) :
  forall skip : nat, 0 <= count_from sub skip s.
Proof.
  induction s as [|c s IH]; intros skip; [reflexivity|].
  cbn [count_from]. destruct skip as [|k]; [|apply IH].
  destruct (startswith sub (String c s)); [|apply IH].
  specialize (IH (String.length sub - 1)%nat). lia.
Qed.

(** A keyword has a positive count exactly when it occurs. *)
Lemma count_positive (sub s : string) :
  sub <> EmptyString -> (0 <? count sub s) = contains sub s.
Proof.
  destruct sub as [|a sub]; [congruence|]. intros _. unfold count.
  induction s as [|c s IH]; [reflexivity|].
  cbn [count_from contains].
  destruct (startswith (String a sub) (String c s)); [|exact IH].
  pose proof (count_from_nonneg (String a sub) s
                (String.length (String a sub) - 1)%nat).
  simpl orb. apply Z.ltb_lt. lia.
Qed.

Lemma word_count_nonneg (text w : string) : 0 <= word_count text w.
Proof.
  unfold word_count, count. destruct (lower w); [lia | apply count_from_nonneg].
Qed.

Lemma total_count_nonneg (text : string) (ws : list string) :
  0 <= total_count text ws.
Proof.
  induction ws as [|w ws IH]; simpl; [lia|].
  pose proof (word_count_nonneg text w). lia.
Qed.

Lemma total_positive (text : string) (ws : list string) :
  Forall (fun w => w <> EmptyString) ws ->
  (0 <? total_count text ws) = some_keyword_occurs text ws.
Proof.
  induction 1 as [|w ws Hw _ IH]; [reflexivity|].
  cbn [total_count foldr some_keyword_occurs existsb].
  fold (total_count text ws). fold (some_keyword_occurs text ws).
  rewrite <- IH. unfold word_count at 1.
  rewrite <- (count_positive (lower w) (lower text)) by now apply lower_nonempty.
  fold (word_count text w).
  pose proof (word_count_nonneg text w). pose proof (total_count_nonneg text ws).
  destruct (0 <? word_count text w) eqn:E1; destruct (0 <? total_count text ws) eqn:E2;
    simpl; rewrite ?Z.ltb_lt, ?Z.ltb_ge in *; lia.
Qed.

(** X13: when no keyword is empty or [*TOTAL*], the total that
    [search_file] returns is positive exactly when some keyword occurs in
    the text, upper and lower case taken as the same; so these are the
    files that get a row in matches.csv. *)
Theorem positive_total_iff_keyword_occurs (cfg : settings) (filename text : string) :
  "*TOTAL*" ∉ words cfg ->
  Forall (fun w => w <> EmptyString) (words cfg) ->
  exists hits t,
    search_file cfg filename text = Ok hits
    /\ hits !! "*TOTAL*" = Some (VInt t)
    /\ (0 <? t) = some_keyword_occurs text (words cfg).
Proof.
  intros Hnot Hne.
  destruct (search_file_ok cfg filename text Hnot) as (hits & Hok & Htot & _).
  exists hits, (total_count text (words cfg)).
  split; [exact Hok|]. split; [exact Htot|]. now apply total_positive.
Qed.

Lemma positive_total_iff_keyword_occurs_witness :
  exists hits t,
    search_file todo_cfg "/srv/gh-mirror/o/r/a.go" "fix this: ToDo" = Ok hits
    /\ hits !! "*TOTAL*" = Some (VInt t)
    /\ (0 <? t) = some_keyword_occurs "fix this: ToDo" (words todo_cfg).
Proof.
  apply (positive_total_iff_keyword_occurs todo_cfg "/srv/gh-mirror/o/r/a.go"
           "fix this: ToDo").
  - simpl. rewrite list_elem_of_In. simpl. intuition discriminate.
  - repeat constructor. discriminate.
Defined.

(** X14: matches.csv is its header and then one row for every file that
    has an allowed extension and a positive total and lies in a directory
    that is not left early, in the order of the walk, with the file's URL,
    its counts and its total. *)
Theorem matches_csv_rows (cfg : settings) (fl : OsPath.flavour)
    (fs : Utils.filesys) (t : tree) :
  wf_settings cfg ->
  exists rrows,
    search_repos cfg fl fs t
    = Ok (header cfg ",total"
          :: map (match_row cfg) (hits_of cfg fl (walk fl (folder cfg) t)),
          rrows).
Proof.
  intros Hwf. unfold search_repos. rewrite (search_visits_ok cfg fl fs Hwf). eauto.
Qed.

Lemma matches_csv_rows_witness :
  exists rrows,
    search_repos todo_cfg OsPath.Posix no_git two_repos
    = Ok (["url,TODO,total" +:+ newline;
           "https://github.com/orgA/repo1/blob/master/a.go,2,2" +:+ newline],
          rrows).
Proof.
  apply (matches_csv_rows todo_cfg OsPath.Posix no_git two_repos).
  unfold wf_settings. simpl.
  repeat split; rewrite list_elem_of_In; simpl; intuition discriminate.
Defined.

Lemma sumZ_map_add (f g : string -> Z) (ws : list string) :
  sumZ (map (fun w => f w + g w) ws) = sumZ (map f ws) + sumZ (map g ws).
Proof.
  unfold sumZ. induction ws as [|w ws IH]; simpl; [reflexivity|]. rewrite IH. lia.
Qed.

Lemma total_count_sum (text : string) (ws : list string) :
  total_count text ws = sumZ (map (word_count text) ws).
Proof.
  unfold sumZ. induction ws as [|w ws IH]; simpl; [reflexivity | now rewrite IH].
Qed.

(** The sums over keywords and over files can be exchanged. *)
Lemma tally_sum (files : list (string * string)) (ws : list string) :
  sumZ (map (tally files) ws)
  = foldr (fun f acc => total_count (snd f) ws + acc) 0 files.
Proof.
  induction files as [|f files IH].
  - unfold sumZ. induction ws as [|w ws IHw]; simpl; [reflexivity | now rewrite IHw].
  - cbn [foldr]. rewrite <- IH, total_count_sum, <- sumZ_map_add. reflexivity.
Qed.

Lemma occ_once (w : string) (ws : list string) : NoDup ws -> w ∈ ws -> occ w ws = 1.
Proof.
  induction 1 as [|x ws Hx Hnd IH]; intros Hin; [inversion Hin|].
  simpl. apply elem_of_cons in Hin as [-> | Hin].
  - rewrite String.eqb_refl, (occ_not_in x ws Hx). reflexivity.
  - destruct (String.eqb_spec x w) as [->|_]; [contradiction|].
    now rewrite IH.
Qed.

(** X15: with a keyword list without repetition, at every point of the
    walk the total of the open accumulator is the sum of its keyword
    counts. *)
Theorem accumulator_total_is_sum (cfg : settings) (fl : OsPath.flavour)
    (fs : Utils.filesys) (vs : list visit) :
  wf_settings cfg -> NoDup (words cfg) ->
  exists s counts total,
    fold_left (visit_dir cfg fl fs) vs (Ok (start cfg)) = Ok s
    /\ Forall2 (fun w z => repo_totals s !! w = Some (VInt z)) (words cfg) counts
    /\ repo_totals s !! "*TOTAL*" = Some (VInt total)
    /\ sumZ counts = total.
Proof.
  intros Hwf Hnd.
  destruct (visits_ok cfg fl fs Hwf vs (start cfg) EmptyString []
              [header cfg ",total"] [header cfg ",total,branch,last_commit"])
    as (s & root & files & rrows & Hfold & ((_ & Htot & Hall) & _) & _).
  { split; [now apply represents_empty | split; reflexivity]. }
  exists s, (map (repo_count cfg files) (words cfg)), (tally_total cfg files).
  split; [exact Hfold|]. split; [|split; [exact Htot|]].
  - apply Forall2_fmap_r, Forall_Forall2_diag. exact Hall.
  - unfold tally_total. rewrite <- tally_sum. f_equal.
    apply map_ext_in. intros w Hw. unfold repo_count.
    rewrite (occ_once w (words cfg) Hnd) by now apply list_elem_of_In. lia.
Qed.

Lemma accumulator_total_is_sum_witness :
  exists s counts total,
    fold_left (visit_dir (config mirror ["TODO"; "package"] [".go"]) OsPath.Posix no_git)
      (walk OsPath.Posix mirror two_repos)
      (Ok (start (config mirror ["TODO"; "package"] [".go"]))) = Ok s
    /\ Forall2 (fun w z => repo_totals s !! w = Some (VInt z))
         (words (config mirror ["TODO"; "package"] [".go"])) counts
    /\ repo_totals s !! "*TOTAL*" = Some (VInt total)
    /\ sumZ counts = total.
Proof.
  apply (accumulator_total_is_sum (config mirror ["TODO"; "package"] [".go"])
           OsPath.Posix no_git (walk OsPath.Posix mirror two_repos)).
  - unfold wf_settings. simpl.
    repeat split; rewrite list_elem_of_In; simpl; intuition discriminate.
  - simpl. repeat constructor; rewrite ?list_elem_of_In; simpl; intuition discriminate.
Defined.

End ScannerMore.

(* ===================================================================== *)
(** ** More on the walk                                                  *)
(* ===================================================================== *)

Module WalkMore.

Import PyStr PyStrFacts Search WalkSpec WalkOrder.

Lemma walk_unfold (fl : OsPath.flavour) (root n : string)
    (files : list (string * string)) (ds : list tree) :
  walk fl root (Dir n files ds)
  = {| v_root := root; v_dirs := map dname ds; v_files := files |}
    :: descend fl root (negb (skipped root)) (negb (skipped root)) ds.
Proof.
  cbn [walk]. f_equal.
  generalize (negb (skipped root)) at 1 3 as git.
  generalize (negb (skipped root)) as github.
  induction ds as [|d ds IH]; intros github git; [reflexivity|].
  cbn [descend]. rewrite !IH. reflexivity.
Qed.

Lemma descend_git (fl : OsPath.flavour) (root : string)
    (f1 f2 : list (string * string)) (s1 s2 post : list tree) (pre : list tree) :
  Forall (fun d => dname d <> ".git") pre ->
  forall github : bool,
    descend fl root true github (pre ++ Dir ".git" f1 s1 :: post)
    = descend fl root true github (pre ++ Dir ".git" f2 s2 :: post).
Proof.
  induction 1 as [|d pre Hd _ IH]; intros github; [reflexivity|].
  cbn [app descend]. apply String.eqb_neq in Hd. rewrite Hd. cbn [andb].
  destruct (github && String.eqb (dname d) ".github"); now rewrite IH.
Qed.

Lemma descend_github (fl : OsPath.flavour) (root : string)
    (f1 f2 : list (string * string)) (s1 s2 post : list tree) (pre : list tree) :
  Forall (fun d => dname d <> ".github") pre ->
  forall git : bool,
    descend fl root git true (pre ++ Dir ".github" f1 s1 :: post)
    = descend fl root git true (pre ++ Dir ".github" f2 s2 :: post).
Proof.
  induction 1 as [|d pre Hd _ IH]; intros git.
  - cbn [app descend dname]. now destruct git.
  - cbn [app descend]. apply String.eqb_neq in Hd. rewrite Hd.
    rewrite andb_false_r.
    destruct (git && String.eqb (dname d) ".git"); now rewrite IH.
Qed.

(** X16: in a directory that is not left early, the first sub-directory
    named [.git] or [.github] is never entered: whatever files and
    directories it holds, the walk of the directory is the same. *)
Theorem metadata_directory_not_entered (fl : OsPath.flavour) (root n meta : string)
    (files f1 f2 : list (string * string)) (pre post s1 s2 : list tree) :
  skipped root = false -> is_meta meta ->
  Forall (fun d => dname d <> meta) pre ->
  walk fl root (Dir n files (pre ++ Dir meta f1 s1 :: post))
  = walk fl root (Dir n files (pre ++ Dir meta f2 s2 :: post)).
Proof.
  intros Hroot Hmeta Hpre. rewrite !walk_unfold, Hroot. cbn [negb].
  rewrite !map_app. cbn [map dname]. f_equal.
  destruct Hmeta as [-> | ->].
  - now apply descend_git.
  - now apply descend_github.
Qed.

Lemma metadata_directory_not_entered_witness :
  walk OsPath.Posix "/srv/gh-mirror/orgA/repo1"
    (Dir "repo1" [("a.go", "package a")]
       ([Dir "docs" [] []] ++ Dir ".git" [("hook.go", "todo")] [] :: [Dir "src" [] []]))
  = walk OsPath.Posix "/srv/gh-mirror/orgA/repo1"
      (Dir "repo1" [("a.go", "package a")]
         ([Dir "docs" [] []] ++ Dir ".git" [] [Dir "objects" [("x.go", "todo")] []]
          :: [Dir "src" [] []])).
Proof.
  apply (metadata_directory_not_entered OsPath.Posix "/srv/gh-mirror/orgA/repo1"
           "repo1" ".git").
  - reflexivity.
  - left. reflexivity.
  - repeat constructor. discriminate.
Defined.

(** A joined path starts with the directory it was joined to. *)
Lemma join_extends (fl : OsPath.flavour) (a b : string) :
  exists x, OsPath.join fl a b = a +:+ x.
Proof.
  unfold OsPath.join.
  assert (Hd : fst (OsPath.splitdrive fl a) +:+ snd (OsPath.splitdrive fl a) = a).
  { unfold OsPath.splitdrive. destruct fl; [reflexivity|].
    destruct a as [|x [|y a]]; try reflexivity.
    destruct y as [[] [] [] [] [] [] [] []]; reflexivity. }
  destruct (OsPath.splitdrive fl a) as [drive path]. simpl in Hd.
  destruct (String.eqb path EmptyString || OsPath.ends_with_sep fl path).
  - exists b. now rewrite <- Hd, append_assoc.
  - exists (OsPath.sep fl +:+ b). now rewrite <- Hd, !append_assoc.
Qed.

Lemma contains_extends (m a x : string) :
  contains m a = true -> contains m (a +:+ x) = true.
Proof.
  intros H. destruct (contains m (a +:+ x)) eqn:E; [reflexivity|].
  apply RepoFolderMore.contains_app_r in E. congruence.
Qed.

Lemma skipped_join (fl : OsPath.flavour) (root name : string) :
  skipped root = true -> skipped (OsPath.join fl root name) = true.
Proof.
  unfold skipped. intros H. destruct (join_extends fl root name) as [x ->].
  now apply contains_extends.
Qed.

(** Below a directory that is left early, every directory is. *)
Lemma walk_all_skipped (fl : OsPath.flavour) :
  forall (t : tree) (root : string),
    skipped root = true ->
    Forall (fun v => skipped (v_root v) = true) (walk fl root t).
Proof.
  fix IH 1. intros [n files ds] root Hroot.
  rewrite walk_unfold, Hroot. cbn [negb]. constructor; [exact Hroot|].
  induction ds as [|d ds IHds]; [constructor|].
  cbn [descend andb]. apply Forall_app. split; [|exact IHds].
  apply IH. now apply skipped_join.
Qed.

(** X17: once the path of a directory contains the marker [\vendor\],
    the walk of the directory and of everything below it leaves the
    reports and the totals as they are. *)
Theorem below_vendor_marker_nothing_changes (cfg : settings) (fl : OsPath.flavour)
    (fs : Utils.filesys) (t : tree) (root : string) (s : run) :
  skipped root = true ->
  fold_left (visit_dir cfg fl fs) (walk fl root t) (Ok s) = Ok s.
Proof.
  intros Hroot. pose proof (walk_all_skipped fl t root Hroot) as Hall.
  induction Hall as [|v vs Hv _ IH]; [reflexivity|].
  cbn [fold_left]. unfold visit_dir at 2. cbn [bind]. rewrite Hv. exact IH.
Qed.

Lemma below_vendor_marker_nothing_changes_witness :
  fold_left (visit_dir win_cfg OsPath.Nt no_git)
    (walk OsPath.Nt "C:\temp\repos1\orgA\repo1\vendor\pkg"
       (Dir "pkg" [("deep.go", "todo")] [Dir ".git" [("x.go", "todo")] []]))
    (Ok (start win_cfg))
  = Ok (start win_cfg).
Proof.
  apply (below_vendor_marker_nothing_changes win_cfg OsPath.Nt no_git).
  reflexivity.
Defined.

End WalkMore.

(* ===================================================================== *)
(** ** repo_filter.py                                                    *)
(* ===================================================================== *)

Module FilterMore.

Import PyStr PyStrFacts RepoFilter FilterSpec.

Lemma nth_error_long (l : list string) (i : nat) :
  (i < length l)%nat -> nth_error l i = Some (nth i l EmptyString).
Proof. intros H. now apply List.nth_error_nth'. Qed.

(** One turn of the loop on a readable row. *)
Lemma filter_row_readable (repos : list string) (row : list string)
    (rest out : list (list string)) :
  readable row = true ->
  filter_rows repos (row :: rest) out
  = filter_rows repos rest (out ++ if kept repos row then [row] else []).
Proof.
  destruct row as [|url cells]; [discriminate|]. cbn [readable filter_rows kept].
  destruct (String.eqb url "url") eqn:Eu; [reflexivity|]. cbn [orb].
  intros Hlen. apply Nat.leb_le in Hlen.
  rewrite (nth_error_long (split "/" url) 3), (nth_error_long (split "/" url) 4) by lia.
  fold (url_part 3 url). fold (url_part 4 url).
  destruct (String.eqb (lower (url_part 3 url)) "googleapis"); cbn [negb orb];
    [|reflexivity].
  destruct (existsb (String.eqb (lower (url_part 4 url))) repos);
    [reflexivity | now rewrite app_nil_r].
Qed.

(** One turn of the loop on a row that is not readable. *)
Lemma filter_row_unreadable (repos : list string) (row : list string)
    (rest out : list (list string)) :
  readable row = false -> filter_rows repos (row :: rest) out = IndexError out.
Proof.
  destruct row as [|url cells]; [reflexivity|]. cbn [readable filter_rows].
  destruct (String.eqb url "url"); [discriminate|]. cbn [orb]. intros Hlen.
  apply Nat.leb_gt in Hlen.
  destruct (nth_error (split "/" url) 3) as [org|] eqn:E3; [|reflexivity].
  destruct (nth_error (split "/" url) 4) as [repo|] eqn:E4; [|reflexivity].
  assert (4 < length (split "/" url))%nat by (apply nth_error_Some; congruence).
  lia.
Qed.

Lemma filter_rows_readable (repos : list string) (rows : list (list string)) :
  Forall (fun row => readable row = true) rows ->
  forall out, filter_rows repos rows out = Written (out ++ filter (fun row => kept repos row = true) rows).
Proof.
  induction 1 as [|row rows Hrow _ IH]; intros out.
  - cbn. now rewrite app_nil_r.
  - rewrite (filter_row_readable repos row rows out Hrow), IH, filter_cons.
    destruct (kept repos row).
    + rewrite decide_True by reflexivity. now rewrite <- app_assoc.
    + rewrite decide_False by discriminate. now rewrite app_nil_r.
Qed.

(** X18: when every row is readable, the output file holds exactly the
    header rows, the rows of other organisations and the rows of
    googleapis repositories that are listed, in the order of the input. *)
Theorem main_keeps_listed_rows (repo_data repos : list string)
    (rows : list (list string)) :
  allowed_repos repo_data = Some repos ->
  Forall (fun row => readable row = true) rows ->
  main repo_data rows = Written (filter (fun row => kept repos row = true) rows).
Proof.
  intros Hrepos Hrows. unfold main. rewrite Hrepos.
  now rewrite filter_rows_readable.
Qed.

Lemma main_keeps_listed_rows_witness :
  main (map entry sample_entries) sample_rows
  = Written [["url"; "TODO"; "total"];
             ["https://github.com/GoogleAPIs/Gax-Java"; "1"; "1"];
             ["https://github.com/other/tool/blob/master/a.go"; "3"; "3"]].
Proof.
  apply (main_keeps_listed_rows (map entry sample_entries) ["gax-java"] sample_rows).
  - reflexivity.
  - repeat constructor.
Defined.

Lemma filter_rows_unreadable (repos : list string) (good : list (list string))
    (bad : list string) (rest : list (list string)) :
  Forall (fun row => readable row = true) good ->
  readable bad = false ->
  forall out,
    filter_rows repos (good ++ bad :: rest) out
    = IndexError (out ++ filter (fun row => kept repos row = true) good).
Proof.
  intros Hgood Hbad. induction Hgood as [|row good Hrow _ IH]; intros out.
  - cbn [app]. rewrite filter_row_unreadable by exact Hbad.
    now rewrite filter_nil, app_nil_r.
  - cbn [app]. rewrite (filter_row_readable repos row _ out Hrow), IH, filter_cons.
    destruct (kept repos row).
    + rewrite decide_True by reflexivity. now rewrite <- app_assoc.
    + rewrite decide_False by discriminate. now rewrite app_nil_r.
Qed.

(** X19: a row the loop cannot read (a blank line, or a first cell that
    is not [url] and has fewer than five parts) ends the run with an
    IndexError: the rows before it have been filtered and written, the
    rows after it are lost. *)
Theorem main_stops_at_unreadable_row (repo_data repos : list string)
    (good : list (list string)) (bad : list string) (rest : list (list string)) :
  allowed_repos repo_data = Some repos ->
  Forall (fun row => readable row = true) good ->
  readable bad = false ->
  main repo_data (good ++ bad :: rest) = IndexError (filter (fun row => kept repos row = true) good).
Proof.
  intros Hrepos Hgood Hbad. unfold main. rewrite Hrepos.
  now rewrite filter_rows_unreadable.
Qed.

Lemma main_stops_at_unreadable_row_witness :
  main (map entry sample_entries)
    ([["url"; "TODO"; "total"]; ["https://github.com/googleapis/retired"; "2"; "2"]]
     ++ [] :: [["https://github.com/other/tool"; "3"; "3"]])
  = IndexError [["url"; "TODO"; "total"]].
Proof.
  apply (main_stops_at_unreadable_row (map entry sample_entries) ["gax-java"]).
  - reflexivity.
  - repeat constructor.
  - reflexivity.
Defined.

(** A run that ends well has read every row. *)
Lemma written_rows_readable (repos : list string) (rows : list (list string)) :
  forall out result,
    filter_rows repos rows out = Written result ->
    Forall (fun row => readable row = true) rows.
Proof.
  induction rows as [|row rows IH]; intros out result H; [constructor|].
  destruct (readable row) eqn:E.
  - constructor; [exact E|].
    rewrite (filter_row_readable repos row rows out E) in H. eauto.
  - rewrite (filter_row_unreadable repos row rows out E) in H. discriminate.
Qed.

(** X20: filtering is idempotent: a report that [main] wrote is written
    again unchanged when it is filtered with the same list. *)
Theorem main_idempotent (repo_data : list string) (rows out : list (list string)) :
  main repo_data rows = Written out -> main repo_data out = Written out.
Proof.
  unfold main. destruct (allowed_repos repo_data) as [repos|]; [|discriminate].
  intros H. pose proof (written_rows_readable repos rows [] out H) as Hrows.
  rewrite (filter_rows_readable repos rows Hrows) in H. cbn [app] in H.
  injection H as <-.
  rewrite filter_rows_readable.
  - cbn [app]. f_equal. rewrite list_filter_filter.
    apply list_filter_iff. tauto.
  - apply Forall_forall. intros row Hrow.
    apply list_elem_of_filter in Hrow as [_ Hrow].
    rewrite Forall_forall in Hrows. now apply Hrows.
Qed.

Lemma main_idempotent_witness :
  main (map entry sample_entries)
    [["url"; "TODO"; "total"];
     ["https://github.com/GoogleAPIs/Gax-Java"; "1"; "1"];
     ["https://github.com/other/tool/blob/master/a.go"; "3"; "3"]]
  = Written [["url"; "TODO"; "total"];
             ["https://github.com/GoogleAPIs/Gax-Java"; "1"; "1"];
             ["https://github.com/other/tool/blob/master/a.go"; "3"; "3"]].
Proof.
  apply (main_idempotent (map entry sample_entries) sample_rows).
  reflexivity.
Defined.

Lemma lower_char_slash (c : ascii) :
  Ascii.eqb (lower_char c) "/" = Ascii.eqb c "/".
Proof. destruct c as [[] [] [] [] [] [] [] []]; reflexivity. Qed.

Lemma lower_mem_slash (s : string) : mem "/" (lower s) = mem "/" s.
Proof.
  induction s as [|c s IH]; [reflexivity|]. simpl.
  now rewrite lower_char_slash, IH.
Qed.

Lemma lower_append (a b : string) : lower (a +:+ b) = lower a +:+ lower b.
Proof. induction a as [|c a IH]; simpl; [reflexivity | now rewrite IH]. Qed.

(** The allow list read off repos.json: entries of other organisations
    are ignored, those of googleapis (in any case) give their name in
    lower case, in the order of the file. *)
Lemma allowed_repos_entries (entries : list (string * string)) :
  Forall (fun p => mem "/" (fst p) = false /\ mem "/" (snd p) = false) entries ->
  allowed_repos (map entry entries)
  = Some (map (fun p => lower (snd p)) (filter (fun p => of_googleapis p = true) entries)).
Proof.
  induction 1 as [|[org name] entries [Ho Hn] _ IH]; [reflexivity|].
  cbn [fst snd] in Ho, Hn.
  cbn [map allowed_repos]. unfold entry at 1 2. cbn [fst snd].
  change ("/" +:+ name) with (String "/" name).
  rewrite (split_append "/" org name Ho), (split_no_sep "/" name Hn).
  cbn [first_part hd].
  destruct (String.eqb (lower org) "googleapis") eqn:E.
  - rewrite filter_cons_True by exact E.
    rewrite lower_append. change (lower (String "/" name)) with (String "/" (lower name)).
    rewrite split_append by now rewrite lower_mem_slash.
    rewrite split_no_sep by now rewrite lower_mem_slash.
    cbn [nth_error]. now rewrite IH.
  - rewrite filter_cons_False; [exact IH|].
    unfold of_googleapis. cbn [fst]. rewrite E. discriminate.
Qed.

(** X21: a row of googleapis in a readable report is written exactly
    when repos.json has an entry of googleapis with the same repository
    name, upper and lower case taken as the same. *)
Theorem googleapis_row_written_iff_listed (entries : list (string * string))
    (rows : list (list string)) (url : string) (cells : list string) :
  Forall (fun p => mem "/" (fst p) = false /\ mem "/" (snd p) = false) entries ->
  Forall (fun row => readable row = true) rows ->
  (url :: cells) ∈ rows -> url <> "url" ->
  lower (url_part 3 url) = "googleapis" ->
  exists out,
    main (map entry entries) rows = Written out
    /\ ((url :: cells) ∈ out
        <-> exists p, p ∈ entries /\ lower (fst p) = "googleapis"
                      /\ lower (snd p) = lower (url_part 4 url)).
Proof.
  intros Hentries Hrows Hin Hurl Horg.
  eexists. split.
  { unfold main. rewrite (allowed_repos_entries entries Hentries).
    rewrite (filter_rows_readable _ rows Hrows). cbn [app]. reflexivity. }
  rewrite list_elem_of_filter. cbn [kept].
  apply String.eqb_neq in Hurl. rewrite Hurl, Horg. cbn [String.eqb negb orb].
  change (String.eqb "googleapis" "googleapis") with true. cbn [negb orb].
  split.
  - intros [Hex _]. apply existsb_exists in Hex as (name & Hname & Heq).
    apply String.eqb_eq in Heq. apply in_map_iff in Hname as (p & <- & Hp).
    apply list_elem_of_In, list_elem_of_filter in Hp as [Hg Hp].
    exists p. split; [exact Hp|]. split; [now apply String.eqb_eq | now symmetry].
  - intros (p & Hp & Hg & Hname). split; [|exact Hin].
    apply existsb_exists. exists (lower (snd p)). split.
    + apply in_map_iff. exists p. split; [reflexivity|].
      apply list_elem_of_In, list_elem_of_filter. split; [|exact Hp].
      unfold of_googleapis. now apply String.eqb_eq.
    + apply String.eqb_eq. now symmetry.
Qed.

Lemma googleapis_row_written_iff_listed_witness :
  exists out,
    main (map entry sample_entries) sample_rows = Written out
    /\ (["https://github.com/GoogleAPIs/Gax-Java"; "1"; "1"] ∈ out
        <-> exists p, p ∈ sample_entries /\ lower (fst p) = "googleapis"
                      /\ lower (snd p)
                         = lower (url_part 4 "https://github.com/GoogleAPIs/Gax-Java")).
Proof.
  apply (googleapis_row_written_iff_listed sample_entries sample_rows
           "https://github.com/GoogleAPIs/Gax-Java" ["1"; "1"]).
  - repeat constructor.
  - repeat constructor.
  - apply list_elem_of_In. right. left. reflexivity.
  - discriminate.
  - reflexivity.
Defined.

(** X22: an entry of googleapis without a slash makes the list
    comprehension fail before the files are opened, so that nothing is
    written, whatever the rows are. *)
Theorem entry_without_slash_aborts (before after : list string) (r : string)
    (rows : list (list string)) :
  mem "/" r = false -> lower r = "googleapis" ->
  main (before ++ r :: after) rows = IndexError [].
Proof.
  intros Hr Hg.
  assert (Hnone : allowed_repos (before ++ r :: after) = None).
  { induction before as [|x before IH].
    - cbn [app allowed_repos]. rewrite (split_no_sep "/" r Hr). cbn [first_part hd].
      rewrite Hg. reflexivity.
    - cbn [app allowed_repos]. rewrite IH.
      destruct (String.eqb (lower (first_part (split "/" x))) "googleapis");
        [|reflexivity].
      now destruct (nth_error (split "/" (lower x)) 1). }
  unfold main. now rewrite Hnone.
Qed.

Lemma entry_without_slash_aborts_witness :
  main (["googleapis/gax-java"] ++ "GoogleAPIs" :: []) sample_rows = IndexError [].
Proof.
  apply (entry_without_slash_aborts ["googleapis/gax-java"] [] "GoogleAPIs" sample_rows);
    reflexivity.
Defined.

End FilterMore.

(* ===================================================================== *)
(** ** More on latest_commit                                             *)
(* ===================================================================== *)

Module CommitMore.

Import PyStr PyStrFacts Utils Heads.

(** On a POSIX system the path that is looked up has a backslash in it,
    whatever the folder is. *)
Lemma posix_heads_dir_backslash (folder : string) :
  mem (ascii_of_nat 92) (heads_dir OsPath.Posix folder) = true.
Proof.
  unfold heads_dir, OsPath.join.
  change (OsPath.splitdrive OsPath.Posix folder) with (EmptyString, folder).
  cbv beta iota.
  destruct (String.eqb folder EmptyString || OsPath.ends_with_sep OsPath.Posix folder);
    rewrite !mem_append; cbn [mem bslash]; rewrite ?Ascii.eqb_refl;
    cbn [orb]; now rewrite ?orb_true_r.
Qed.

(** X23: on a POSIX system the literal [.git\refs\heads] is one name
    with two backslashes in it and not the path of the heads directory.
    Where no directory has a backslash in its path, as in every clone
    that git made, [latest_commit] returns the pair of empty strings for
    every folder, whatever refs the clone holds. *)
Theorem posix_lookup_finds_no_branch (fs : filesys) (folder : string) :
  (forall d, mem (ascii_of_nat 92) d = true -> files_of fs d = None) ->
  latest_commit OsPath.Posix fs folder = (EmptyString, EmptyString).
Proof.
  intros Hfs. unfold latest_commit.
  now rewrite (Hfs _ (posix_heads_dir_backslash folder)).
Qed.

Lemma posix_lookup_finds_no_branch_witness :
  files_of posix_clone "/cache/org/repo/.git/refs/heads" = Some ["master"]
  /\ latest_commit OsPath.Posix posix_clone "/cache/org/repo"
     = (EmptyString, EmptyString).
Proof.
  split; [reflexivity|].
  apply (posix_lookup_finds_no_branch posix_clone "/cache/org/repo").
  intros d Hd. unfold posix_clone. cbn [files_of].
  destruct (String.eqb_spec d "/cache/org/repo/.git/refs/heads") as [-> | _];
    [discriminate Hd | reflexivity].
Defined.

End CommitMore.
